(** * tparse: the event record of package [parse] (parse/event.go)

    A shallow embedding of [Event], its decoder [NewEvent], the nested-test
    normalizer [ProcessNestedTest] and the classifier predicates, together
    with the parts of Go's [strings], [regexp], [strconv] and
    [encoding/json] packages that event.go calls.

    Go strings are byte sequences: they are modelled by [string], one
    [ascii] per byte.  Go's [float64] is Rocq's primitive binary64 [float].
    Go's [time.Time] stays abstract: a type, its zero value and its parser
    are variables of the sections that need them.

    The definitions keep the names of event.go.  The Go type [Action] is
    [ActionT] here, [Action] being the field of [Event]; a method
    [func (e *Event) M()] is a function [M] of the event, and the one
    method that updates its receiver, [ProcessNestedTest], returns the
    updated event.

    The file has the definitions first (the library models, the event
    record and its methods, then the notions that the properties are
    stated with), and then the properties: of the string functions, of the
    pattern of [Cover], of the normalizer and the predicates, of the JSON
    scanner and of the decoder. *)

From Stdlib Require Import Bool Arith ZArith Lia List Ascii String.
From Stdlib Require Import PrimFloat SpecFloat FloatOps.
From Stdlib Require Import Permutation.
Import ListNotations.

#[local] Set Warnings "-register-all".
#[local] Set Warnings "-inexact-float".
#[local] Set Warnings "-abstract-large-number".

Local Open Scope bool_scope.
Local Open Scope list_scope.
Local Open Scope string_scope.

(** ** Bytes that cannot be written inside a Rocq string literal *)

(** A tab, a line feed and a double quote, as one-byte strings. *)
Definition TAB : string := String "009" "".
Definition NL : string := String "010" "".
Definition DQUOTE : string := String "034" "".

(** ** Go slicing *)

(** [s[i:]] *)
Definition slice_from (s : string) (i : nat) : string :=
  substring i (length s - i) s.

(** [s[:j]] *)
Definition slice_to (s : string) (j : nat) : string :=
  substring 0 j s.

(** ** Package [strings] *)

Module strings.

(** [func HasPrefix(s, prefix string) bool]:
    [len(s) >= len(prefix) && s[:len(prefix)] == prefix]. *)
Definition HasPrefix (s prefix : string) : bool :=
  (length prefix <=? length s)%nat && (slice_to s (length prefix) =? prefix).

(** [func HasSuffix(s, suffix string) bool]:
    [len(s) >= len(suffix) && s[len(s)-len(suffix):] == suffix]. *)
Definition HasSuffix (s suffix : string) : bool :=
  (length suffix <=? length s)%nat &&
  (slice_from s (length s - length suffix) =? suffix).

(** [func Index(s, substr string) int]: the index of the first instance of
    [substr] in [s], or [-1] if [substr] is not present in [s]. *)
Fixpoint Index (s substr : string) : Z :=
  if HasPrefix s substr then 0%Z
  else match s with
       | EmptyString => (-1)%Z
       | String _ s' =>
           let i := Index s' substr in
           if (i <? 0)%Z then (-1)%Z else (i + 1)%Z
       end.

(** [func Contains(s, substr string) bool]: [Index(s, substr) >= 0]. *)
Definition Contains (s substr : string) : bool :=
  (0 <=? Index s substr)%Z.

(** The loop of [Replace]: each round copies [s[:j]] and [new], where [j]
    is the index of the next instance of [old], and goes on after that
    instance; [n < 0] puts no bound on the number of rounds.  [fuel] bounds
    the recursion: an instance of a non-empty [old] takes at least one byte,
    so [S (length s)] rounds are never used up. *)
Fixpoint replace_loop (fuel : nat) (s old new : string) (n : Z) : string :=
  match fuel with
  | O => s
  | S fuel' =>
      if (n =? 0)%Z then s
      else
        let j := Index s old in
        if (j <? 0)%Z then s
        else slice_to s (Z.to_nat j) ++ new ++
             replace_loop fuel' (slice_from s (Z.to_nat j + length old))
                          old new (if (n <? 0)%Z then n else (n - 1)%Z)
  end.

(** [func Replace(s, old, new string, n int) string]: a copy of [s] with
    the first [n] non-overlapping instances of [old] replaced by [new];
    no limit when [n < 0].  [old] is not empty here, as in the one call of
    event.go (Go treats an empty [old] rune by rune). *)
Definition Replace (s old new : string) (n : Z) : string :=
  if (old =? new) || (n =? 0)%Z then s
  else replace_loop (S (length s)) s old new n.

(** The loop of [genSplit]: cut [s] at each instance of [sep]. *)
Fixpoint split_loop (fuel : nat) (s sep : string) : list string :=
  match fuel with
  | O => [s]
  | S fuel' =>
      let m := Index s sep in
      if (m <? 0)%Z then [s]
      else slice_to s (Z.to_nat m) ::
           split_loop fuel' (slice_from s (Z.to_nat m + length sep)) sep
  end.

(** [func Split(s, sep string) []string]: all substrings of [s] separated
    by [sep]; [[s]] when [s] does not contain [sep].  [sep] is not empty
    here, as in the one call of event.go (Go explodes [s] into runes for an
    empty [sep]).  Each round removes at least one byte, so [length s]
    rounds reach the last piece. *)
Definition Split (s sep : string) : list string :=
  split_loop (length s) s sep.

(** Is byte [c] one of the bytes of [cutset]? *)
Fixpoint in_cutset (c : ascii) (cutset : string) : bool :=
  match cutset with
  | EmptyString => false
  | String d cutset' => (c =? d)%char || in_cutset c cutset'
  end.

(** [func TrimRight(s, cutset string) string]: [s] without its trailing
    bytes that are in [cutset] (an ASCII cutset, as in event.go). *)
Fixpoint TrimRight (s cutset : string) : string :=
  match s with
  | EmptyString => EmptyString
  | String c s' =>
      let t := TrimRight s' cutset in
      if (t =? "") && in_cutset c cutset then "" else String c t
  end.

End strings.

(** ** Package [regexp] *)

Module regexp.

(** The syntax that the pattern of event.go uses: a byte range [[lo-hi]],
    a literal byte, concatenation, and the greedy bounded repetition
    [r{min,max}]. *)
Inductive Regexp : Type :=
| Range (lo hi : ascii)
| Lit (c : ascii)
| Cat (r1 r2 : Regexp)
| Repeat (r : Regexp) (min max : nat).

Definition in_range (lo hi c : ascii) : bool :=
  (N_of_ascii lo <=? N_of_ascii c)%N && (N_of_ascii c <=? N_of_ascii hi)%N.

(** [matches r s]: what is left of [s] after each way of matching [r] at
    the start of [s], in the order of preference of Go's leftmost-first
    (Perl-like) matching: a greedy repetition tries more rounds first. *)
Fixpoint matches (r : Regexp) (s : string) : list string :=
  match r with
  | Range lo hi =>
      match s with
      | String c s' => if in_range lo hi c then [s'] else []
      | EmptyString => []
      end
  | Lit c =>
      match s with
      | String d s' => if (c =? d)%char then [s'] else []
      | EmptyString => []
      end
  | Cat r1 r2 => flat_map (matches r2) (matches r1 s)
  | Repeat r' min max =>
      (fix rep (min max : nat) (s : string) {struct max} : list string :=
         match max with
         | O => if (min =? 0)%nat then [s] else []
         | S max' =>
             (flat_map (rep (Nat.pred min) max') (matches r' s)
              ++ (if (min =? 0)%nat then [s] else []))%list
         end) min max s
  end.

(** The leftmost match: the first start at which [r] matches, and there
    the preferred way of matching. *)
Fixpoint find (r : Regexp) (s : string) : option string :=
  match matches r s with
  | rest :: _ => Some (slice_to s (length s - length rest))
  | [] =>
      match s with
      | EmptyString => None
      | String _ s' => find r s'
      end
  end.

(** [func (re *Regexp) FindString(s string) string]: the text of the
    leftmost match of [re] in [s]; the empty string if there is none. *)
Definition FindString (re : Regexp) (s : string) : string :=
  match find re s with
  | Some m => m
  | None => ""
  end.

End regexp.

(** ** Package [strconv] *)

Module strconv.

(** The two errors of [ParseFloat]. *)
Inductive NumError : Type := ErrSyntax | ErrRange.

Definition isDigit (c : ascii) : bool := regexp.in_range "0" "9" c.

Definition digitVal (c : ascii) : Z :=
  (Z.of_N (N_of_ascii c) - 48)%Z.

(** The mantissa loop of [readFloat]: digits with at most one point.
    [mant] collects every digit, [frac] counts those after the point.
    Returns what follows the mantissa. *)
Fixpoint readMantissa (s : string) (sawdot sawdigits : bool) (mant frac : Z)
  : bool * Z * Z * string :=
  match s with
  | String c s' =>
      if (c =? ".")%char then
        if sawdot then (sawdigits, mant, frac, s)
        else readMantissa s' true sawdigits mant frac
      else if isDigit c then
        readMantissa s' sawdot true (mant * 10 + digitVal c)%Z
                     (if sawdot then (frac + 1)%Z else frac)
      else (sawdigits, mant, frac, s)
  | EmptyString => (sawdigits, mant, frac, s)
  end.

(** The exponent loop of [readFloat]: [if e < 10000 { e = e*10 + digit }]. *)
Fixpoint readExpDigits (s : string) (e : Z) : Z * string :=
  match s with
  | String c s' =>
      if isDigit c then
        readExpDigits s' (if (e <? 10000)%Z then (e * 10 + digitVal c)%Z else e)
      else (e, s)
  | EmptyString => (e, s)
  end.

(** The optional exponent of [readFloat]: [e] or [E], an optional sign and
    at least one digit.  [None] when the exponent is cut short. *)
Definition readExponent (s : string) : option (Z * string) :=
  match s with
  | String c s' =>
      if (c =? "e")%char || (c =? "E")%char then
        let '(esign, s1) :=
          match s' with
          | String "+" t => (1%Z, t)
          | String "-" t => ((-1)%Z, t)
          | _ => (1%Z, s')
          end in
        match s1 with
        | String d _ =>
            if isDigit d then
              let '(e, rest) := readExpDigits s1 0 in
              Some ((e * esign)%Z, rest)
            else None
        | EmptyString => None
        end
      else Some (0%Z, s)
  | EmptyString => Some (0%Z, s)
  end.

(** [readFloat] on a decimal number: sign, mantissa, decimal exponent and
    the rest of [s]. *)
Definition readFloat (s : string) : option (bool * Z * Z * string) :=
  match s with
  | EmptyString => None
  | String c s' =>
      let '(neg, s1) :=
        if (c =? "+")%char then (false, s')
        else if (c =? "-")%char then (true, s')
        else (false, s) in
      let '(sawdigits, mant, frac, s2) := readMantissa s1 false false 0 0 in
      if sawdigits then
        match readExponent s2 with
        | Some (e, rest) => Some (neg, mant, (e - frac)%Z, rest)
        | None => None
        end
      else None
  end.

(** The binary64 number nearest to [(-1)^neg * mant * 10^exp], ties to
    even: the quotient of two integers, rounded once. *)
Definition roundDecimal (neg : bool) (mant exp : Z) : spec_float :=
  match mant with
  | Zpos m =>
      match (10 ^ Z.max (- exp) 0)%Z with
      | Zpos d =>
          SFdiv prec emax
                (S754_finite neg (m * Z.to_pos (10 ^ Z.max exp 0)) 0)
                (S754_finite false d 0)
      | _ => S754_nan
      end
  | _ => S754_zero neg
  end.

(** [func ParseFloat(s string, bitSize int) (float64, error)] at
    [bitSize = 64], on decimal numbers (sign, digits with an optional
    point, optional exponent): the nearest binary64 number; [ErrRange]
    with an infinity when that is out of range; [ErrSyntax] with [0] when
    [s] is not a number.  Go also reads hexadecimal numbers, digits
    separated by underscores, and the words inf, infinity and nan: the
    model takes them for syntax errors, and neither caller of event.go
    passes one (see [Cover_ParseFloat_argument] and the number syntax of
    JSON). *)
Definition ParseFloat (s : string) : float * option NumError :=
  match readFloat s with
  | Some (neg, mant, exp, EmptyString) =>
      match roundDecimal neg mant exp with
      | S754_infinity sg => (SF2Prim (S754_infinity sg), Some ErrRange)
      | f => (SF2Prim f, None)
      end
  | _ => (0%float, Some ErrSyntax)
  end.

End strconv.

(** ** Package [encoding/json] *)

Module json.

Local Open Scope N_scope.

Definition byte (c : ascii) : N := N_of_ascii c.

Definition chr (n : N) : string := String (ascii_of_N n) "".

(** *** UTF-8, as [unicode/utf8] reads and writes it *)

Definition isCont (c : ascii) : bool := (128 <=? byte c) && (byte c <=? 191).

(** The bounds of the second byte after the first byte [b0] of a three-
    or four-byte encoding. *)
Definition second_ok (b0 : N) (c1 : ascii) : bool :=
  let lo := if b0 =? 224 then 160 else if b0 =? 240 then 144 else 128 in
  let hi := if b0 =? 237 then 159 else if b0 =? 244 then 143 else 191 in
  (lo <=? byte c1) && (byte c1 <=? hi).

(** [utf8.EncodeRune]: surrogates and values above U+10FFFF are written
    as U+FFFD. *)
Definition EncodeRune (r : N) : string :=
  let r := if ((55296 <=? r) && (r <=? 57343)) || (1114111 <? r)
           then 65533 else r in
  if r <? 128 then chr r
  else if r <? 2048 then chr (192 + r / 64) ++ chr (128 + r mod 64)
  else if r <? 65536 then
    chr (224 + r / 4096) ++ chr (128 + (r / 64) mod 64) ++ chr (128 + r mod 64)
  else
    chr (240 + r / 262144) ++ chr (128 + (r / 4096) mod 64) ++
    chr (128 + (r / 64) mod 64) ++ chr (128 + r mod 64).

(** *** String literals *)

Definition hexVal (c : ascii) : option N :=
  let b := byte c in
  if (48 <=? b) && (b <=? 57) then Some (b - 48)
  else if (97 <=? b) && (b <=? 102) then Some (b - 87)
  else if (65 <=? b) && (b <=? 70) then Some (b - 55)
  else None.

(** [getu4]: the code unit of a [\uXXXX] escape at the start of [s], and
    what follows it. *)
Definition getu4 (s : string) : option (N * string) :=
  match s with
  | String "\" (String "u" (String h1 (String h2 (String h3 (String h4 rest))))) =>
      match hexVal h1, hexVal h2, hexVal h3, hexVal h4 with
      | Some a, Some b, Some c, Some d =>
          Some (a * 4096 + b * 256 + c * 16 + d, rest)
      | _, _, _, _ => None
      end
  | _ => None
  end.

(** The bytes that may follow a backslash, other than [u]. *)
Definition isEscape (e : ascii) : bool :=
  strings.in_cutset e ("bfnrt\/" ++ DQUOTE).

(** The scanner inside a string literal ([stateInString],
    [stateInStringEsc], [stateInStringEscU...]): [s] starts after the
    opening quote; returns the bytes up to the closing quote and what
    follows it.  Control bytes and unknown escapes are syntax errors. *)
Fixpoint scanString (s : string) : option (string * string) :=
  match s with
  | EmptyString => None
  | String c s' =>
      if (c =? "034")%char then Some ("", s')
      else if (c =? "\")%char then
        match s' with
        | String e s'' =>
            if (e =? "u")%char then
              match s'' with
              | String h1 (String h2 (String h3 (String h4 rest))) =>
                  match hexVal h1, hexVal h2, hexVal h3, hexVal h4 with
                  | Some _, Some _, Some _, Some _ =>
                      match scanString rest with
                      | Some (raw, after) =>
                          Some (String c (String e (String h1 (String h2
                                  (String h3 (String h4 raw))))), after)
                      | None => None
                      end
                  | _, _, _, _ => None
                  end
              | _ => None
              end
            else if isEscape e then
              match scanString s'' with
              | Some (raw, after) => Some (String c (String e raw), after)
              | None => None
              end
            else None
        | EmptyString => None
        end
      else if byte c <? 32 then None
      else
        match scanString s' with
        | Some (raw, after) => Some (String c raw, after)
        | None => None
        end
  end.

Definition surrogate_hi (r : N) : bool := (55296 <=? r) && (r <=? 56319).
Definition surrogate_lo (r : N) : bool := (56320 <=? r) && (r <=? 57343).

(** How many bytes the well-formed UTF-8 encoding at the start of [s]
    takes ([utf8.DecodeRune]); [0] when [s] does not start with one. *)
Definition utf8_size (s : string) : nat :=
  match s with
  | String c0 (String c1 t1) =>
      let b0 := byte c0 in
      if (194 <=? b0) && (b0 <=? 223) then
        if isCont c1 then 2%nat else 0%nat
      else if (224 <=? b0) && (b0 <=? 239) then
        match t1 with
        | String c2 _ => if second_ok b0 c1 && isCont c2 then 3%nat else 0%nat
        | EmptyString => 0%nat
        end
      else if (240 <=? b0) && (b0 <=? 244) then
        match t1 with
        | String c2 (String c3 _) =>
            if second_ok b0 c1 && isCont c2 && isCont c3 then 4%nat else 0%nat
        | _ => 0%nat
        end
      else 0%nat
  | _ => 0%nat
  end.

Definition prepend (p : string) (r : option string) : option string :=
  option_map (fun t => p ++ t) r.

(** [unquoteBytes] on the bytes between the quotes: escapes are replaced
    by what they stand for; an escaped surrogate without its partner and
    bytes that are not well-formed UTF-8 become U+FFFD. *)
Fixpoint unquote (s : string) : option string :=
  match s with
  | EmptyString => Some ""
  | String c s' =>
      if (c =? "\")%char then
        match s' with
        | String e s'' =>
            if (e =? "u")%char then
              match s'' with
              | String h1 (String h2 (String h3 (String h4 rest))) =>
                  match getu4 s with
                  | Some (rr, _) =>
                      if surrogate_hi rr || surrogate_lo rr then
                        match rest with
                        | String _ (String _ (String _ (String _
                            (String _ (String _ rest2))))) =>
                            match getu4 rest with
                            | Some (rr1, _) =>
                                if surrogate_hi rr && surrogate_lo rr1 then
                                  prepend
                                    (EncodeRune ((rr - 55296) * 1024
                                                 + (rr1 - 56320) + 65536))
                                    (unquote rest2)
                                else prepend (EncodeRune 65533) (unquote rest)
                            | None => prepend (EncodeRune 65533) (unquote rest)
                            end
                        | _ => prepend (EncodeRune 65533) (unquote rest)
                        end
                      else prepend (EncodeRune rr) (unquote rest)
                  | None => None
                  end
              | _ => None
              end
            else if (e =? "b")%char then prepend (chr 8) (unquote s'')
            else if (e =? "f")%char then prepend (chr 12) (unquote s'')
            else if (e =? "n")%char then prepend (chr 10) (unquote s'')
            else if (e =? "r")%char then prepend (chr 13) (unquote s'')
            else if (e =? "t")%char then prepend (chr 9) (unquote s'')
            else if (e =? "034")%char || (e =? "\")%char || (e =? "/")%char
                    || (e =? "'")%char
            then prepend (String e "") (unquote s'')
            else None
        | EmptyString => None
        end
      else if (c =? "034")%char || (byte c <? 32) then None
      else if byte c <? 128 then prepend (String c "") (unquote s')
      else
        match utf8_size s, s' with
        | 2%nat, String c1 r =>
            prepend (String c (String c1 "")) (unquote r)
        | 3%nat, String c1 (String c2 r) =>
            prepend (String c (String c1 (String c2 ""))) (unquote r)
        | 4%nat, String c1 (String c2 (String c3 r)) =>
            prepend (String c (String c1 (String c2 (String c3 ""))))
                    (unquote r)
        | _, _ => prepend (EncodeRune 65533) (unquote s')
        end
  end.

(** *** Number literals *)

(** The longest run of digits at the start of [s], and the rest. *)
Fixpoint spanDigits (s : string) : string * string :=
  match s with
  | String c s' =>
      if strconv.isDigit c then
        let '(ds, rest) := spanDigits s' in (String c ds, rest)
      else ("", s)
  | EmptyString => ("", s)
  end.

(** The byte [c] at the start of [s]: what follows it. *)
Definition expect (c : ascii) (s : string) : option string :=
  match s with
  | String d rest => if (d =? c)%char then Some rest else None
  | EmptyString => None
  end.

(** The scanner on a number ([stateNeg], [state0], [state1], [stateDot],
    [stateE], ...): an optional minus, [0] or a run of digits that does
    not start with [0], an optional fraction and an optional exponent.
    Returns the literal and what follows it. *)
Definition scanNumber (s : string) : option (string * string) :=
  let '(sign, s1) :=
    match expect "-" s with
    | Some t => ("-"%string, t)
    | None => (""%string, s)
    end in
  let '(int, s2) :=
    match expect "0" s1 with
    | Some t => ("0"%string, t)
    | None => spanDigits s1
    end in
  if (int =? "")%string then None
  else
    let frac_part :=
      match expect "." s2 with
      | Some t =>
          let '(ds, s3) := spanDigits t in
          if (ds =? "")%string then None else Some (("." ++ ds)%string, s3)
      | None => Some (""%string, s2)
      end in
    match frac_part with
    | None => None
    | Some (frac, s3) =>
        let exp_part :=
          match s3 with
          | String c t =>
              if (c =? "e")%char || (c =? "E")%char then
                let '(esign, t1) :=
                  match expect "+" t, expect "-" t with
                  | Some u, _ => ("+"%string, u)
                  | None, Some u => ("-"%string, u)
                  | None, None => (""%string, t)
                  end in
                let '(ds, s4) := spanDigits t1 in
                if (ds =? "")%string then None
                else Some ((String c esign ++ ds)%string, s4)
              else Some (""%string, s3)
          | EmptyString => Some (""%string, s3)
          end in
        match exp_part with
        | None => None
        | Some (exp, s4) => Some ((sign ++ int ++ frac ++ exp)%string, s4)
        end
    end.

(** *** Values *)

(** A JSON text as the decoder reads it.  A string carries the bytes
    between its quotes and the string they stand for; a number carries its
    literal; the keys of an object are unquoted. *)
Inductive Value : Type :=
| Null
| Bool (b : bool)
| Number (lit : string)
| Str (raw : string) (s : string)
| Array (items : list Value)
| Object (members : list (string * Value)).

Definition isSpace (c : ascii) : bool :=
  (c =? " ")%char || (c =? "009")%char || (c =? "013")%char || (c =? "010")%char.

Fixpoint skipSpace (s : string) : string :=
  match s with
  | String c s' => if isSpace c then skipSpace s' else s
  | EmptyString => s
  end.

(** [const maxNestingDepth = 10000] *)
Definition maxNestingDepth : N := 10000.

(** The scanner and the decoder's walk over one value, which starts at
    the first byte of [s]; [depth] counts the arrays and objects that are
    open.  [fuel] bounds the recursion: a value, and the list of members or
    elements that it opens, each take one unit and read at least one byte,
    so fuel above twice the length of the text is never used up (see
    [parseValue_fuel]). *)
Fixpoint parseValue (fuel : nat) (depth : N) (s : string)
  : option (Value * string) :=
  match fuel with
  | O => None
  | S fuel' =>
      match s with
      | EmptyString => None
      | String c s' =>
          if (c =? "{")%char then
            if maxNestingDepth <? depth + 1 then None
            else
              match expect "}" (skipSpace s') with
              | Some rest => Some (Object [], rest)
              | None =>
                  match parseMembers fuel' (depth + 1) (skipSpace s') with
                  | Some (ms, rest) => Some (Object ms, rest)
                  | None => None
                  end
              end
          else if (c =? "[")%char then
            if maxNestingDepth <? depth + 1 then None
            else
              match expect "]" (skipSpace s') with
              | Some rest => Some (Array [], rest)
              | None =>
                  match parseElements fuel' (depth + 1) (skipSpace s') with
                  | Some (vs, rest) => Some (Array vs, rest)
                  | None => None
                  end
              end
          else if (c =? "034")%char then
            match scanString s' with
            | Some (raw, rest) =>
                match unquote raw with
                | Some v => Some (Str raw v, rest)
                | None => None
                end
            | None => None
            end
          else if (c =? "-")%char || strconv.isDigit c then
            match scanNumber s with
            | Some (lit, rest) => Some (Number lit, rest)
            | None => None
            end
          else if strings.HasPrefix s "true" then
            Some (Bool true, slice_from s 4)
          else if strings.HasPrefix s "false" then
            Some (Bool false, slice_from s 5)
          else if strings.HasPrefix s "null" then
            Some (Null, slice_from s 4)
          else None
      end
  end

with parseMembers (fuel : nat) (depth : N) (s : string)
  : option (list (string * Value) * string) :=
  match fuel with
  | O => None
  | S fuel' =>
      match expect "034" s with
      | Some s' =>
          match scanString s' with
          | Some (rawkey, s1) =>
              match unquote rawkey, expect ":" (skipSpace s1) with
              | Some key, Some s2 =>
                  match parseValue fuel' depth (skipSpace s2) with
                  | Some (v, s3) =>
                      match expect "}" (skipSpace s3) with
                      | Some rest => Some ([(key, v)], rest)
                      | None =>
                          match expect "," (skipSpace s3) with
                          | Some s4 =>
                              match
                                parseMembers fuel' depth (skipSpace s4)
                              with
                              | Some (ms, rest) => Some ((key, v) :: ms, rest)
                              | None => None
                              end
                          | None => None
                          end
                      end
                  | None => None
                  end
              | _, _ => None
              end
          | None => None
          end
      | None => None
      end
  end

with parseElements (fuel : nat) (depth : N) (s : string)
  : option (list Value * string) :=
  match fuel with
  | O => None
  | S fuel' =>
      match parseValue fuel' depth s with
      | Some (v, s1) =>
          match expect "]" (skipSpace s1) with
          | Some rest => Some ([v], rest)
          | None =>
              match expect "," (skipSpace s1) with
              | Some s2 =>
                  match parseElements fuel' depth (skipSpace s2) with
                  | Some (vs, rest) => Some (v :: vs, rest)
                  | None => None
                  end
              | None => None
              end
          end
      | None => None
      end
  end.

(** [checkValid] and the scan of the whole text: one value, with white
    space around it and nothing else.  [None] is Go's [*SyntaxError]. *)
Definition parse (data : string) : option Value :=
  match parseValue (S (2 * String.length data)) 0 (skipSpace data) with
  | Some (v, rest) =>
      match skipSpace rest with
      | EmptyString => Some v
      | String _ _ => None
      end
  | None => None
  end.

(** *** Struct fields *)

(** [foldName]: ASCII letters to upper case; the two runes outside ASCII
    that fold to an ASCII letter, U+017F (long s) and U+212A (Kelvin
    sign), to [S] and [K].  Other runes outside ASCII fold to runes
    outside ASCII and are kept as they are: no folded field name of
    [Event] holds one. *)
Fixpoint foldName (s : string) : string :=
  match s with
  | EmptyString => ""
  | String c s' =>
      let b := byte c in
      if (97 <=? b) && (b <=? 122) then String (ascii_of_N (b - 32)) (foldName s')
      else
        match s' with
        | String c1 s'' =>
            if (b =? 197) && (byte c1 =? 191) then String "S" (foldName s'')
            else
              match s'' with
              | String c2 s3 =>
                  if (b =? 226) && (byte c1 =? 132) && (byte c2 =? 170)
                  then String "K" (foldName s3)
                  else String c (foldName s')
              | EmptyString => String c (foldName s')
              end
        | EmptyString => String c (foldName s')
        end
  end.

(** How an [UnmarshalTypeError] names the kind of a value. *)
Definition kind (v : Value) : string :=
  match v with
  | Null => "null"
  | Bool _ => "bool"
  | Number _ => "number"
  | Str _ _ => "string"
  | Array _ => "array"
  | Object _ => "object"
  end.

(** The error of [Unmarshal]. *)
Inductive Error : Type :=
| SyntaxError
| UnmarshalTypeError (Value : string) (Field : string)
| TimeError.

End json.

(** ** The event record *)

(** [type Action string] *)
Definition ActionT : Type := string.

Definition ActionPass : ActionT := "pass".
Definition ActionFail : ActionT := "fail".
Definition ActionOutput : ActionT := "output".

(** [var updates = []string{...}] *)
Definition updates : list string :=
  [ "=== RUN   "; "=== PAUSE "; "=== CONT  " ].

(** The fields of [Event], in the order of the struct. *)
Inductive Field : Type :=
| FAction | FOutput | FTime | FPackage | FTest | FElapsed.

Definition fieldName (f : Field) : string :=
  match f with
  | FAction => "Action"
  | FOutput => "Output"
  | FTime => "Time"
  | FPackage => "Package"
  | FTest => "Test"
  | FElapsed => "Elapsed"
  end.

Definition fields : list Field :=
  [FAction; FOutput; FTime; FPackage; FTest; FElapsed].

Definition Field_eqb (f g : Field) : bool :=
  match f, g with
  | FAction, FAction | FOutput, FOutput | FTime, FTime
  | FPackage, FPackage | FTest, FTest | FElapsed, FElapsed => true
  | _, _ => false
  end.

(** Printable ASCII without quotes and backslashes. *)
Fixpoint plain (s : string) : bool :=
  match s with
  | EmptyString => true
  | String c s' =>
      (32 <=? json.byte c)%N && (json.byte c <? 128)%N &&
      negb (c =? "034")%char && negb (c =? "\")%char && plain s'
  end.


(** [var re = regexp.MustCompile(`[0-9]{1,3}\.[0-9]{1}\%`)] in [Cover] *)
Definition coverRE : regexp.Regexp :=
  regexp.Cat (regexp.Repeat (regexp.Range "0" "9") 1 3)
    (regexp.Cat (regexp.Lit ".")
       (regexp.Cat (regexp.Repeat (regexp.Range "0" "9") 1 1)
          (regexp.Lit "%"))).

Section Parse.

(** Go's [time.Time]: event.go stores it and never looks inside. *)
Variable time_Time : Type.

(** [type Event struct] *)
Record Event : Type := mkEvent {
  Action : ActionT;
  Output : string;
  Time : time_Time;
  Package : string;
  Test : string;
  Elapsed : float
}.

(** [func (e *Event) NestedTest() bool] *)
Definition NestedTest (e : Event) : bool :=
  negb (Test e =? "") &&
  (strings.HasPrefix (Output e) "PASS" || strings.HasPrefix (Output e) "FAIL").

(** [func (e *Event) ProcessNestedTest()]: the receiver is updated in
    place; the model returns the updated record. *)
Definition ProcessNestedTest (e : Event) : Event :=
  if NestedTest e then
    let e1 :=
      if strings.HasPrefix (Output e) "PASS" then
        mkEvent ActionPass (Output e) (Time e) (Package e) (Test e) (Elapsed e)
      else if strings.HasPrefix (Output e) "FAIL" then
        mkEvent ActionFail (Output e) (Time e) (Package e) (Test e) (Elapsed e)
      else e in
    let parts := strings.Split (strings.Replace (Output e1) TAB " " (-1)) " " in
    if (2 <? List.length parts)%nat then
      mkEvent (Action e1) (Output e1) (Time e1) (Package e1)
              (nth 2 parts "") (Elapsed e1)
    else e1
  else e.

(** [func (e *Event) Discard() bool] *)
Definition Discard (e : Event) : bool :=
  existsb (fun u => strings.HasPrefix (Output e) u) updates
  || ((Action e =? ActionOutput) && (Test e =? "")).

(** [func (e *Event) LastLine() bool] *)
Definition LastLine (e : Event) : bool :=
  (Test e =? "") && (Output e =? "") &&
  ((Action e =? ActionPass) || (Action e =? ActionFail)).

(** [func (e *Event) NoTestFiles() bool] *)
Definition NoTestFiles (e : Event) : bool :=
  strings.HasPrefix (Output e) ("?   " ++ TAB) &&
  strings.HasSuffix (Output e) ("[no test files]" ++ NL).

(** [func (e *Event) NoTestsToRun() bool] *)
Definition NoTestsToRun (e : Event) : bool :=
  strings.HasPrefix (Output e) ("ok  " ++ TAB) &&
  strings.HasSuffix (Output e) ("[no tests to run]" ++ NL).

(** [func (e *Event) NoTestsWarn() bool] *)
Definition NoTestsWarn (e : Event) : bool :=
  negb (Test e =? "") &&
  (Output e =? "testing: warning: no tests to run" ++ NL).

(** [func (e *Event) IsCached() bool] *)
Definition IsCached (e : Event) : bool :=
  strings.HasPrefix (Output e) ("ok  " ++ TAB) &&
  strings.Contains (Output e) (TAB ++ "(cached)").

(** [func (e *Event) IsRace() bool] *)
Definition IsRace (e : Event) : bool :=
  strings.HasPrefix (Output e) "WARNING: DATA RACE".

(** [func (e *Event) IsPanic() bool] *)
Definition IsPanic (e : Event) : bool :=
  strings.HasPrefix (Output e) "panic: " ||
  (strings.Contains (Output e) "runtime error:" &&
   negb (strings.Contains (Output e) "as expected")).

(** [func (e *Event) Cover() (float64, bool)] *)
Definition Cover (e : Event) : float * bool :=
  if strings.Contains (Output e) "coverage:" &&
     strings.HasSuffix (Output e) ("of statements" ++ NL) then
    let s := regexp.FindString coverRE (Output e) in
    match strconv.ParseFloat (strings.TrimRight s "%") with
    | (f, Some _) => (f, false)
    | (f, None) => (f, true)
    end
  else (0%float, false).

(** *** Decoding *)

(** The zero value of [time.Time], and [time.Time.UnmarshalJSON] on the
    bytes between the quotes of a JSON string: the strict RFC 3339 parser
    of package [time]. *)
Variable time_zero : time_Time.
Variable time_parseStrictRFC3339 : string -> option time_Time.

(** [var e Event] *)
Definition zeroEvent : Event := mkEvent "" "" time_zero "" "" 0%float.

(** The field that [object] picks for a key:
    [f := fields.byExactName[key]], and when there is none
    [f = fields.byFoldedName[foldName(key)]]. *)
Definition findField (key : string) : option Field :=
  match find (fun f => fieldName f =? key) fields with
  | Some f => Some f
  | None =>
      find (fun f => json.foldName (fieldName f) =? json.foldName key) fields
  end.

(** The decoder while it fills [e]: [d.savedError] keeps the first type
    error, and decoding goes on. *)
Record decodeState : Type := mkState {
  ev : Event;
  savedError : option json.Error
}.

Definition saveError (st : decodeState) (err : json.Error) : decodeState :=
  match savedError st with
  | None => mkState (ev st) (Some err)
  | Some _ => st
  end.

(** [v.SetString(s)] on one of the four string fields. *)
Definition setString (f : Field) (s : string) (e : Event) : Event :=
  match f with
  | FAction => mkEvent s (Output e) (Time e) (Package e) (Test e) (Elapsed e)
  | FOutput => mkEvent (Action e) s (Time e) (Package e) (Test e) (Elapsed e)
  | FPackage => mkEvent (Action e) (Output e) (Time e) s (Test e) (Elapsed e)
  | FTest => mkEvent (Action e) (Output e) (Time e) (Package e) s (Elapsed e)
  | FTime | FElapsed => e
  end.

(** [d.value(subv)] for the value of field [f]: the new state, and the
    error that stops decoding, if any.  [null] leaves the field as it is.
    [Time] is decoded by its own [UnmarshalJSON], whose error stops
    decoding; a value of the wrong kind for another field is a saved
    [UnmarshalTypeError]. *)
Definition storeValue (f : Field) (v : json.Value) (st : decodeState)
  : decodeState * option json.Error :=
  let e := ev st in
  match f with
  | FTime =>
      match v with
      | json.Null => (st, None)
      | json.Str raw _ =>
          match time_parseStrictRFC3339 raw with
          | Some t =>
              (mkState (mkEvent (Action e) (Output e) t (Package e) (Test e)
                                (Elapsed e)) (savedError st), None)
          | None => (st, Some json.TimeError)
          end
      | _ => (st, Some json.TimeError)
      end
  | FElapsed =>
      match v with
      | json.Null => (st, None)
      | json.Number lit =>
          match strconv.ParseFloat lit with
          | (n, None) =>
              (mkState (mkEvent (Action e) (Output e) (Time e) (Package e)
                                (Test e) n) (savedError st), None)
          | (_, Some _) =>
              (saveError st (json.UnmarshalTypeError ("number " ++ lit)
                                                     (fieldName f)), None)
          end
      | _ => (saveError st (json.UnmarshalTypeError (json.kind v)
                                                    (fieldName f)), None)
      end
  | _ =>
      match v with
      | json.Null => (st, None)
      | json.Str _ s => (mkState (setString f s e) (savedError st), None)
      | _ => (saveError st (json.UnmarshalTypeError (json.kind v)
                                                    (fieldName f)), None)
      end
  end.

(** [func (d *decodeState) object(v reflect.Value) error] on the members
    of the object, in their order; the value of a key that names no field
    is skipped. *)
Fixpoint object (ms : list (string * json.Value)) (st : decodeState)
  : decodeState * option json.Error :=
  match ms with
  | [] => (st, None)
  | (key, v) :: ms' =>
      match findField key with
      | Some f =>
          match storeValue f v st with
          | (st', None) => object ms' st'
          | (st', Some err) => (st', Some err)
          end
      | None => object ms' st
      end
  end.

(** [json.Unmarshal(data, &e)] on a zero [e]: the event as the decoder
    leaves it, and the error.  A text that is not well-formed is a syntax
    error and leaves [e] alone; [null] leaves it alone without an error;
    any other value that is not an object is a type error. *)
Definition Unmarshal (data : string) : Event * option json.Error :=
  match json.parse data with
  | None => (zeroEvent, Some json.SyntaxError)
  | Some (json.Object ms) =>
      match object ms (mkState zeroEvent None) with
      | (st, Some err) => (ev st, Some err)
      | (st, None) => (ev st, savedError st)
      end
  | Some json.Null => (zeroEvent, None)
  | Some v => (zeroEvent, Some (json.UnmarshalTypeError (json.kind v) ""))
  end.

(** [func NewEvent(data []byte)]: [inl e] when Go returns the event and
    a nil error, [inr err] when it returns a nil event and [err]. *)
Definition NewEvent (data : string) : Event + json.Error :=
  match Unmarshal data with
  | (_, Some err) => inr err
  | (e, None) => inl e
  end.

(** *** Decoding, in the words of the spec *)

(** The value that the members [ms] of an object give to field [f]: the
    value of the last member whose key names [f]; none when [f] is
    absent. *)
Fixpoint given (f : Field) (ms : list (string * json.Value))
  : option json.Value :=
  match ms with
  | [] => None
  | (key, v) :: ms' =>
      match given f ms' with
      | Some v' => Some v'
      | None =>
          match findField key with
          | Some g => if Field_eqb g f then Some v else None
          | None => None
          end
      end
  end.

(** The schema of a field: a string for [Action], [Output], [Package] and
    [Test]; a string that is an RFC 3339 time for [Time]; a number in the
    range of [float64] for [Elapsed]. *)
Definition field_ok (f : Field) (v : json.Value) : bool :=
  match f, v with
  | FTime, json.Str raw _ =>
      match time_parseStrictRFC3339 raw with Some _ => true | None => false end
  | FTime, _ => false
  | FElapsed, json.Number lit =>
      match strconv.ParseFloat lit with (_, None) => true | _ => false end
  | FElapsed, _ => false
  | _, json.Str _ _ => true
  | _, _ => false
  end.

(** The members match the schema: the value of every member that names a
    field has the type of the field; other members are free. *)
Definition matches_schema (ms : list (string * json.Value)) : bool :=
  forallb (fun kv => match findField (fst kv) with
                     | Some f => field_ok f (snd kv)
                     | None => true
                     end) ms.

(** The event that the members [ms] describe, over the event [e0]: a field
    that is absent keeps its value in [e0]; a field that is present takes
    the value given. *)
Definition given_string (f : Field) (ms : list (string * json.Value))
  (default : string) : string :=
  match given f ms with
  | Some (json.Str _ s) => s
  | _ => default
  end.

Definition given_time (ms : list (string * json.Value)) (default : time_Time)
  : time_Time :=
  match given FTime ms with
  | Some (json.Str raw _) =>
      match time_parseStrictRFC3339 raw with
      | Some t => t
      | None => default
      end
  | _ => default
  end.

Definition given_float (ms : list (string * json.Value)) (default : float)
  : float :=
  match given FElapsed ms with
  | Some (json.Number lit) => fst (strconv.ParseFloat lit)
  | _ => default
  end.

Definition eventFrom (e0 : Event) (ms : list (string * json.Value)) : Event :=
  mkEvent (given_string FAction ms (Action e0))
          (given_string FOutput ms (Output e0))
          (given_time ms (Time e0))
          (given_string FPackage ms (Package e0))
          (given_string FTest ms (Test e0))
          (given_float ms (Elapsed e0)).

(** The value of a field of an event, and its zero value. *)
Inductive FieldValue : Type :=
| VString (s : string)
| VTime (t : time_Time)
| VFloat (x : float).

Definition fieldValue (f : Field) (e : Event) : FieldValue :=
  match f with
  | FAction => VString (Action e)
  | FOutput => VString (Output e)
  | FTime => VTime (Time e)
  | FPackage => VString (Package e)
  | FTest => VString (Test e)
  | FElapsed => VFloat (Elapsed e)
  end.

(** No member of the object names field [f]. *)
Definition absent (f : Field) (ms : list (string * json.Value)) : Prop :=
  forall key v, In (key, v) ms -> findField key <> Some f.

End Parse.

Arguments mkEvent {time_Time}.

Arguments Action {time_Time} e.
Arguments Output {time_Time} e.
Arguments Time {time_Time} e.
Arguments Package {time_Time} e.
Arguments Test {time_Time} e.
Arguments Elapsed {time_Time} e.
Arguments NestedTest {time_Time} e.
Arguments ProcessNestedTest {time_Time} e.
Arguments Discard {time_Time} e.
Arguments LastLine {time_Time} e.
Arguments NoTestFiles {time_Time} e.
Arguments NoTestsToRun {time_Time} e.
Arguments NoTestsWarn {time_Time} e.
Arguments IsCached {time_Time} e.
Arguments IsRace {time_Time} e.
Arguments IsPanic {time_Time} e.
Arguments Cover {time_Time} e.
Arguments zeroEvent {time_Time} time_zero.
Arguments decodeState : clear implicits.
Arguments mkState {time_Time} ev savedError.
Arguments ev {time_Time} d.
Arguments savedError {time_Time} d.
Arguments saveError {time_Time} st err.
Arguments setString {time_Time} f s e.
Arguments storeValue {time_Time} time_parseStrictRFC3339 f v st.
Arguments object {time_Time} time_parseStrictRFC3339 ms st.
Arguments Unmarshal {time_Time} time_zero time_parseStrictRFC3339 data.
Arguments NewEvent {time_Time} time_zero time_parseStrictRFC3339 data.
Arguments field_ok {time_Time} time_parseStrictRFC3339 f v.
Arguments matches_schema {time_Time} time_parseStrictRFC3339 ms.
Arguments given_time {time_Time} time_parseStrictRFC3339 ms default.
Arguments eventFrom {time_Time} time_parseStrictRFC3339 e0 ms.
Arguments VString {time_Time} s.
Arguments VTime {time_Time} t.
Arguments VFloat {time_Time} x.
Arguments fieldValue {time_Time} f e.

(** ** What the spec says, in its own words *)

(** [s] starts with [p], ends with [p], contains [sub]. *)
Definition starts_with (s p : string) : Prop := exists r, s = p ++ r.
Definition ends_with (s p : string) : Prop := exists r, s = r ++ p.
Definition contains (s sub : string) : Prop := exists a b, s = a ++ sub ++ b.

(** Every byte [a] of [s] replaced by the byte [b]. *)
Fixpoint replace_byte (a b : ascii) (s : string) : string :=
  match s with
  | EmptyString => EmptyString
  | String c s' =>
      String (if (c =? a)%char then b else c) (replace_byte a b s')
  end.

(** Every tab of [s] replaced by a single space. *)
Definition tabs_to_spaces (s : string) : string := replace_byte "009" " " s.

(** [s] cut at every byte [sep]: the pieces between the separators, empty
    pieces included. *)
Fixpoint split_on (sep : ascii) (s : string) : list string :=
  match s with
  | EmptyString => [EmptyString]
  | String c s' =>
      if (c =? sep)%char then EmptyString :: split_on sep s'
      else match split_on sep s' with
           | t :: ts => String c t :: ts
           | [] => [String c EmptyString]
           end
  end.

(** The token list of the normalizer. *)
Definition tokens (output : string) : list string :=
  split_on " " (tabs_to_spaces output).


(** Every byte of [s] is in the range. *)
Fixpoint all_in_range (lo hi : ascii) (s : string) : bool :=
  match s with
  | EmptyString => true
  | String c s' => regexp.in_range lo hi c && all_in_range lo hi s'
  end.

(** Every byte of [s] is a decimal digit. *)
Fixpoint all_digits (s : string) : bool :=
  match s with
  | EmptyString => true
  | String c s' => strconv.isDigit c && all_digits s'
  end.

(** The texts of the pattern of [Cover]: one to three digits, a point, one
    digit and a percent sign.  [num] is the text without the percent
    sign. *)
Definition cover_numeral (m num : string) : Prop :=
  exists ds d,
    num = ds ++ "." ++ String d "" /\ m = num ++ "%" /\
    1 <= length ds <= 3 /\ all_digits ds = true /\ strconv.isDigit d = true.

(** [m] is the first match of the pattern in [s]: no match starts before
    it.  [num] is [m] without its percent sign. *)
Definition first_match (s m num : string) : Prop :=
  exists pre post,
    s = pre ++ m ++ post /\ cover_numeral m num /\
    forall pre' m' num' post',
      s = pre' ++ m' ++ post' -> cover_numeral m' num' ->
      length pre <= length pre'.

(** The number that a run of digits writes. *)
Fixpoint digits_value (acc : Z) (s : string) : Z :=
  match s with
  | EmptyString => acc
  | String c s' => digits_value (acc * 10 + strconv.digitVal c)%Z s'
  end.


(** ** The rest of event.go *)

(** [func (a Action) String() string] *)
Definition Action_String (a : ActionT) : string := a.

(** [type Events []*Event]: the events of one package, in their order. *)
Definition Events (time_Time : Type) : Type := list (Event time_Time).

(** ** Words for the further properties *)

(** [s[0]], when [s] is not empty. *)
Definition first_byte (s : string) : option ascii :=
  match s with
  | String c _ => Some c
  | EmptyString => None
  end.

(** A space or a tab, the two bytes at which [ProcessNestedTest] cuts. *)
Definition blank (c : ascii) : bool := (c =? " ")%char || (c =? "009")%char.

Fixpoint no_blank (s : string) : bool :=
  match s with
  | EmptyString => true
  | String c s' => negb (blank c) && no_blank s'
  end.

(** The members of an object that the decoder looks at: those whose key
    names a field and whose value is not [null]. *)
Definition isNull (v : json.Value) : bool :=
  match v with
  | json.Null => true
  | _ => false
  end.

Definition relevant (ms : list (string * json.Value))
  : list (string * json.Value) :=
  filter (fun kv => match findField (fst kv) with
                    | Some _ => negb (isNull (snd kv))
                    | None => false
                    end) ms.

(** No two of the members name the same field. *)
Definition fields_once (ms : list (string * json.Value)) : Prop :=
  NoDup (map (fun kv => findField (fst kv)) ms).

(** A text between double quotes, to write JSON lines with. *)
Definition quoted (s : string) : string := DQUOTE ++ s ++ DQUOTE.

(** ** Words for the decoder

    What a JSON line says, written without the decoder: which field a key
    spells, which string a string literal denotes, what the members of an
    object give to a field. *)

(** *** Keys *)

Definition is_upper (c : ascii) : bool :=
  (65 <=? N_of_ascii c)%N && (N_of_ascii c <=? 90)%N.

(** The bytes [c] and [d] are equal, or are one letter of ASCII in its two
    cases. *)
Definition same_letter (c d : ascii) : bool :=
  (c =? d)%char
  || (is_upper c && (N_of_ascii d =? N_of_ascii c + 32)%N)
  || (is_upper d && (N_of_ascii c =? N_of_ascii d + 32)%N).

(** [key] spells the word [name] when the case of letters is ignored.  Two
    letters outside ASCII count as letters of ASCII: the long s (U+017F,
    the bytes 197 191) as s, and the Kelvin sign (U+212A, the bytes
    226 132 170) as k. *)
Fixpoint spells (key name : string) {struct name} : bool :=
  match name, key with
  | EmptyString, EmptyString => true
  | String d name', String c key1 =>
      (same_letter c d && spells key1 name')
      || match key1 with
         | String c1 key2 =>
             ((c =? "197")%char && (c1 =? "191")%char
              && same_letter d "s" && spells key2 name')
             || match key2 with
                | String c2 key3 =>
                    (c =? "226")%char && (c1 =? "132")%char
                    && (c2 =? "170")%char
                    && same_letter d "k" && spells key3 name'
                | EmptyString => false
                end
         | EmptyString => false
         end
  | _, _ => false
  end.

(** The key names the field. *)
Definition names (key : string) (f : Field) : bool :=
  spells key (fieldName f).

(** Two keys that differ in the case of their ASCII letters only. *)
Fixpoint same_key (k k' : string) : bool :=
  match k, k' with
  | EmptyString, EmptyString => true
  | String c k1, String d k1' => same_letter c d && same_key k1 k1'
  | _, _ => false
  end.

(** *** String literals *)

(** The escapes of two bytes: the byte after the backslash, and the byte
    that the escape stands for. *)
Definition escapes : list (ascii * ascii) :=
  [("b", "008"); ("f", "012"); ("n", "010"); ("r", "013"); ("t", "009");
   ("034", "034"); ("\", "\"); ("/", "/")]%char.

Definition escape_char (e : ascii) : option ascii :=
  option_map snd (find (fun p => (fst p =? e)%char) escapes).

(** The place of [c] in [s]. *)
Fixpoint position (c : ascii) (s : string) : option N :=
  match s with
  | EmptyString => None
  | String d s' =>
      if (d =? c)%char then Some 0%N else option_map N.succ (position c s')
  end.

Definition hex_digit (c : ascii) : option N :=
  match position c "0123456789abcdef" with
  | Some n => Some n
  | None => position c "0123456789ABCDEF"
  end.

(** The number that four hexadecimal digits write. *)
Definition hex4 (h1 h2 h3 h4 : ascii) : option N :=
  match hex_digit h1, hex_digit h2, hex_digit h3, hex_digit h4 with
  | Some a, Some b, Some c, Some d =>
      Some (((a * 16 + b) * 16 + c) * 16 + d)%N
  | _, _, _, _ => None
  end.

(** A Unicode scalar value: a code point that is not a surrogate. *)
Definition scalar (r : N) : bool :=
  (r <=? 1114111)%N && negb ((55296 <=? r)%N && (r <=? 57343)%N).

(** UTF-8 (RFC 3629): the bits of the scalar value, six by six from the
    right, under the marks [10] of the bytes that follow and [110], [1110]
    or [11110] of the first byte. *)
Definition utf8 (r : N) : string :=
  let follow (k : N) := json.chr (N.lor 128 (N.land (N.shiftr r k) 63)) in
  if (r <? 128)%N then json.chr r
  else if (r <? 2048)%N then
    json.chr (N.lor 192 (N.shiftr r 6)) ++ follow 0%N
  else if (r <? 65536)%N then
    json.chr (N.lor 224 (N.shiftr r 12)) ++ follow 6%N ++ follow 0%N
  else
    json.chr (N.lor 240 (N.shiftr r 18)) ++ follow 12%N ++ follow 6%N
    ++ follow 0%N.

(** The bytes [raw] between the quotes of a well-formed string literal
    denote the string [s]: a printable byte of ASCII other than the quote
    and the backslash denotes itself; an escape of two bytes denotes its
    byte; [\uXXXX] denotes the UTF-8 text of the scalar value that the
    four digits write; two such escapes that hold a high and a low
    surrogate denote the UTF-8 text of the scalar value of the pair; the
    UTF-8 text of a scalar value outside ASCII denotes itself.  A
    surrogate without its partner and bytes that are not UTF-8 denote
    nothing. *)
Inductive denotes : string -> string -> Prop :=
| denotes_end : denotes "" ""
| denotes_byte (c : ascii) (raw s : string) :
    (32 <=? N_of_ascii c)%N && (N_of_ascii c <? 128)%N = true ->
    c <> "034"%char -> c <> "\"%char ->
    denotes raw s -> denotes (String c raw) (String c s)
| denotes_escape (e c : ascii) (raw s : string) :
    escape_char e = Some c ->
    denotes raw s -> denotes (String "\" (String e raw)) (String c s)
| denotes_unicode (h1 h2 h3 h4 : ascii) (u : N) (raw s : string) :
    hex4 h1 h2 h3 h4 = Some u -> scalar u = true ->
    denotes raw s ->
    denotes (String "\" (String "u" (String h1 (String h2 (String h3
               (String h4 raw))))))
            (utf8 u ++ s)
| denotes_pair (h1 h2 h3 h4 l1 l2 l3 l4 : ascii) (hi lo : N) (raw s : string) :
    hex4 h1 h2 h3 h4 = Some hi -> hex4 l1 l2 l3 l4 = Some lo ->
    (55296 <=? hi)%N && (hi <=? 56319)%N = true ->
    (56320 <=? lo)%N && (lo <=? 57343)%N = true ->
    denotes raw s ->
    denotes (String "\" (String "u" (String h1 (String h2 (String h3
               (String h4
            (String "\" (String "u" (String l1 (String l2 (String l3
               (String l4 raw))))))))))))
            (utf8 (65536 + (hi - 55296) * 1024 + (lo - 56320))%N ++ s)
| denotes_utf8 (r : N) (raw s : string) :
    (128 <=? r)%N && scalar r = true ->
    denotes raw s -> denotes (utf8 r ++ raw) (utf8 r ++ s).

(** *** Members *)

(** No member of the object has a key that names field [f]. *)
Definition unnamed (f : Field) (ms : list (string * json.Value)) : bool :=
  forallb (fun kv => negb (names (fst kv) f)) ms.

(** The value of the last member whose key names field [f]. *)
Definition last_named (f : Field) (ms : list (string * json.Value))
  : option json.Value :=
  option_map snd (find (fun kv => names (fst kv) f) (rev ms)).

(** The schema of the line: the value of every member whose key names a
    field has the type of that field. *)
Definition schema_ok {time_Time : Type} (tparse : string -> option time_Time)
  (ms : list (string * json.Value)) : bool :=
  forallb (fun kv =>
             forallb (fun f => implb (names (fst kv) f)
                                     (field_ok tparse f (snd kv))) fields)
          ms.

(** What a member value [v] requires of the value [fv] of its field: a
    string literal, of the string that it denotes; the string of a time,
    of the time that package [time] reads between its quotes; a number,
    of the [float64] that [strconv.ParseFloat] reads in its literal, the
    nearest one. *)
Definition holds {time_Time : Type} (tparse : string -> option time_Time)
  (v : json.Value) (fv : FieldValue time_Time) : Prop :=
  match v, fv with
  | json.Str raw _, VString s' => forall s, denotes raw s -> s' = s
  | json.Str raw _, VTime t => tparse raw = Some t
  | json.Number lit, VFloat x => strconv.ParseFloat lit = (x, None)
  | _, _ => False
  end.

(** Two lists of members with the same values, whose keys differ in the
    case of their letters only. *)
Definition same_members (ms ms' : list (string * json.Value)) : Prop :=
  Forall2 (fun kv kv' => same_key (fst kv) (fst kv') = true /\ snd kv = snd kv')
          ms ms'.

(** *** For the proofs *)

(** The letter [c] in upper case; another byte is kept. *)
Definition to_upper (c : ascii) : ascii :=
  if (97 <=? N_of_ascii c)%N && (N_of_ascii c <=? 122)%N
  then ascii_of_N (N_of_ascii c - 32) else c.

Fixpoint all_letters (s : string) : bool :=
  match s with
  | EmptyString => true
  | String c s' =>
      (is_upper c || is_upper (to_upper c)) && all_letters s'
  end.

(** The 256 bytes. *)
Definition all_bytes : list ascii := map ascii_of_nat (seq 0 (Z.to_nat 256)).
(** ** Facts about strings and slices *)

Lemma append_assoc (a b c : string) : (a ++ b) ++ c = a ++ b ++ c.
Proof. induction a as [|x a IH]; simpl; [reflexivity | now rewrite IH]. Qed.

Lemma length_append (a b : string) :
  length (a ++ b) = length a + length b.
Proof. induction a as [|x a IH]; simpl; [reflexivity | now rewrite IH]. Qed.

Lemma slice_to_app (p r : string) : slice_to (p ++ r) (length p) = p.
Proof.
  unfold slice_to. induction p as [|c p IH]; simpl.
  - destruct r; reflexivity.
  - now rewrite IH.
Qed.

Lemma substring_0_length (s : string) : substring 0 (length s) s = s.
Proof. induction s as [|c s IH]; simpl; [reflexivity | now rewrite IH]. Qed.

Lemma substring_skip (p r : string) (m : nat) :
  substring (length p) m (p ++ r) = substring 0 m r.
Proof. induction p as [|c p IH]; simpl; [reflexivity | exact IH]. Qed.

Lemma slice_from_app (p r : string) : slice_from (p ++ r) (length p) = r.
Proof.
  unfold slice_from. rewrite substring_skip, length_append.
  replace (length p + length r - length p) with (length r) by lia.
  apply substring_0_length.
Qed.

Lemma slice_split (s : string) (n : nat) :
  n <= length s -> slice_to s n ++ slice_from s n = s.
Proof.
  unfold slice_to, slice_from. revert n.
  induction s as [|c s IH]; intros n Hn; simpl in Hn.
  - assert (n = 0) by lia. subst. reflexivity.
  - destruct n as [|n]; simpl.
    + now rewrite substring_0_length.
    + rewrite IH by lia. reflexivity.
Qed.

Lemma length_slice_to (s : string) (n : nat) :
  n <= length s -> length (slice_to s n) = n.
Proof.
  unfold slice_to. revert n.
  induction s as [|c s IH]; intros n Hn; simpl in Hn.
  - assert (n = 0) by lia. subst. reflexivity.
  - destruct n as [|n]; simpl; [reflexivity|]. rewrite IH by lia. reflexivity.
Qed.

(** *** [HasPrefix], [HasSuffix], [Index], [Contains] against the spec's words *)

Lemma HasPrefix_spec (s p : string) :
  strings.HasPrefix s p = true <-> starts_with s p.
Proof.
  unfold strings.HasPrefix, starts_with. rewrite andb_true_iff, Nat.leb_le, String.eqb_eq.
  split.
  - intros [Hlen Heq]. exists (slice_from s (length p)).
    rewrite <- Heq at 1. symmetry. now apply slice_split.
  - intros [r ->]. rewrite length_append, slice_to_app. split; [lia | reflexivity].
Qed.

Lemma HasSuffix_spec (s p : string) :
  strings.HasSuffix s p = true <-> ends_with s p.
Proof.
  unfold strings.HasSuffix, ends_with. rewrite andb_true_iff, Nat.leb_le, String.eqb_eq.
  split.
  - intros [Hlen Heq]. exists (slice_to s (length s - length p)).
    rewrite <- Heq at 2. symmetry. apply slice_split. lia.
  - intros [r ->]. rewrite length_append.
    replace (length r + length p - length p) with (length r) by lia.
    rewrite slice_from_app. split; [lia | reflexivity].
Qed.

Lemma HasPrefix_cons_byte (c a : ascii) (s : string) :
  strings.HasPrefix (String c s) (String a "") = (c =? a)%char.
Proof.
  unfold strings.HasPrefix, slice_to. simpl.
  destruct s; simpl; destruct (c =? a)%char; reflexivity.
Qed.

Lemma HasPrefix_nil_byte (a : ascii) :
  strings.HasPrefix "" (String a "") = false.
Proof. reflexivity. Qed.

Lemma Index_unfold (s sub : string) :
  strings.Index s sub =
  if strings.HasPrefix s sub then 0%Z
  else match s with
       | EmptyString => (-1)%Z
       | String _ s' =>
           let i := strings.Index s' sub in
           if (i <? 0)%Z then (-1)%Z else (i + 1)%Z
       end.
Proof. destruct s; reflexivity. Qed.

Lemma Index_range (s sub : string) :
  strings.Index s sub = (-1)%Z \/
  (0 <= strings.Index s sub /\
   strings.Index s sub + Z.of_nat (length sub) <= Z.of_nat (length s))%Z.
Proof.
  induction s as [|c s IH]; rewrite Index_unfold.
  - destruct (strings.HasPrefix "" sub) eqn:E; [|now left].
    right. apply HasPrefix_spec in E. destruct E as [r E].
    apply (f_equal length) in E. rewrite length_append in E. simpl in *. lia.
  - destruct (strings.HasPrefix (String c s) sub) eqn:E.
    + right. apply HasPrefix_spec in E. destruct E as [r E].
      apply (f_equal length) in E. rewrite length_append in E. simpl in *. lia.
    + cbv zeta. destruct (Z.ltb_spec (strings.Index s sub) 0); [now left|].
      right. simpl length. destruct IH; lia.
Qed.

Lemma Index_found (s sub : string) :
  (0 <= strings.Index s sub)%Z <-> contains s sub.
Proof.
  unfold contains. split.
  - induction s as [|c s IH]; rewrite Index_unfold.
    + destruct (strings.HasPrefix "" sub) eqn:E; [|lia].
      intros _. apply HasPrefix_spec in E. destruct E as [r E]. now exists "", r.
    + destruct (strings.HasPrefix (String c s) sub) eqn:E.
      * intros _. apply HasPrefix_spec in E. destruct E as [r E]. now exists "", r.
      * cbv zeta. destruct (Z.ltb_spec (strings.Index s sub) 0); [lia|].
        intros _. destruct (IH H) as (a & b & ->). now exists (String c a), b.
  - intros (a & b & ->). induction a as [|c a IH]; rewrite Index_unfold.
    + simpl. assert (E : strings.HasPrefix (sub ++ b) sub = true)
        by (apply HasPrefix_spec; now exists b).
      rewrite E. lia.
    + simpl. destruct (strings.HasPrefix _ sub); [lia|].
      destruct (Z.ltb_spec (strings.Index (a ++ sub ++ b) sub) 0); lia.
Qed.

Lemma Contains_spec (s sub : string) :
  strings.Contains s sub = true <-> contains s sub.
Proof.
  unfold strings.Contains. rewrite Z.leb_le. apply Index_found.
Qed.

Lemma Contains_false (s sub : string) :
  strings.Contains s sub = false <-> ~ contains s sub.
Proof.
  rewrite <- Contains_spec. destruct (strings.Contains s sub); split; congruence.
Qed.

(** *** [Replace] and [Split] on single bytes *)

Lemma Index_byte_absent (a : ascii) (s : string) :
  (strings.Index s (String a "") < 0)%Z -> strings.in_cutset a s = false.
Proof.
  induction s as [|c s IH]; rewrite Index_unfold; [reflexivity|].
  rewrite HasPrefix_cons_byte. simpl.
  destruct (Ascii.eqb_spec c a) as [->|Hne]; [lia|].
  destruct (Z.ltb_spec (strings.Index s (String a "")) 0); [|lia].
  intros _. rewrite IH by assumption.
  destruct (Ascii.eqb_spec a c); [congruence | reflexivity].
Qed.

Lemma Index_byte_split (a : ascii) (s : string) :
  (0 <= strings.Index s (String a ""))%Z ->
  exists pre rest,
    s = pre ++ String a rest /\ strings.in_cutset a pre = false /\
    strings.Index s (String a "") = Z.of_nat (length pre).
Proof.
  induction s as [|c s IH]; rewrite Index_unfold.
  - rewrite HasPrefix_nil_byte. lia.
  - rewrite HasPrefix_cons_byte.
    destruct (Ascii.eqb_spec c a) as [->|Hne].
    + intros _. now exists "", s.
    + cbv zeta. destruct (Z.ltb_spec (strings.Index s (String a "")) 0); [lia|].
      intros _. destruct (IH H) as (pre & rest & -> & Hpre & Hidx).
      exists (String c pre), rest. simpl. repeat split.
      * rewrite Hpre. destruct (Ascii.eqb_spec a c); [congruence | reflexivity].
      * rewrite Hidx. lia.
Qed.

Lemma slices_at_byte (pre rest : string) (a : ascii) :
  slice_to (pre ++ String a rest) (length pre) = pre /\
  slice_from (pre ++ String a rest) (length pre + 1) = rest.
Proof.
  split; [apply slice_to_app|].
  change (String a rest) with (String a "" ++ rest).
  rewrite <- append_assoc.
  replace (length pre + 1) with (length (pre ++ String a "")).
  - apply slice_from_app.
  - rewrite length_append. reflexivity.
Qed.

Lemma replace_byte_absent (a b : ascii) (s : string) :
  strings.in_cutset a s = false -> replace_byte a b s = s.
Proof.
  induction s as [|c s IH]; simpl; [reflexivity|].
  rewrite orb_false_iff. intros [Hc Hs]. rewrite IH by assumption.
  rewrite Ascii.eqb_sym, Hc. reflexivity.
Qed.

Lemma replace_byte_app (a b : ascii) (s t : string) :
  replace_byte a b (s ++ t) = replace_byte a b s ++ replace_byte a b t.
Proof. induction s as [|c s IH]; simpl; [reflexivity | now rewrite IH]. Qed.

Lemma replace_loop_byte (a b : ascii) (n : Z) (fuel : nat) (s : string) :
  (n < 0)%Z -> length s < fuel ->
  strings.replace_loop fuel s (String a "") (String b "") n = replace_byte a b s.
Proof.
  intros Hn. revert s. induction fuel as [|fuel IH]; intros s Hlen; [lia|].
  simpl. destruct (Z.eqb_spec n 0); [lia|].
  destruct (Z.ltb_spec (strings.Index s (String a "")) 0) as [Hneg|Hpos].
  - symmetry. apply replace_byte_absent. now apply Index_byte_absent.
  - destruct (Index_byte_split a s Hpos) as (pre & rest & -> & Hpre & Hidx).
    rewrite Hidx, Nat2Z.id.
    destruct (slices_at_byte pre rest a) as [-> ->].
    destruct (Z.ltb_spec n 0); [|lia].
    rewrite IH.
    + rewrite replace_byte_app, (replace_byte_absent a b pre Hpre). simpl.
      rewrite Ascii.eqb_refl. reflexivity.
    + rewrite length_append in Hlen. simpl in Hlen. lia.
Qed.

Lemma Replace_byte (a b : ascii) (s : string) :
  a <> b ->
  strings.Replace s (String a "") (String b "") (-1) = replace_byte a b s.
Proof.
  intros Hab. unfold strings.Replace.
  assert (E : (String a "" =? String b "") = false)
    by (apply String.eqb_neq; congruence).
  rewrite E. change ((-1 =? 0)%Z) with false. cbv [orb].
  apply replace_loop_byte; lia.
Qed.

Lemma split_on_absent (c : ascii) (s : string) :
  strings.in_cutset c s = false -> split_on c s = [s].
Proof.
  induction s as [|d s IH]; simpl; [reflexivity|].
  rewrite orb_false_iff. intros [Hd Hs]. rewrite IH by assumption.
  rewrite Ascii.eqb_sym, Hd. reflexivity.
Qed.

Lemma split_on_at_byte (c : ascii) (pre rest : string) :
  strings.in_cutset c pre = false ->
  split_on c (pre ++ String c rest) = pre :: split_on c rest.
Proof.
  induction pre as [|d pre IH]; simpl.
  - intros _. now rewrite Ascii.eqb_refl.
  - rewrite orb_false_iff. intros [Hd Hs]. rewrite IH by assumption.
    rewrite Ascii.eqb_sym, Hd. reflexivity.
Qed.

Lemma split_loop_byte (c : ascii) (fuel : nat) (s : string) :
  length s <= fuel ->
  strings.split_loop fuel s (String c "") = split_on c s.
Proof.
  revert s. induction fuel as [|fuel IH]; intros s Hlen.
  - destruct s; simpl in *; [reflexivity | lia].
  - simpl. destruct (Z.ltb_spec (strings.Index s (String c "")) 0) as [Hneg|Hpos].
    + symmetry. apply split_on_absent. now apply Index_byte_absent.
    + destruct (Index_byte_split c s Hpos) as (pre & rest & -> & Hpre & Hidx).
      rewrite Hidx, Nat2Z.id.
      destruct (slices_at_byte pre rest c) as [-> ->].
      rewrite IH.
      * symmetry. now apply split_on_at_byte.
      * rewrite length_append in Hlen. simpl in Hlen. lia.
Qed.

Lemma Split_byte (c : ascii) (s : string) :
  strings.Split s (String c "") = split_on c s.
Proof. unfold strings.Split. now apply split_loop_byte. Qed.

(** The token list that [ProcessNestedTest] computes is the one the spec
    describes. *)
Lemma Split_Replace_tokens (output : string) :
  strings.Split (strings.Replace output TAB " " (-1)) " " = tokens output.
Proof.
  unfold tokens, tabs_to_spaces, TAB.
  rewrite Replace_byte by discriminate. apply Split_byte.
Qed.

(** [split_on] loses nothing: its pieces, joined by the separator, are the
    string, and no piece holds the separator. *)
Lemma split_on_nonempty (c : ascii) (s : string) : split_on c s <> [].
Proof.
  induction s as [|d s IH]; simpl; [discriminate|].
  destruct (d =? c)%char; [discriminate|].
  destruct (split_on c s); [congruence | discriminate].
Qed.

Lemma split_on_concat (c : ascii) (s : string) :
  String.concat (String c "") (split_on c s) = s.
Proof.
  induction s as [|d s IH]; simpl; [reflexivity|].
  destruct (Ascii.eqb_spec d c) as [->|Hne].
  - pose proof (split_on_nonempty c s).
    simpl. destruct (split_on c s) as [|t ts]; [congruence|].
    simpl. f_equal. exact IH.
  - pose proof (split_on_nonempty c s).
    destruct (split_on c s) as [|t ts]; [congruence|].
    simpl in *. destruct ts; simpl in *; now rewrite IH.
Qed.

Lemma split_on_pieces (c : ascii) (s : string) :
  Forall (fun t => strings.in_cutset c t = false) (split_on c s).
Proof.
  induction s as [|d s IH]; simpl.
  - constructor; [reflexivity | constructor].
  - destruct (Ascii.eqb_spec d c) as [->|Hne].
    + constructor; [reflexivity | exact IH].
    + pose proof (split_on_nonempty c s).
      destruct (split_on c s) as [|t ts]; [congruence|].
      inversion IH; subst. constructor; [|assumption].
      simpl. destruct (Ascii.eqb_spec c d); [congruence|]. assumption.
Qed.

(** ** The pattern of [Cover] *)

(** *** What [matches] finds *)

Lemma matches_Range (lo hi : ascii) (s rest : string) :
  In rest (regexp.matches (regexp.Range lo hi) s) <->
  exists c, regexp.in_range lo hi c = true /\ s = String c rest.
Proof.
  simpl. destruct s as [|c s].
  - split; [intros [] | intros (c & _ & H); discriminate H].
  - destruct (regexp.in_range lo hi c) eqn:E; simpl.
    + split.
      * intros [<-|[]]. now exists c.
      * intros (c' & _ & H). injection H as -> ->. now left.
    + split; [intros [] | intros (c' & Hc & H)].
      injection H as -> ->. congruence.
Qed.

Lemma matches_Lit (c : ascii) (s rest : string) :
  In rest (regexp.matches (regexp.Lit c) s) <-> s = String c rest.
Proof.
  simpl. destruct s as [|d s].
  - split; [intros [] | discriminate].
  - destruct (Ascii.eqb_spec c d) as [->|Hne]; simpl.
    + split; [intros [<-|[]]; reflexivity | intros H; injection H as ->; now left].
    + split; [intros [] | intros H; injection H as -> ->; congruence].
Qed.

Lemma matches_Cat (r1 r2 : regexp.Regexp) (s rest : string) :
  In rest (regexp.matches (regexp.Cat r1 r2) s) <->
  exists mid, In mid (regexp.matches r1 s) /\ In rest (regexp.matches r2 mid).
Proof. simpl. apply in_flat_map. Qed.

Lemma matches_Repeat_O (r : regexp.Regexp) (min : nat) (s : string) :
  regexp.matches (regexp.Repeat r min 0) s =
  if (min =? 0)%nat then [s] else [].
Proof. reflexivity. Qed.

Lemma matches_Repeat_S (r : regexp.Regexp) (min max : nat) (s : string) :
  regexp.matches (regexp.Repeat r min (S max)) s =
  (flat_map (regexp.matches (regexp.Repeat r (Nat.pred min) max))
            (regexp.matches r s)
   ++ (if (min =? 0)%nat then [s] else []))%list.
Proof. reflexivity. Qed.

Lemma matches_Repeat_Range (lo hi : ascii) (max min : nat) (s rest : string) :
  In rest (regexp.matches (regexp.Repeat (regexp.Range lo hi) min max) s) <->
  exists ds, s = ds ++ rest /\ all_in_range lo hi ds = true /\
             min <= length ds <= max.
Proof.
  revert min s. induction max as [|max IH]; intros min s.
  - rewrite matches_Repeat_O. destruct (Nat.eqb_spec min 0) as [->|Hne]; simpl.
    + split.
      * intros [<-|[]]. exists "". repeat split; auto.
      * intros (ds & -> & _ & Hl). destruct ds; simpl in *; [now left | lia].
    + split; [intros [] | intros (ds & _ & _ & Hl); lia].
  - rewrite matches_Repeat_S, in_app_iff, in_flat_map. split.
    + intros [(mid & Hmid & Hrest) | Hz].
      * apply matches_Range in Hmid. destruct Hmid as (c & Hc & ->).
        apply IH in Hrest. destruct Hrest as (ds & -> & Hds & Hl).
        exists (String c ds). simpl. rewrite Hc, Hds. repeat split; lia.
      * destruct (Nat.eqb_spec min 0) as [->|Hne]; [|destruct Hz].
        destruct Hz as [<-|[]]. exists "". simpl. repeat split; lia.
    + intros (ds & -> & Hds & Hl). destruct ds as [|c ds].
      * right. simpl in Hl. assert (min = 0) by lia. subst. now left.
      * left. simpl in Hds. apply andb_true_iff in Hds. destruct Hds as [Hc Hds].
        exists (ds ++ rest). split.
        -- apply matches_Range. now exists c.
        -- apply IH. exists ds. simpl in Hl. repeat split; auto; lia.
Qed.

Lemma all_in_range_digits (s : string) :
  all_in_range "0" "9" s = all_digits s.
Proof. induction s as [|c s IH]; simpl; [reflexivity | now rewrite IH]. Qed.

(** The matches of the pattern at the start of [s] are the texts of
    [cover_numeral]. *)
Lemma matches_coverRE (s rest : string) :
  In rest (regexp.matches coverRE s) <->
  exists m num, cover_numeral m num /\ s = m ++ rest.
Proof.
  unfold coverRE. rewrite matches_Cat. split.
  - intros (s1 & H1 & H). apply matches_Repeat_Range in H1.
    destruct H1 as (ds & -> & Hds & Hl).
    apply matches_Cat in H. destruct H as (s2 & H2 & H).
    apply matches_Lit in H2. subst s1.
    apply matches_Cat in H. destruct H as (s3 & H3 & H).
    apply matches_Repeat_Range in H3. destruct H3 as (d1 & -> & Hd1 & Hl1).
    apply matches_Lit in H. subst s3.
    destruct d1 as [|d [|? ?]]; simpl in Hl1; try lia.
    simpl in Hd1. rewrite andb_true_r in Hd1.
    exists (ds ++ "." ++ String d "%"), (ds ++ "." ++ String d "").
    split.
    + exists ds, d. rewrite all_in_range_digits in Hds.
      repeat split; auto; try lia.
      rewrite !append_assoc. reflexivity.
    + rewrite !append_assoc. reflexivity.
  - intros (m & num & (ds & d & -> & -> & Hl & Hds & Hd) & ->).
    exists ("." ++ String d "%" ++ rest). split.
    + apply matches_Repeat_Range. exists ds.
      rewrite all_in_range_digits. repeat split; auto; try lia.
      rewrite !append_assoc. reflexivity.
    + apply matches_Cat. exists (String d "%" ++ rest). split.
      * apply matches_Lit. reflexivity.
      * apply matches_Cat. exists ("%" ++ rest). split.
        -- apply matches_Repeat_Range. exists (String d "").
           simpl. rewrite andb_true_r. repeat split; auto.
        -- apply matches_Lit. reflexivity.
Qed.

(** *** The leftmost match *)

Lemma isDigit_not_point (c : ascii) :
  strconv.isDigit c = true -> (c =? ".")%char = false.
Proof.
  intros H. destruct (Ascii.eqb_spec c "."); [subst; discriminate H | reflexivity].
Qed.

Lemma cover_numeral_nonempty (m num : string) :
  cover_numeral m num -> exists c m', m = String c m'.
Proof.
  intros (ds & d & -> & -> & Hl & _). destruct ds as [|c ds]; simpl in *; [lia|].
  eauto.
Qed.

Lemma digits_point_unique (ds ds' x y : string) :
  all_digits ds = true -> all_digits ds' = true ->
  ds ++ String "." x = ds' ++ String "." y -> ds = ds' /\ x = y.
Proof.
  revert ds'. induction ds as [|c ds IH]; intros [|c' ds']; simpl;
    intros H H' E.
  - injection E as ->. auto.
  - injection E as <- _. discriminate H'.
  - injection E as -> _. discriminate H.
  - injection E as -> E.
    apply andb_true_iff in H, H'. destruct H as [_ H], H' as [_ H'].
    destruct (IH ds' H H' E) as [-> ->]. auto.
Qed.

Lemma cover_numeral_prefix_unique (m num m' num' post post' : string) :
  cover_numeral m num -> cover_numeral m' num' ->
  m ++ post = m' ++ post' -> m = m' /\ num = num'.
Proof.
  intros (ds & d & -> & -> & _ & Hds & _) (ds' & d' & -> & -> & _ & Hds' & _) E.
  rewrite !append_assoc in E. simpl in E.
  destruct (digits_point_unique _ _ _ _ Hds Hds' E) as [-> E'].
  injection E' as -> _. auto.
Qed.

Lemma append_eq_length (a b a' b' : string) :
  a ++ b = a' ++ b' -> length a = length a' -> a = a' /\ b = b'.
Proof.
  revert a'. induction a as [|c a IH]; intros [|c' a']; simpl; intros E L;
    try discriminate L; auto.
  injection E as -> E. injection L as L.
  destruct (IH a' E L) as [-> ->]. auto.
Qed.

Lemma first_match_unique (s m num m' num' : string) :
  first_match s m num -> first_match s m' num' -> m = m' /\ num = num'.
Proof.
  intros (pre & post & Hs & Hm & Hmin) (pre' & post' & Hs' & Hm' & Hmin').
  pose proof (Hmin _ _ _ _ Hs' Hm'). pose proof (Hmin' _ _ _ _ Hs Hm).
  rewrite Hs in Hs'.
  destruct (append_eq_length _ _ _ _ Hs') as [_ E]; [lia|].
  eapply cover_numeral_prefix_unique; eauto.
Qed.

(** [find] returns the first match when there is one, and nothing when
    the pattern matches nowhere in [s]. *)
Lemma find_coverRE (s : string) :
  match regexp.find coverRE s with
  | Some m => exists num, first_match s m num
  | None =>
      forall pre m num post, s = pre ++ m ++ post -> ~ cover_numeral m num
  end.
Proof.
  induction s as [|c s IH].
  - cbn [regexp.find].
    destruct (regexp.matches coverRE "") as [|rest l] eqn:E.
    + intros pre m num post Hs Hm.
      destruct (cover_numeral_nonempty _ _ Hm) as (c & m' & ->).
      destruct pre; discriminate Hs.
    + assert (Hin : In rest (regexp.matches coverRE "")) by (rewrite E; now left).
      apply matches_coverRE in Hin. destruct Hin as (m & num & Hm & Hs).
      destruct (cover_numeral_nonempty _ _ Hm) as (c & m' & ->).
      discriminate Hs.
  - cbn [regexp.find].
    destruct (regexp.matches coverRE (String c s)) as [|rest l] eqn:E.
    + assert (Hno : forall m num post,
                String c s = m ++ post -> ~ cover_numeral m num).
      { intros m num post Hs Hm.
        assert (Hin : In post (regexp.matches coverRE (String c s)))
          by (apply matches_coverRE; eauto).
        rewrite E in Hin. destruct Hin. }
      destruct (regexp.find coverRE s) as [m|].
      * destruct IH as (num & pre & post & -> & Hm & Hmin).
        exists num, (String c pre), post. repeat split; auto.
        intros pre' m' num' post' Hs' Hm'. destruct pre' as [|c' pre'].
        -- destruct (Hno m' num' post' Hs' Hm').
        -- simpl in Hs'. injection Hs' as _ Hs'. simpl.
           pose proof (Hmin _ _ _ _ Hs' Hm'). lia.
      * intros pre m num post Hs Hm. destruct pre as [|c' pre].
        -- destruct (Hno m num post Hs Hm).
        -- simpl in Hs. injection Hs as _ Hs. exact (IH _ _ _ _ Hs Hm).
    + assert (Hin : In rest (regexp.matches coverRE (String c s)))
        by (rewrite E; now left).
      apply matches_coverRE in Hin. destruct Hin as (m & num & Hm & Hs).
      rewrite Hs, length_append.
      replace (length m + length rest - length rest) with (length m) by lia.
      rewrite slice_to_app. exists num, "", rest. repeat split; auto.
      intros; simpl; lia.
Qed.

(** *** The number of a match *)

Lemma TrimRight_keep (s cutset : string) (c : ascii) :
  strings.in_cutset c cutset = false ->
  strings.TrimRight (s ++ String c "") cutset = s ++ String c "".
Proof.
  intros Hc. induction s as [|x s IH]; cbn [append strings.TrimRight].
  - rewrite Hc, andb_false_r. reflexivity.
  - rewrite IH. destruct s; reflexivity.
Qed.

Lemma TrimRight_strip (s cutset : string) (c : ascii) :
  strings.in_cutset c cutset = true ->
  strings.TrimRight (s ++ String c "") cutset = strings.TrimRight s cutset.
Proof.
  intros Hc. induction s as [|x s IH]; cbn [append strings.TrimRight].
  - rewrite Hc. reflexivity.
  - rewrite IH. reflexivity.
Qed.

Lemma TrimRight_numeral (m num : string) :
  cover_numeral m num -> strings.TrimRight m "%" = num.
Proof.
  intros (ds & d & -> & -> & _ & _ & Hd).
  rewrite TrimRight_strip by reflexivity.
  change (ds ++ "." ++ String d "") with (ds ++ "." ++ "" ++ String d "").
  rewrite <- !append_assoc. apply TrimRight_keep.
  simpl. destruct (Ascii.eqb_spec d "%"); [subst; discriminate Hd | reflexivity].
Qed.

Lemma digits_value_app (acc : Z) (a b : string) :
  digits_value acc (a ++ b) = digits_value (digits_value acc a) b.
Proof. revert acc. induction a as [|c a IH]; intros acc; simpl; auto. Qed.

Lemma digitVal_range (c : ascii) :
  strconv.isDigit c = true -> (0 <= strconv.digitVal c <= 9)%Z.
Proof.
  unfold strconv.isDigit, regexp.in_range, strconv.digitVal.
  rewrite andb_true_iff, !N.leb_le. simpl. lia.
Qed.

Lemma digits_value_range (s : string) (acc : Z) :
  all_digits s = true -> (0 <= acc)%Z ->
  (0 <= digits_value acc s < (acc + 1) * 10 ^ Z.of_nat (length s))%Z.
Proof.
  revert acc. induction s as [|c s IH]; intros acc Hs Hacc.
  - simpl. lia.
  - simpl in Hs. apply andb_true_iff in Hs. destruct Hs as [Hc Hs].
    pose proof (digitVal_range c Hc).
    cbn [digits_value length].
    assert (H0 : (0 <= acc * 10 + strconv.digitVal c)%Z) by lia.
    specialize (IH _ Hs H0).
    rewrite Nat2Z.inj_succ, Z.pow_succ_r by lia. nia.
Qed.

Lemma readMantissa_digits (ds rest : string) (sawdot sd : bool) (mant frac : Z) :
  all_digits ds = true ->
  strconv.readMantissa (ds ++ rest) sawdot sd mant frac =
  strconv.readMantissa rest sawdot (sd || negb (ds =? ""))
    (digits_value mant ds)
    (if sawdot then (frac + Z.of_nat (length ds))%Z else frac).
Proof.
  revert sd mant frac. induction ds as [|c ds IH]; intros sd mant frac Hds.
  - simpl. rewrite orb_false_r. destruct sawdot; f_equal; lia.
  - simpl in Hds. apply andb_true_iff in Hds. destruct Hds as [Hc Hds].
    cbn [append strconv.readMantissa].
    rewrite (isDigit_not_point c Hc), Hc, IH by assumption.
    cbn [digits_value length]. rewrite orb_true_r.
    destruct sd; simpl; destruct sawdot; f_equal; lia.
Qed.

(** *** The first match on a coverage line *)

Lemma in_cutset_app (c : ascii) (a b : string) :
  strings.in_cutset c (a ++ b) = strings.in_cutset c a || strings.in_cutset c b.
Proof.
  induction a as [|x a IH]; simpl; [reflexivity|].
  now rewrite IH, orb_assoc.
Qed.

Lemma all_digits_no_percent (ds : string) :
  all_digits ds = true -> strings.in_cutset "%" ds = false.
Proof.
  induction ds as [|c ds IH]; [reflexivity|].
  cbn [all_digits strings.in_cutset].
  rewrite andb_true_iff. intros [Hc Hds]. rewrite (IH Hds), orb_false_r.
  apply Ascii.eqb_neq. intros <-. discriminate Hc.
Qed.

(** A byte that is not in [w] occurs in [w ++ z] at the length of [w] at
    the earliest. *)
Lemma first_byte_position (c : ascii) (w z u v : string) :
  w ++ z = u ++ String c v -> strings.in_cutset c w = false ->
  length w <= length u.
Proof.
  revert u. induction w as [|x w IH]; intros u E Hw; simpl; [lia|].
  simpl in Hw. apply orb_false_iff in Hw. destruct Hw as [Hx Hw].
  destruct u as [|y u]; simpl in E; injection E as -> E.
  - now rewrite Ascii.eqb_refl in Hx.
  - specialize (IH u E Hw). simpl. lia.
Qed.

Lemma cover_numeral_starts_with_digit (m num post : string) (c : ascii)
  (rest : string) :
  cover_numeral m num -> m ++ post = String c rest -> strconv.isDigit c = true.
Proof.
  intros (ds & d & -> & -> & Hl & Hds & _) E.
  destruct ds as [|x ds]; simpl in Hl; [lia|].
  simpl in E. injection E as -> _. simpl in Hds.
  now apply andb_true_iff in Hds.
Qed.

Lemma first_match_coverage_line (pre ds : string) (d : ascii) (post : string) :
  strings.in_cutset "%" pre = false ->
  1 <= length ds <= 3 -> all_digits ds = true -> strconv.isDigit d = true ->
  first_match (pre ++ "coverage: " ++ ds ++ "." ++ String d "%" ++ post)
              (ds ++ "." ++ String d "%") (ds ++ "." ++ String d "").
Proof.
  intros Hpre Hl Hds Hd. exists (pre ++ "coverage: "), post. split; [|split].
  - rewrite ?append_assoc. simpl. rewrite ?append_assoc. reflexivity.
  - exists ds, d. repeat split; auto; try lia.
    rewrite !append_assoc. reflexivity.
  - intros pre' m' num' post' Hs Hm'.
    rewrite length_append. cbn [length].
    pose proof Hm' as (ds' & d' & -> & -> & Hl' & Hds' & Hd').
    (* the percent sign of the match is not before the one of the line *)
    assert (Hpos : length (pre ++ "coverage: " ++ ds ++ "." ++ String d "")
                   <= length (pre' ++ ds' ++ "." ++ String d' "")).
    { apply (first_byte_position "%" _ ("%" ++ post) _ post').
      - transitivity (pre ++ "coverage: " ++ ds ++ "." ++ String d "%" ++ post).
        + rewrite ?append_assoc. simpl. rewrite ?append_assoc. reflexivity.
        + rewrite Hs, ?append_assoc. simpl. rewrite ?append_assoc. reflexivity.
      - rewrite !in_cutset_app, Hpre, (all_digits_no_percent ds Hds).
        cbn [strings.in_cutset orb].
        replace ("%" =? d)%char with false; [reflexivity|].
        symmetry. apply Ascii.eqb_neq. intros <-. discriminate Hd. }
    rewrite !length_append in Hpos. cbn [length] in Hpos.
    destruct (Nat.le_gt_cases (length pre + 10) (length pre')) as [|Hlt];
      [assumption|exfalso].
    (* otherwise the match starts at the colon or at the space *)
    assert (Hcase : length pre' = length (pre ++ "coverage")
                    \/ length pre' = length (pre ++ "coverage:"))
      by (rewrite !length_append; cbn [length]; lia).
    destruct Hcase as [Hc|Hc].
    + assert (E : pre' ++ ((ds' ++ "." ++ String d' "") ++ "%") ++ post'
                  = (pre ++ "coverage")
                    ++ ": " ++ ds ++ "." ++ String d "%" ++ post)
        by (rewrite <- Hs, ?append_assoc; simpl; now rewrite ?append_assoc).
      destruct (append_eq_length _ _ _ _ E Hc) as [_ E'].
      pose proof (cover_numeral_starts_with_digit _ _ _ _ _ Hm' E') as Hdig.
      discriminate Hdig.
    + assert (E : pre' ++ ((ds' ++ "." ++ String d' "") ++ "%") ++ post'
                  = (pre ++ "coverage:")
                    ++ " " ++ ds ++ "." ++ String d "%" ++ post)
        by (rewrite <- Hs, ?append_assoc; simpl; now rewrite ?append_assoc).
      destruct (append_eq_length _ _ _ _ E Hc) as [_ E'].
      pose proof (cover_numeral_starts_with_digit _ _ _ _ _ Hm' E') as Hdig.
      discriminate Hdig.
Qed.

Lemma roundDecimal_tenths_finite (n : Z) :
  (0 <= n < 10000)%Z ->
  forall sg, strconv.roundDecimal false n (-1) <> S754_infinity sg.
Proof.
  intros Hn sg.
  assert (Hall : forallb (fun k =>
                   match strconv.roundDecimal false (Z.of_nat k) (-1) with
                   | S754_infinity _ => false
                   | _ => true
                   end) (seq 0 (Z.to_nat 10000)) = true) by (vm_compute; reflexivity).
  rewrite forallb_forall in Hall.
  assert (Hin : In (Z.to_nat n) (seq 0 (Z.to_nat 10000))) by (apply in_seq; lia).
  specialize (Hall _ Hin). rewrite Z2Nat.id in Hall by lia.
  intros E. rewrite E in Hall. discriminate Hall.
Qed.

(** A text of the pattern, without its percent sign, always parses: as
    the binary64 number nearest to its decimal value. *)
Lemma ParseFloat_numeral (ds : string) (d : ascii) :
  1 <= length ds <= 3 -> all_digits ds = true -> strconv.isDigit d = true ->
  strconv.ParseFloat (ds ++ "." ++ String d "") =
  (SF2Prim (strconv.roundDecimal false
              (digits_value 0 (ds ++ String d "")) (-1)), None).
Proof.
  intros Hl Hds Hd.
  assert (Hrange : (0 <= digits_value 0 (ds ++ String d "") < 10000)%Z).
  { assert (Ha : all_digits (ds ++ String d "") = true).
    { clear Hl. induction ds as [|c ds IH]; simpl in *.
      - now rewrite Hd.
      - apply andb_true_iff in Hds. destruct Hds as [-> Hds]. now apply IH. }
    pose proof (digits_value_range _ 0%Z Ha ltac:(lia)) as Hr.
    rewrite length_append, Z.add_0_l, Z.mul_1_l in Hr. cbn [length] in Hr.
    assert (Hp : (10 ^ Z.of_nat (length ds + 1) <= 10 ^ 4)%Z)
      by (apply Z.pow_le_mono_r; lia).
    change (10 ^ 4)%Z with 10000%Z in Hp. lia. }
  unfold strconv.ParseFloat, strconv.readFloat.
  destruct ds as [|c ds]; [simpl in Hl; lia|].
  assert (Hc : strconv.isDigit c = true)
    by (simpl in Hds; now apply andb_true_iff in Hds).
  cbn [append].
  replace (c =? "+")%char with false
    by (destruct (Ascii.eqb_spec c "+"); [subst; discriminate Hc | reflexivity]).
  replace (c =? "-")%char with false
    by (destruct (Ascii.eqb_spec c "-"); [subst; discriminate Hc | reflexivity]).
  change (String c (ds ++ String "." (String d "")))
    with (String c ds ++ String "." (String d "")).
  rewrite readMantissa_digits by assumption.
  cbn [strconv.readMantissa Ascii.eqb Bool.eqb orb negb String.eqb].
  rewrite (isDigit_not_point d Hd), Hd.
  cbn [strconv.readMantissa strconv.readExponent].
  change (String c ds ++ String d "") with (String c (ds ++ String d "")) in *.
  cbn [digits_value] in *. rewrite !digits_value_app in *.
  cbn [digits_value] in *.
  replace (0 - (0 + 1))%Z with (-1)%Z by lia.
  pose proof (roundDecimal_tenths_finite _ Hrange) as Hfin.
  destruct (strconv.roundDecimal false _ (-1)); try reflexivity.
  destruct (Hfin s eq_refl).
Qed.

Lemma ParseFloat_cover_numeral (m num : string) :
  cover_numeral m num -> exists p, strconv.ParseFloat num = (p, None).
Proof.
  intros (ds & d & -> & _ & Hl & Hds & Hd).
  eexists. now apply ParseFloat_numeral.
Qed.

(** What [Cover] hands to [ParseFloat] is the empty string or a decimal
    number of the pattern: never one of the forms of Go's [ParseFloat]
    that the model leaves out. *)
Lemma Cover_ParseFloat_argument (s : string) :
  strings.TrimRight (regexp.FindString coverRE s) "%" = "" \/
  exists m, cover_numeral m (strings.TrimRight (regexp.FindString coverRE s) "%").
Proof.
  unfold regexp.FindString. pose proof (find_coverRE s) as H.
  destruct (regexp.find coverRE s) as [m|]; [|now left].
  right. destruct H as (num & _ & _ & _ & Hm & _).
  exists m. now rewrite (TrimRight_numeral _ _ Hm).
Qed.


(** ** The library models on the examples of Go's documentation and tests *)

Example Split_commas : strings.Split "a,b,c" "," = ["a"; "b"; "c"].
Proof. reflexivity. Qed.

Example Split_words :
  strings.Split "a man a plan a canal panama" "a "
  = [""; "man "; "plan "; "canal panama"].
Proof. reflexivity. Qed.

Example Split_empty : strings.Split "" " " = [""].
Proof. reflexivity. Qed.

Example Split_only_separators : strings.Split "  " " " = [""; ""; ""].
Proof. reflexivity. Qed.

Example Replace_two : strings.Replace "oink oink oink" "k" "ky" 2 = "oinky oinky oink".
Proof. reflexivity. Qed.

Example Replace_all : strings.Replace "oink oink oink" "oink" "moo" (-1) = "moo moo moo".
Proof. reflexivity. Qed.

Example Replace_no_overlap : strings.Replace "aaaa" "aa" "b" (-1) = "bb".
Proof. reflexivity. Qed.

Example Index_chicken : strings.Index "chicken" "ken" = 4%Z.
Proof. reflexivity. Qed.

Example Index_missing : strings.Index "chicken" "dmr" = (-1)%Z.
Proof. reflexivity. Qed.

Example TrimRight_percents : strings.TrimRight "28.8%%" "%" = "28.8".
Proof. reflexivity. Qed.

Example TrimRight_inner : strings.TrimRight "%a%" "%" = "%a".
Proof. reflexivity. Qed.

Example FindString_backtracks :
  regexp.FindString coverRE "coverage: 1234.5% of statements" = "234.5%".
Proof. reflexivity. Qed.

Example FindString_leftmost :
  regexp.FindString coverRE "1.0% and 22.5%" = "1.0%".
Proof. reflexivity. Qed.

Example FindString_none :
  regexp.FindString coverRE "coverage: [no statements]" = "".
Proof. reflexivity. Qed.

Example ParseFloat_tenth : strconv.ParseFloat "0.1" = (0.1%float, None).
Proof. vm_compute. reflexivity. Qed.

Example ParseFloat_exponent : strconv.ParseFloat "-1.5e-3" = ((-0.0015)%float, None).
Proof. vm_compute. reflexivity. Qed.

Example ParseFloat_halfway_even :
  strconv.ParseFloat "9007199254740993" = (9007199254740992%float, None).
Proof. vm_compute. reflexivity. Qed.

Example ParseFloat_above_halfway :
  strconv.ParseFloat "9007199254740993.0000001"
  = (9007199254740994%float, None).
Proof. vm_compute. reflexivity. Qed.

Example ParseFloat_largest :
  strconv.ParseFloat "1.7976931348623157e308"
  = (0x1.fffffffffffffp+1023%float, None).
Proof. vm_compute. reflexivity. Qed.

Example ParseFloat_smallest :
  strconv.ParseFloat "5e-324" = (0x0.0000000000001p-1022%float, None).
Proof. vm_compute. reflexivity. Qed.

Example ParseFloat_underflow : strconv.ParseFloat "1e-400" = (0%float, None).
Proof. vm_compute. reflexivity. Qed.

Example ParseFloat_range :
  strconv.ParseFloat "1e400" = (infinity, Some strconv.ErrRange).
Proof. vm_compute. reflexivity. Qed.

Example ParseFloat_empty :
  strconv.ParseFloat "" = (0%float, Some strconv.ErrSyntax).
Proof. reflexivity. Qed.

Example ParseFloat_percent :
  strconv.ParseFloat "28.8%" = (0%float, Some strconv.ErrSyntax).
Proof. reflexivity. Qed.

Example parse_nested :
  json.parse (" {" ++ DQUOTE ++ "a" ++ DQUOTE ++ " : [1, -2.5e3, true, null, {}] } ")
  = Some (json.Object
            [("a", json.Array [json.Number "1"; json.Number "-2.5e3";
                               json.Bool true; json.Null; json.Object []])]).
Proof. reflexivity. Qed.

Example parse_leading_zero : json.parse "01" = None.
Proof. reflexivity. Qed.

Example parse_trailing_comma : json.parse "[1,]" = None.
Proof. reflexivity. Qed.

Example parse_trailing_text : json.parse "{} x" = None.
Proof. reflexivity. Qed.

Example unquote_escapes :
  json.unquote "a\tb\u0041\/" = Some ("a" ++ TAB ++ "bA/").
Proof. reflexivity. Qed.

Example unquote_surrogate_pair :
  json.unquote "\ud83d\ude00"
  = Some (String "240" (String "159" (String "152" (String "128" "")))).
Proof. reflexivity. Qed.

Example unquote_lone_surrogate :
  json.unquote "\ud800x"
  = Some (String "239" (String "191" (String "189" "x"))).
Proof. reflexivity. Qed.

Example unquote_utf8 :
  json.unquote (String "195" (String "169" (String "255" "z")))
  = Some (String "195" (String "169"
            (String "239" (String "191" (String "189" "z"))))).
Proof. reflexivity. Qed.

(** ** The normalizer and the classifier predicates *)

Section EventFacts.

Variable time_Time : Type.
Implicit Type e : Event time_Time.

(** The trigger of the normalizer, as the spec words it. *)
Lemma NestedTest_spec e :
  NestedTest e = true <->
  Test e <> "" /\
  (starts_with (Output e) "PASS" \/ starts_with (Output e) "FAIL").
Proof.
  unfold NestedTest.
  rewrite andb_true_iff, orb_true_iff, negb_true_iff, String.eqb_neq,
    !HasPrefix_spec.
  reflexivity.
Qed.

Lemma not_PASS_and_FAIL (s : string) :
  starts_with s "PASS" -> starts_with s "FAIL" -> False.
Proof. intros [r ->] [r' H]. discriminate H. Qed.

(** [ProcessNestedTest] field by field. *)
Lemma ProcessNestedTest_Output e : Output (ProcessNestedTest e) = Output e.
Proof.
  unfold ProcessNestedTest.
  repeat match goal with |- context [if ?b then _ else _] => destruct b end;
    reflexivity.
Qed.

Lemma ProcessNestedTest_Test e :
  Test (ProcessNestedTest e) =
  if NestedTest e && (2 <? List.length (tokens (Output e)))%nat
  then nth 2 (tokens (Output e)) "" else Test e.
Proof.
  unfold ProcessNestedTest.
  destruct (NestedTest e); [|reflexivity]. cbv zeta.
  assert (E : forall x : Event time_Time, Output x = Output e ->
            strings.Split (strings.Replace (Output x) TAB " " (-1)) " "
            = tokens (Output e))
    by (intros x ->; apply Split_Replace_tokens).
  destruct (strings.HasPrefix (Output e) "PASS");
    [|destruct (strings.HasPrefix (Output e) "FAIL")];
    rewrite E by reflexivity; simpl;
    destruct (2 <? List.length (tokens (Output e)))%nat; reflexivity.
Qed.

Lemma ProcessNestedTest_Action e :
  Action (ProcessNestedTest e) =
  if NestedTest e then
    if strings.HasPrefix (Output e) "PASS" then ActionPass else ActionFail
  else Action e.
Proof.
  unfold ProcessNestedTest.
  destruct (NestedTest e) eqn:Hn; [|reflexivity]. cbv zeta.
  unfold NestedTest in Hn. apply andb_true_iff in Hn. destruct Hn as [_ Hn].
  destruct (strings.HasPrefix (Output e) "PASS");
    [|destruct (strings.HasPrefix (Output e) "FAIL"); [|discriminate Hn]];
    match goal with |- context [if ?b then _ else _] => destruct b end;
    reflexivity.
Qed.

Lemma ProcessNestedTest_frame e :
  Time (ProcessNestedTest e) = Time e /\
  Package (ProcessNestedTest e) = Package e /\
  Elapsed (ProcessNestedTest e) = Elapsed e.
Proof.
  unfold ProcessNestedTest.
  repeat match goal with |- context [if ?b then _ else _] => destruct b end;
    repeat split; reflexivity.
Qed.

Lemma Event_ext e e' :
  Action e = Action e' -> Output e = Output e' -> Time e = Time e' ->
  Package e = Package e' -> Test e = Test e' -> Elapsed e = Elapsed e' ->
  e = e'.
Proof. destruct e, e'; simpl; intros; subst; reflexivity. Qed.

Lemma ProcessNestedTest_noop e :
  NestedTest e = false -> ProcessNestedTest e = e.
Proof. unfold ProcessNestedTest. now intros ->. Qed.

(** C2: applying the nested-test normalizer twice gives exactly the event
    that applying it once gives, whatever the Action, Test and Output (and
    the other fields) of the event are. *)
Theorem ProcessNestedTest_idempotent e :
  ProcessNestedTest (ProcessNestedTest e) = ProcessNestedTest e.
Proof.
  destruct (NestedTest (ProcessNestedTest e)) eqn:Hn2;
    [|now apply ProcessNestedTest_noop].
  destruct (ProcessNestedTest_frame (ProcessNestedTest e)) as (Ht & Hp & Hel).
  pose proof (ProcessNestedTest_Output e) as Ho.
  apply Event_ext; try assumption.
  - rewrite (ProcessNestedTest_Action (ProcessNestedTest e)), Hn2, Ho.
    rewrite (ProcessNestedTest_Action e).
    destruct (NestedTest e) eqn:Hn1; [reflexivity|].
    rewrite (ProcessNestedTest_noop e Hn1) in Hn2. congruence.
  - apply ProcessNestedTest_Output.
  - rewrite (ProcessNestedTest_Test (ProcessNestedTest e)), Hn2, Ho.
    rewrite (ProcessNestedTest_Test e).
    destruct (NestedTest e) eqn:Hn1.
    + simpl. destruct (2 <? List.length (tokens (Output e)))%nat eqn:Hl;
        reflexivity.
    + rewrite (ProcessNestedTest_noop e Hn1) in Hn2. congruence.
Qed.

(** C3: when Test is not empty and Output starts with PASS or FAIL, the
    normalizer sets Action to pass (prefix PASS) or fail (prefix FAIL),
    and, with the token list got by replacing every tab of Output by a
    space and cutting at every space, sets Test to the token at index 2
    when there are more than two tokens and leaves Test alone otherwise;
    when the trigger does not hold the event is unchanged. *)
Theorem ProcessNestedTest_spec e :
  (Test e <> "" /\
   (starts_with (Output e) "PASS" \/ starts_with (Output e) "FAIL") ->
   (starts_with (Output e) "PASS" -> Action (ProcessNestedTest e) = ActionPass) /\
   (starts_with (Output e) "FAIL" -> Action (ProcessNestedTest e) = ActionFail) /\
   (2 < List.length (tokens (Output e)) ->
    nth_error (tokens (Output e)) 2 = Some (Test (ProcessNestedTest e))) /\
   (List.length (tokens (Output e)) <= 2 ->
    Test (ProcessNestedTest e) = Test e)) /\
  (~ (Test e <> "" /\
      (starts_with (Output e) "PASS" \/ starts_with (Output e) "FAIL")) ->
   ProcessNestedTest e = e).
Proof.
  split.
  - intros Htrig. pose proof Htrig as Hn. apply NestedTest_spec in Hn.
    rewrite ProcessNestedTest_Action, ProcessNestedTest_Test, Hn.
    cbn [andb]. repeat split.
    + intros Hp. apply HasPrefix_spec in Hp. now rewrite Hp.
    + intros Hf. destruct (strings.HasPrefix (Output e) "PASS") eqn:Hp;
        [|reflexivity].
      apply HasPrefix_spec in Hp. destruct (not_PASS_and_FAIL _ Hp Hf).
    + intros Hl. apply Nat.ltb_lt in Hl as Hb. rewrite Hb.
      apply nth_error_nth'. exact Hl.
    + intros Hl. destruct (Nat.ltb_spec 2 (List.length (tokens (Output e))));
        [lia | reflexivity].
  - intros Hno. apply ProcessNestedTest_noop.
    destruct (NestedTest e) eqn:Hn; [|reflexivity].
    apply NestedTest_spec in Hn. contradiction.
Qed.

(** C9: the normalizer leaves Output, Package, Time and Elapsed as they
    are: only Action and Test can differ after it. *)
Theorem ProcessNestedTest_preserves e :
  Output (ProcessNestedTest e) = Output e /\
  Package (ProcessNestedTest e) = Package e /\
  Time (ProcessNestedTest e) = Time e /\
  Elapsed (ProcessNestedTest e) = Elapsed e.
Proof.
  destruct (ProcessNestedTest_frame e) as (Ht & Hp & Hel).
  pose proof (ProcessNestedTest_Output e). auto.
Qed.

(** C4: on the event with Action output, Test empty, Package p and Output
    the no-test-files line of package p (with its two tabs and its final
    line feed), [NoTestFiles] is true and [Discard] is true as well,
    whatever Time and Elapsed are. *)
Theorem NoTestFiles_and_Discard_agree (t : time_Time) (el : float) :
  NoTestFiles (mkEvent ActionOutput
                 ("?   " ++ TAB ++ "p" ++ TAB ++ "[no test files]" ++ NL)
                 t "p" "" el) = true /\
  Discard (mkEvent ActionOutput
             ("?   " ++ TAB ++ "p" ++ TAB ++ "[no test files]" ++ NL)
             t "p" "" el) = true.
Proof. split; reflexivity. Qed.

(** C5: [Discard] is true exactly when Output begins with one of the three
    markers [=== RUN   ], [=== PAUSE ], [=== CONT  ] (ten bytes each),
    whatever Test and Action are, or Action is output and Test is empty;
    it is false in every other case. *)
Theorem Discard_spec e :
  Forall (fun m => length m = 10) updates /\
  updates = ["=== RUN   "; "=== PAUSE "; "=== CONT  "] /\
  (Discard e = true <->
   (starts_with (Output e) "=== RUN   " \/
    starts_with (Output e) "=== PAUSE " \/
    starts_with (Output e) "=== CONT  ") \/
   (Action e = ActionOutput /\ Test e = "")) /\
  (Discard e = false <->
   ~ ((starts_with (Output e) "=== RUN   " \/
       starts_with (Output e) "=== PAUSE " \/
       starts_with (Output e) "=== CONT  ") \/
      (Action e = ActionOutput /\ Test e = ""))).
Proof.
  assert (H : Discard e = true <->
   (starts_with (Output e) "=== RUN   " \/
    starts_with (Output e) "=== PAUSE " \/
    starts_with (Output e) "=== CONT  ") \/
   (Action e = ActionOutput /\ Test e = "")).
  { unfold Discard, updates. cbn [existsb].
    rewrite !orb_true_iff, andb_true_iff, !HasPrefix_spec, !String.eqb_eq.
    intuition congruence. }
  repeat split; try (apply H; assumption).
  - repeat constructor.
  - intros Hf Hs. apply H in Hs. congruence.
  - intros Hn. destruct (Discard e); [|reflexivity].
    exfalso. apply Hn. now apply H.
Qed.

(** C7: [IsPanic] is true exactly when Output starts with [panic: ], or
    contains [runtime error:] and does not contain [as expected].  It is
    true on the line of an index out of range, and false on the line of
    time_test.go that reports an expected panic. *)
Theorem IsPanic_spec e :
  (IsPanic e = true <->
   starts_with (Output e) "panic: " \/
   (contains (Output e) "runtime error:" /\
    ~ contains (Output e) "as expected")) /\
  (forall a t p te el,
     IsPanic (mkEvent a "panic: runtime error: index out of range"
                      t p te el : Event time_Time) = true) /\
  (forall a t p te el,
     IsPanic (mkEvent a
                ("time_test.go:1: panic in goroutine 7, as expected, with "
                 ++ DQUOTE ++ "runtime error: racy use of timers" ++ DQUOTE)
                t p te el : Event time_Time) = false).
Proof.
  split; [|split; intros; reflexivity].
  unfold IsPanic.
  rewrite orb_true_iff, andb_true_iff, negb_true_iff, HasPrefix_spec,
    Contains_spec, Contains_false.
  reflexivity.
Qed.

(** C10: the event with Test T and Output [PASS a  b] (two spaces, a final
    line feed) satisfies the trigger, its tokens are [PASS], [a], the
    empty string and [b] with the line feed, and the normalizer sets its
    Test to the empty string.  So does it whenever the Output, tabs
    replaced, has two adjacent spaces after its second token.  The
    normalized event then fails the predicates that ask for a Test. *)
Theorem ProcessNestedTest_empties_Test :
  (forall a t p el,
     let e : Event time_Time := mkEvent a ("PASS a  b" ++ NL) t p "T" el in
     NestedTest e = true /\
     tokens (Output e) = ["PASS"; "a"; ""; "b" ++ NL] /\
     Test (ProcessNestedTest e) = "") /\
  (forall e x y rest,
     NestedTest e = true ->
     strings.in_cutset " " x = false -> strings.in_cutset " " y = false ->
     tabs_to_spaces (Output e) = x ++ " " ++ y ++ "  " ++ rest ->
     Test (ProcessNestedTest e) = "") /\
  (forall e,
     Test (ProcessNestedTest e) = "" ->
     NestedTest (ProcessNestedTest e) = false /\
     NoTestsWarn (ProcessNestedTest e) = false).
Proof.
  split; [|split].
  - intros a t p el e. repeat split; reflexivity.
  - intros e x y rest Hn Hx Hy Hout.
    rewrite ProcessNestedTest_Test, Hn. unfold tokens. rewrite Hout.
    change (x ++ " " ++ y ++ "  " ++ rest)
      with (x ++ String " " (y ++ String " " ("" ++ String " " rest))).
    rewrite !split_on_at_byte by (assumption || reflexivity).
    reflexivity.
  - intros e He. unfold NestedTest, NoTestsWarn. rewrite He. split; reflexivity.
Qed.

(** *** [Cover] *)

Lemma Cover_found e (p : float) :
  Cover e = (p, true) <->
  contains (Output e) "coverage:" /\
  ends_with (Output e) ("of statements" ++ NL) /\
  exists m num,
    first_match (Output e) m num /\ strconv.ParseFloat num = (p, None).
Proof.
  unfold Cover. rewrite <- Contains_spec, <- HasSuffix_spec.
  destruct (strings.Contains (Output e) "coverage:");
    [|split; [discriminate | intros (H & _); discriminate H]].
  destruct (strings.HasSuffix (Output e) ("of statements" ++ NL));
    [|split; [discriminate | intros (_ & H & _); discriminate H]].
  cbn [andb]. unfold regexp.FindString.
  pose proof (find_coverRE (Output e)) as Hfind.
  destruct (regexp.find coverRE (Output e)) as [m|].
  - destruct Hfind as (num & Hfm).
    assert (Hm : cover_numeral m num)
      by (destruct Hfm as (_ & _ & _ & Hm & _); auto).
    rewrite (TrimRight_numeral _ _ Hm).
    destruct (ParseFloat_cover_numeral _ _ Hm) as (q & Hq). rewrite Hq. split.
    + intros E. injection E as ->. repeat split; auto. now exists m, num.
    + intros (_ & _ & m' & num' & Hfm' & Hp).
      destruct (first_match_unique _ _ _ _ _ Hfm Hfm') as [_ ->].
      congruence.
  - split; [discriminate|].
    intros (_ & _ & m & num & (pre & post & Hs & Hm & _) & _).
    destruct (Hfind _ _ _ _ Hs Hm).
Qed.

Lemma Cover_not_found e :
  ~ (contains (Output e) "coverage:" /\
     ends_with (Output e) ("of statements" ++ NL) /\
     exists m num, first_match (Output e) m num) ->
  Cover e = (0%float, false).
Proof.
  intros Hno. unfold Cover.
  destruct (strings.Contains (Output e) "coverage:") eqn:Hc; [|reflexivity].
  destruct (strings.HasSuffix (Output e) ("of statements" ++ NL)) eqn:Hs;
    [|reflexivity].
  cbn [andb]. unfold regexp.FindString.
  pose proof (find_coverRE (Output e)) as Hfind.
  destruct (regexp.find coverRE (Output e)) as [m|]; [|reflexivity].
  destruct Hfind as (num & Hfm). exfalso. apply Hno.
  apply Contains_spec in Hc. apply HasSuffix_spec in Hs. eauto.
Qed.

(** On a coverage line, whatever comes before [coverage:] as long as it
    holds no percent sign, [Cover] finds the number of the line. *)
Lemma Cover_coverage_line (pre ds : string) (d : ascii)
  (a : ActionT) (t : time_Time) (pk te : string) (el : float) :
  strings.in_cutset "%" pre = false ->
  1 <= length ds <= 3 -> all_digits ds = true -> strconv.isDigit d = true ->
  Cover (mkEvent a (pre ++ "coverage: " ++ ds ++ "." ++ String d "%"
                        ++ " of statements" ++ NL) t pk te el)
  = (SF2Prim (strconv.roundDecimal false
                (digits_value 0 (ds ++ String d "")) (-1)), true).
Proof.
  intros Hpre Hl Hds Hd. apply Cover_found. cbn [Output]. repeat split.
  - exists pre, (" " ++ ds ++ "." ++ String d "%" ++ " of statements" ++ NL).
    reflexivity.
  - exists (pre ++ "coverage: " ++ ds ++ "." ++ String d "% ").
    rewrite ?append_assoc. simpl. rewrite ?append_assoc. reflexivity.
  - exists (ds ++ "." ++ String d "%"), (ds ++ "." ++ String d "").
    split; [|now apply ParseFloat_numeral].
    apply (first_match_coverage_line pre ds d (" of statements" ++ NL));
      assumption.
Qed.

(** C6: [Cover] returns [(p, true)] exactly when Output contains
    [coverage:], ends with [of statements] and a line feed, and holds a
    match of the pattern (one to three digits, a point, a digit, a percent
    sign) whose first match, the percent sign stripped, parses as [p]; a
    match always parses; in every other case [Cover] returns [(0, false)].
    On a line that ends with [coverage: 28.8% of statements] and a line
    feed, and has no percent sign before, it gives [(28.8, true)]; with
    [100.0] in the place of [28.8] it gives [(100.0, true)]; on the line
    [no coverage info] it gives [(0, false)]. *)
Theorem Cover_spec e (p : float) :
  (Cover e = (p, true) <->
   contains (Output e) "coverage:" /\
   ends_with (Output e) ("of statements" ++ NL) /\
   exists m num,
     first_match (Output e) m num /\ strconv.ParseFloat num = (p, None)) /\
  (forall s m num,
     first_match s m num -> exists q, strconv.ParseFloat num = (q, None)) /\
  (~ (contains (Output e) "coverage:" /\
      ends_with (Output e) ("of statements" ++ NL) /\
      exists m num, first_match (Output e) m num) ->
   Cover e = (0%float, false)) /\
  (forall pre a t pk te el,
     strings.in_cutset "%" pre = false ->
     Cover (mkEvent a (pre ++ "coverage: 28.8% of statements" ++ NL)
                    t pk te el : Event time_Time) = (28.8%float, true) /\
     Cover (mkEvent a (pre ++ "coverage: 100.0% of statements" ++ NL)
                    t pk te el : Event time_Time) = (100.0%float, true)) /\
  (forall a t pk te el,
     Cover (mkEvent a ("no coverage info" ++ NL) t pk te el
            : Event time_Time) = (0%float, false)).
Proof.
  split; [apply Cover_found|].
  split; [intros s m num (_ & _ & _ & Hm & _);
          eapply ParseFloat_cover_numeral; eauto|].
  split; [apply Cover_not_found|].
  split; [|intros; reflexivity].
  intros pre a t pk te el Hpre. split.
  - apply (Cover_coverage_line pre "28" "8" a t pk te el Hpre);
      [simpl; lia | reflexivity | reflexivity].
  - apply (Cover_coverage_line pre "100" "0" a t pk te el Hpre);
      [simpl; lia | reflexivity | reflexivity].
Qed.

(** The two coverage lines of the comment of [Cover] in event.go. *)
Example Cover_source_lines (a : ActionT) (t : time_Time) (pk te : string)
  (el : float) :
  Cover (mkEvent a ("ok  " ++ TAB ++ "github.com/mfridman/srfax" ++ TAB
                    ++ "(cached)" ++ TAB
                    ++ "coverage: 28.8% of statements" ++ NL) t pk te el)
  = (28.8%float, true) /\
  Cover (mkEvent a ("ok  " ++ TAB ++ "github.com/mfridman/srfax" ++ TAB
                    ++ "0.027s" ++ TAB
                    ++ "coverage: 28.8% of statements" ++ NL) t pk te el)
  = (28.8%float, true).
Proof. split; vm_compute; reflexivity. Qed.

(** *** The other predicates of the classifier *)

Lemma LastLine_spec e :
  LastLine e = true <->
  Test e = "" /\ Output e = "" /\
  (Action e = ActionPass \/ Action e = ActionFail).
Proof.
  unfold LastLine.
  rewrite !andb_true_iff, orb_true_iff, !String.eqb_eq. tauto.
Qed.

Lemma NoTestFiles_spec e :
  NoTestFiles e = true <->
  starts_with (Output e) ("?   " ++ TAB) /\
  ends_with (Output e) ("[no test files]" ++ NL).
Proof.
  unfold NoTestFiles. now rewrite andb_true_iff, HasPrefix_spec, HasSuffix_spec.
Qed.

Lemma NoTestsToRun_spec e :
  NoTestsToRun e = true <->
  starts_with (Output e) ("ok  " ++ TAB) /\
  ends_with (Output e) ("[no tests to run]" ++ NL).
Proof.
  unfold NoTestsToRun. now rewrite andb_true_iff, HasPrefix_spec, HasSuffix_spec.
Qed.

Lemma NoTestsWarn_spec e :
  NoTestsWarn e = true <->
  Test e <> "" /\ Output e = "testing: warning: no tests to run" ++ NL.
Proof.
  unfold NoTestsWarn.
  now rewrite andb_true_iff, negb_true_iff, String.eqb_neq, String.eqb_eq.
Qed.

Lemma IsCached_spec e :
  IsCached e = true <->
  starts_with (Output e) ("ok  " ++ TAB) /\
  contains (Output e) (TAB ++ "(cached)").
Proof.
  unfold IsCached. now rewrite andb_true_iff, HasPrefix_spec, Contains_spec.
Qed.

Lemma IsRace_spec e :
  IsRace e = true <-> starts_with (Output e) "WARNING: DATA RACE".
Proof. unfold IsRace. apply HasPrefix_spec. Qed.

Example IsCached_examples (a : ActionT) (t : time_Time) (p te : string)
  (el : float) :
  IsCached (mkEvent a ("ok  " ++ TAB ++ "pkg" ++ TAB ++ "(cached)" ++ NL)
                    t p te el) = true /\
  IsCached (mkEvent a ("ok  " ++ TAB ++ "pkg" ++ TAB ++ "0.027s" ++ TAB
                       ++ "coverage: 28.8% of statements" ++ NL)
                    t p te el) = false.
Proof. split; reflexivity. Qed.

End EventFacts.

(** ** The JSON scanner *)

(** *** Every step reads at least one byte *)

(** The innermost term that a nest of case analyses looks at first. *)
Ltac head_scrutinee t :=
  lazymatch t with
  | match ?x with _ => _ end => head_scrutinee x
  | _ => t
  end.

(** Case analysis on what the left-hand side of the goal looks at first. *)
Ltac break_lhs :=
  lazymatch goal with
  | |- ?L = _ -> _ =>
      lazymatch L with
      | match ?x with _ => _ end =>
          let y := head_scrutinee x in destruct y eqn:?
      end
  | |- ?L = _ =>
      lazymatch L with
      | match ?x with _ => _ end =>
          let y := head_scrutinee x in destruct y eqn:?
      end
  end.

Lemma skipSpace_length (s : string) :
  length (json.skipSpace s) <= length s.
Proof.
  induction s as [|c s IH]; simpl; [lia|].
  destruct (json.isSpace c); simpl; lia.
Qed.

Lemma expect_length (c : ascii) (s r : string) :
  json.expect c s = Some r -> length s = S (length r).
Proof.
  destruct s as [|d s]; simpl; [discriminate|].
  destruct (d =? c)%char; [|discriminate]. now intros [= ->].
Qed.

Lemma scanString_length (s raw rest : string) :
  json.scanString s = Some (raw, rest) -> length rest < length s.
Proof.
  remember (length s) as n eqn:Hn. revert s raw rest Hn.
  induction n as [n IH] using lt_wf_ind. intros s raw rest Hn.
  destruct s as [|c s]; [discriminate|]. cbn [json.scanString].
  repeat (break_lhs; try discriminate);
    intros [= _ <-]; subst n; simpl; try lia;
    match goal with
    | E : json.scanString ?x = Some (_, ?after) |- _ =>
        assert (length after < length x) by (eapply IH; eauto; simpl; lia)
    end; lia.
Qed.

Lemma spanDigits_length (s ds rest : string) :
  json.spanDigits s = (ds, rest) -> length ds + length rest = length s.
Proof.
  revert ds rest. induction s as [|c s IH]; simpl; intros ds rest.
  - intros [= <- <-]. reflexivity.
  - destruct (strconv.isDigit c); [|intros [= <- <-]; reflexivity].
    destruct (json.spanDigits s) as [ds' rest']. intros [= <- <-].
    simpl. rewrite (IH _ _ eq_refl). reflexivity.
Qed.

(** What the equations of a finished scan say about lengths. *)
Ltac length_facts :=
  repeat match goal with
         | E : json.expect _ _ = Some _ |- _ => apply expect_length in E
         | E : json.scanString _ = Some _ |- _ => apply scanString_length in E
         | E : json.spanDigits _ = (_, _) |- _ => apply spanDigits_length in E
         | E : (_ =? "") = false |- _ => apply String.eqb_neq in E
         end;
  repeat match goal with
         | H : context [length (json.skipSpace ?x)] |- _ =>
             lazymatch goal with
             | _ : length (json.skipSpace x) <= length x |- _ => fail
             | _ => pose proof (skipSpace_length x)
             end
         | |- context [length (json.skipSpace ?x)] =>
             lazymatch goal with
             | _ : length (json.skipSpace x) <= length x |- _ => fail
             | _ => pose proof (skipSpace_length x)
             end
         end.

Lemma length_nonempty (s : string) : s <> "" -> 0 < length s.
Proof. destruct s; simpl; [congruence | lia]. Qed.

Lemma scanNumber_length (s lit rest : string) :
  json.scanNumber s = Some (lit, rest) -> length rest < length s.
Proof.
  unfold json.scanNumber.
  repeat (break_lhs; try discriminate);
    intros [= _ <-];
    repeat match goal with
           | E : (_, _) = (_, _) |- _ => injection E as <- <-
           | E : Some _ = Some _ |- _ => injection E as <- <-
           end;
    length_facts;
    repeat match goal with
           | E : ?x <> "" |- _ => apply length_nonempty in E
           end;
    simpl in *; lia.
Qed.

Lemma literal_length (s lit : string) :
  strings.HasPrefix s lit = true ->
  length (slice_from s (length lit)) + length lit = length s.
Proof.
  intros H. apply HasPrefix_spec in H. destruct H as [r ->].
  rewrite slice_from_app, length_append. lia.
Qed.

(** A value, a list of members and a list of elements each take at least
    one byte. *)
Lemma parse_progress (fuel : nat) :
  (forall d s v r,
     json.parseValue fuel d s = Some (v, r) -> length r < length s) /\
  (forall d s ms r,
     json.parseMembers fuel d s = Some (ms, r) -> length r < length s) /\
  (forall d s vs r,
     json.parseElements fuel d s = Some (vs, r) -> length r < length s).
Proof.
  induction fuel as [|fuel (IHv & IHm & IHe)];
    [repeat split; intros; discriminate|].
  repeat split; intros d s x r; simpl;
    repeat (break_lhs; try discriminate);
    intros [= _ <-];
    repeat match goal with
           | E : json.parseValue fuel _ _ = Some _ |- _ => apply IHv in E
           | E : json.parseMembers fuel _ _ = Some _ |- _ => apply IHm in E
           | E : json.parseElements fuel _ _ = Some _ |- _ => apply IHe in E
           | E : json.scanNumber _ = Some _ |- _ => apply scanNumber_length in E
           | E : strings.HasPrefix _ _ = true |- _ => apply literal_length in E
           end;
    length_facts; simpl in *; lia.
Qed.

(** *** Fuel is never used up *)

Ltac parse_facts :=
  repeat match goal with
         | E : json.parseValue _ _ _ = Some _ |- _ =>
             apply (proj1 (parse_progress _)) in E
         | E : json.parseMembers _ _ _ = Some _ |- _ =>
             apply (proj1 (proj2 (parse_progress _))) in E
         | E : json.parseElements _ _ _ = Some _ |- _ =>
             apply (proj2 (proj2 (parse_progress _))) in E
         end;
  length_facts; simpl in *.

(** With fuel above twice the length of the text, the result does not
    depend on the fuel. *)
Lemma parse_fuel (f1 : nat) :
  (forall f2 d s,
     2 * length s < f1 -> 2 * length s < f2 ->
     json.parseValue f1 d s = json.parseValue f2 d s) /\
  (forall f2 d s,
     2 * length s + 1 < f1 -> 2 * length s + 1 < f2 ->
     json.parseMembers f1 d s = json.parseMembers f2 d s) /\
  (forall f2 d s,
     2 * length s + 1 < f1 -> 2 * length s + 1 < f2 ->
     json.parseElements f1 d s = json.parseElements f2 d s).
Proof.
  induction f1 as [|f1 (IHv & IHm & IHe)]; [repeat split; intros; lia|].
  repeat split; intros [|f2] d s H1 H2; try lia; simpl;
    repeat (first
      [ reflexivity
      | discriminate
      | match goal with
        | |- context [json.parseValue f1 ?d' ?x] =>
            rewrite (IHv f2 d' x) by (parse_facts; lia)
        | |- context [json.parseMembers f1 ?d' ?x] =>
            rewrite (IHm f2 d' x) by (parse_facts; lia)
        | |- context [json.parseElements f1 ?d' ?x] =>
            rewrite (IHe f2 d' x) by (parse_facts; lia)
        end
      | break_lhs ]).
Qed.

(** [json.parse] with any more fuel reads the same value. *)
Lemma parseValue_fuel (fuel : nat) (data : string) :
  2 * length data < fuel ->
  json.parseValue fuel 0 (json.skipSpace data) =
  json.parseValue (S (2 * length data)) 0 (json.skipSpace data).
Proof.
  intros H. pose proof (skipSpace_length data).
  apply (proj1 (parse_fuel fuel)); lia.
Qed.

(** ** The decoder *)

Section DecodeFacts.

Variable time_Time : Type.
Variable tzero : time_Time.
Variable tparse : string -> option time_Time.
Implicit Type e : Event time_Time.
Implicit Type st : decodeState time_Time.
Implicit Type ms : list (string * json.Value).

Lemma Field_eqb_eq (f g : Field) : Field_eqb f g = true <-> f = g.
Proof. destruct f, g; simpl; split; congruence. Qed.

Lemma given_cons (f : Field) (key : string) (v : json.Value) ms :
  given f ((key, v) :: ms) =
  match given f ms with
  | Some v' => Some v'
  | None => if match findField key with
               | Some g => Field_eqb g f
               | None => false
               end then Some v else None
  end.
Proof.
  simpl. destruct (given f ms); [reflexivity|].
  destruct (findField key); reflexivity.
Qed.

Lemma given_None_iff (f : Field) ms : given f ms = None <-> absent f ms.
Proof.
  unfold absent. induction ms as [|[k v] ms IH].
  - split; [intros _ key v [] | reflexivity].
  - rewrite given_cons. split.
    + intros H key v' [E|Hin].
      * injection E as -> ->. destruct (given f ms); [discriminate|].
        destruct (findField key) as [g|]; [|discriminate].
        intros E. injection E as ->.
        rewrite (proj2 (Field_eqb_eq f f) eq_refl) in H. discriminate.
      * destruct (given f ms); [discriminate|].
        apply (proj1 IH eq_refl _ _ Hin).
    + intros H.
      rewrite (proj2 IH (fun key v' Hin => H key v' (or_intror Hin))).
      specialize (H k v (or_introl eq_refl)).
      destruct (findField k) as [g|]; [|reflexivity].
      destruct (Field_eqb g f) eqn:E; [|reflexivity].
      apply Field_eqb_eq in E. congruence.
Qed.

Lemma given_In (f : Field) ms (v : json.Value) :
  given f ms = Some v -> exists key, In (key, v) ms /\ findField key = Some f.
Proof.
  induction ms as [|[k v0] ms IH]; [discriminate|].
  rewrite given_cons. destruct (given f ms) as [v'|].
  - intros E. injection E as ->. destruct (IH eq_refl) as (key & Hin & Hf).
    exists key. split; [now right | assumption].
  - destruct (findField k) as [g|] eqn:Hk; [|discriminate].
    destruct (Field_eqb g f) eqn:E; [|discriminate].
    apply Field_eqb_eq in E. subst g. intros E. injection E as ->.
    exists k. split; [now left | assumption].
Qed.

Lemma given_schema (f : Field) ms (v : json.Value) :
  matches_schema tparse ms = true -> given f ms = Some v ->
  field_ok tparse f v = true.
Proof.
  intros Hs Hg. destruct (given_In _ _ _ Hg) as (key & Hin & Hf).
  unfold matches_schema in Hs. rewrite forallb_forall in Hs.
  specialize (Hs _ Hin). simpl in Hs. now rewrite Hf in Hs.
Qed.

(** A value of the type of its field is stored, and no error is saved. *)
Lemma storeValue_ok (f : Field) (v : json.Value) st :
  field_ok tparse f v = true ->
  storeValue tparse f v st =
  (mkState (eventFrom tparse (ev st) [(fieldName f, v)]) (savedError st), None).
Proof.
  destruct st as [[a o t p te el] sv].
  destruct f, v; simpl; try discriminate; intros H;
    unfold eventFrom, given_string, given_time, given_float; simpl;
    try reflexivity.
  - destruct (tparse raw); [reflexivity | discriminate].
  - destruct (strconv.ParseFloat lit) as [x [err|]]; [discriminate | reflexivity].
Qed.

Lemma eventFrom_cons_skip e (key : string) (v : json.Value) ms :
  findField key = None ->
  eventFrom tparse e ((key, v) :: ms) = eventFrom tparse e ms.
Proof.
  intros Hk. unfold eventFrom, given_string, given_time, given_float.
  rewrite !given_cons, Hk.
  repeat match goal with |- context [given ?f ms] => destruct (given f ms) end;
    reflexivity.
Qed.

Lemma eventFrom_cons_store e (key : string) (f : Field) (v : json.Value) ms :
  findField key = Some f -> field_ok tparse f v = true ->
  matches_schema tparse ms = true ->
  eventFrom tparse e ((key, v) :: ms) =
  eventFrom tparse (eventFrom tparse e [(fieldName f, v)]) ms.
Proof.
  intros Hk Hv Hs.
  pose proof (fun g w => given_schema g ms w Hs) as Hg.
  unfold eventFrom at 1 2, given_string, given_time, given_float.
  rewrite !given_cons, Hk.
  destruct e as [a o t p te el].
  f_equal;
    match goal with
    | |- context [given ?g ms] =>
        specialize (Hg g); destruct (given g ms) as [w|];
        [specialize (Hg w eq_refl); destruct w; try discriminate Hg;
         simpl in Hg |- *; try reflexivity
        | destruct f, v; try discriminate Hv; simpl; try reflexivity ]
    end.
  destruct (tparse raw); [reflexivity | discriminate Hg].
Qed.

(** On members that match the schema, [object] ends with the event that
    the members describe and saves no error. *)
Lemma object_schema ms st :
  matches_schema tparse ms = true ->
  object tparse ms st =
  (mkState (eventFrom tparse (ev st) ms) (savedError st), None).
Proof.
  revert st. induction ms as [|[k v] ms IH]; intros st Hs.
  - destruct st as [[a o t p te el] sv]. reflexivity.
  - simpl in Hs. apply andb_true_iff in Hs. destruct Hs as [Hv Hs].
    cbn [object]. destruct (findField k) as [f|] eqn:Hk.
    + rewrite (storeValue_ok f v st Hv), (IH _ Hs). cbn [ev savedError].
      now rewrite <- (eventFrom_cons_store _ k f v ms Hk Hv Hs).
    + rewrite (IH _ Hs). now rewrite (eventFrom_cons_skip _ k v ms Hk).
Qed.

Lemma NewEvent_schema (data : string) ms :
  json.parse data = Some (json.Object ms) ->
  matches_schema tparse ms = true ->
  NewEvent tzero tparse data = inl (eventFrom tparse (zeroEvent tzero) ms).
Proof.
  intros Hp Hs. unfold NewEvent, Unmarshal.
  rewrite Hp, (object_schema ms _ Hs). reflexivity.
Qed.


End DecodeFacts.

(** *** Keys and plain strings *)

(** A key names the field whose name it is when the case of letters is
    ignored. *)
Lemma findField_fold (key : string) (f : Field) :
  findField key = Some f <-> json.foldName key = json.foldName (fieldName f).
Proof.
  unfold findField, fields. cbn [find fieldName].
  repeat match goal with
         | |- context [(?n =? key)%string] =>
             destruct (String.eqb_spec n key) as [<-|_];
             [destruct f; split; intros H; (reflexivity || discriminate H)|]
         end.
  repeat match goal with
         | |- context [(?n =? json.foldName key)%string] =>
             destruct (String.eqb_spec n (json.foldName key)) as [<-|?];
             [destruct f; split; intros H; (reflexivity || discriminate H)|]
         end.
  split; [discriminate|]. intros H. destruct f; cbn [fieldName] in H; congruence.
Qed.

Example findField_lower_case : findField "test" = Some FTest.
Proof. reflexivity. Qed.

Example findField_unknown : findField "Tests" = None.
Proof. reflexivity. Qed.

(** A string literal without escapes, made of printable ASCII bytes,
    stands for itself. *)
Lemma unquote_plain (raw : string) :
  plain raw = true -> json.unquote raw = Some raw.
Proof.
  induction raw as [|c raw IH]; [reflexivity|].
  cbn [plain]. rewrite !andb_true_iff, !negb_true_iff.
  intros [[[[Hlo Hhi] Hq] Hb] Hr].
  cbn [json.unquote]. rewrite Hb, Hq. cbn [orb].
  apply N.leb_le in Hlo. apply N.ltb_lt in Hhi.
  destruct (N.ltb_spec (json.byte c) 32); [lia|].
  destruct (N.ltb_spec (json.byte c) 128); [|lia].
  rewrite (IH Hr). reflexivity.
Qed.

(** ** Further properties of the normalizer and the predicates *)

(** *** Bytes and suffixes *)

Lemma HasPrefix_first_byte (s : string) (c : ascii) (p : string) :
  strings.HasPrefix s (String c p) = true -> first_byte s = Some c.
Proof. intros H. apply HasPrefix_spec in H. destruct H as [r ->]. reflexivity. Qed.

(** Of two suffixes of one string, the shorter is a suffix of the longer. *)
Lemma append_suffix_split (a b c d : string) :
  a ++ b = c ++ d -> length d <= length b -> exists t, b = t ++ d.
Proof.
  revert c. induction a as [|x a IH]; intros c E L.
  - exists c. exact E.
  - destruct c as [|y c].
    + simpl in E. subst d. simpl in L. rewrite length_append in L. lia.
    + simpl in E. injection E as _ E. exact (IH c E L).
Qed.

Lemma HasSuffix_both (s p q : string) :
  strings.HasSuffix s p = true -> strings.HasSuffix s q = true ->
  length q <= length p -> strings.HasSuffix p q = true.
Proof.
  rewrite !HasSuffix_spec. intros [r ->] [r' E] L.
  exact (append_suffix_split r p r' q E L).
Qed.

Lemma no_blank_cutset (s : string) :
  no_blank s = true <->
  strings.in_cutset " " s = false /\ strings.in_cutset "009" s = false.
Proof.
  induction s as [|c s IH]; [simpl; tauto|].
  cbn [no_blank strings.in_cutset]. unfold blank.
  rewrite andb_true_iff, negb_true_iff, !orb_false_iff, IH.
  rewrite (Ascii.eqb_sym " " c), (Ascii.eqb_sym "009" c). tauto.
Qed.

Lemma replace_byte_in_cutset (a b : ascii) (s : string) :
  a <> b -> strings.in_cutset a (replace_byte a b s) = false.
Proof.
  intros Hab. induction s as [|c s IH]; simpl; [reflexivity|].
  rewrite IH, orb_false_r. destruct (Ascii.eqb_spec c a) as [->|Hc].
  - now apply Ascii.eqb_neq.
  - apply Ascii.eqb_neq. congruence.
Qed.

(** A byte that is not in [s] is in no piece of [s]. *)
Lemma split_on_bytes (sep c : ascii) (s : string) :
  strings.in_cutset c s = false ->
  Forall (fun t => strings.in_cutset c t = false) (split_on sep s).
Proof.
  induction s as [|d s IH]; simpl.
  - intros _. constructor; [reflexivity | constructor].
  - rewrite orb_false_iff. intros [Hd Hs]. specialize (IH Hs).
    destruct (d =? sep)%char.
    + constructor; [reflexivity | exact IH].
    + pose proof (split_on_nonempty sep s).
      destruct (split_on sep s) as [|t ts]; [congruence|].
      inversion IH; subst. constructor; [|assumption].
      simpl. now rewrite Hd.
Qed.

Lemma tokens_no_blank (output : string) :
  Forall (fun t => no_blank t = true) (tokens output).
Proof.
  unfold tokens.
  pose proof (split_on_pieces " " (tabs_to_spaces output)) as Hsp.
  pose proof (split_on_bytes " " "009" (tabs_to_spaces output)
                (replace_byte_in_cutset "009" " " output ltac:(discriminate)))
    as Htab.
  rewrite Forall_forall in *. intros t Ht. apply no_blank_cutset.
  split; [exact (Hsp t Ht) | exact (Htab t Ht)].
Qed.

Lemma replace_byte_no_blank (s : string) :
  no_blank s = true -> tabs_to_spaces s = s.
Proof.
  unfold tabs_to_spaces. induction s as [|c s IH]; simpl; [reflexivity|].
  unfold blank. rewrite andb_true_iff, negb_true_iff, orb_false_iff.
  intros [[_ Ht] Hs]. now rewrite Ht, IH.
Qed.

Lemma tabs_to_spaces_app (a b : string) :
  tabs_to_spaces (a ++ b) = tabs_to_spaces a ++ tabs_to_spaces b.
Proof. apply replace_byte_app. Qed.

Lemma tabs_to_spaces_blank (c : ascii) (s : string) :
  blank c = true ->
  tabs_to_spaces (String c s) = String " " (tabs_to_spaces s).
Proof.
  unfold blank, tabs_to_spaces. rewrite orb_true_iff. simpl.
  intros [H|H]; apply Ascii.eqb_eq in H; subst c; reflexivity.
Qed.

(** The fields of a line [a x b y c], where [x] and [y] are a space or a
    tab and [a], [b], [c] hold neither: what follows [c], if anything,
    starts with a space or a tab. *)
Lemma tokens_three_fields (a b c rest : string) (x y : ascii) :
  no_blank a = true -> no_blank b = true -> no_blank c = true ->
  blank x = true -> blank y = true ->
  (rest = "" \/ exists z r, rest = String z r /\ blank z = true) ->
  exists ts, tokens (a ++ String x (b ++ String y (c ++ rest)))
             = a :: b :: c :: ts.
Proof.
  intros Ha Hb Hc Hx Hy Hrest. unfold tokens.
  rewrite tabs_to_spaces_app, (tabs_to_spaces_blank x) by assumption.
  rewrite tabs_to_spaces_app, (tabs_to_spaces_blank y) by assumption.
  rewrite tabs_to_spaces_app.
  rewrite !replace_byte_no_blank by assumption.
  apply no_blank_cutset in Ha, Hb. pose proof Hc as Hc'.
  apply no_blank_cutset in Hc'.
  rewrite !split_on_at_byte by tauto.
  destruct Hrest as [->|(z & r & -> & Hz)].
  - exists []. change (tabs_to_spaces "") with "".
    replace (c ++ "") with c by (clear; induction c; simpl; congruence).
    now rewrite split_on_absent by tauto.
  - rewrite (tabs_to_spaces_blank z) by assumption.
    rewrite split_on_at_byte by tauto. eauto.
Qed.

Section MoreEventFacts.

Variable time_Time : Type.
Implicit Type e : Event time_Time.

(** *** The first byte of Output under each predicate *)

Lemma NestedTest_first_byte e :
  NestedTest e = true ->
  first_byte (Output e) = Some "P"%char \/ first_byte (Output e) = Some "F"%char.
Proof.
  unfold NestedTest. rewrite andb_true_iff, orb_true_iff.
  intros [_ [H|H]]; apply HasPrefix_first_byte in H; auto.
Qed.

Lemma NoTestFiles_first_byte e :
  NoTestFiles e = true -> first_byte (Output e) = Some "?"%char.
Proof.
  unfold NoTestFiles. rewrite andb_true_iff.
  intros [H _]. now apply HasPrefix_first_byte in H.
Qed.

Lemma ok_first_byte e :
  NoTestsToRun e || IsCached e = true -> first_byte (Output e) = Some "o"%char.
Proof.
  unfold NoTestsToRun, IsCached. rewrite orb_true_iff, !andb_true_iff.
  intros [[H _]|[H _]]; now apply HasPrefix_first_byte in H.
Qed.

Lemma IsRace_first_byte e :
  IsRace e = true -> first_byte (Output e) = Some "W"%char.
Proof. unfold IsRace. apply HasPrefix_first_byte. Qed.

Lemma NoTestsWarn_first_byte e :
  NoTestsWarn e = true -> first_byte (Output e) = Some "t"%char.
Proof.
  unfold NoTestsWarn. rewrite andb_true_iff, String.eqb_eq.
  intros [_ ->]. reflexivity.
Qed.

Lemma LastLine_first_byte e :
  LastLine e = true -> first_byte (Output e) = None.
Proof. rewrite LastLine_spec. intros (_ & -> & _). reflexivity. Qed.

Lemma Cover_needs_suffix e :
  strings.HasSuffix (Output e) ("of statements" ++ NL) = false ->
  Cover e = (0%float, false).
Proof. unfold Cover. intros ->. now rewrite andb_false_r. Qed.

(** *** The normalizer and the classifier *)

(** X1: the normalizer never changes how an event is classified: each of
    Discard, LastLine, NoTestFiles, NoTestsToRun, NoTestsWarn, IsCached,
    IsRace, IsPanic and Cover gives the same answer after
    ProcessNestedTest as before. *)
Theorem ProcessNestedTest_keeps_classification e :
  Discard (ProcessNestedTest e) = Discard e /\
  LastLine (ProcessNestedTest e) = LastLine e /\
  NoTestFiles (ProcessNestedTest e) = NoTestFiles e /\
  NoTestsToRun (ProcessNestedTest e) = NoTestsToRun e /\
  NoTestsWarn (ProcessNestedTest e) = NoTestsWarn e /\
  IsCached (ProcessNestedTest e) = IsCached e /\
  IsRace (ProcessNestedTest e) = IsRace e /\
  IsPanic (ProcessNestedTest e) = IsPanic e /\
  Cover (ProcessNestedTest e) = Cover e.
Proof.
  destruct (NestedTest e) eqn:Hn;
    [|rewrite (ProcessNestedTest_noop _ e Hn); repeat split].
  pose proof (ProcessNestedTest_Output _ e) as Ho.
  pose proof (ProcessNestedTest_Action _ e) as Ha. rewrite Hn in Ha.
  pose proof (NestedTest_first_byte e Hn) as Hb.
  assert (Ht : (Test e =? "") = false).
  { unfold NestedTest in Hn. apply andb_true_iff in Hn.
    destruct Hn as [Hn _]. now apply negb_true_iff in Hn. }
  assert (Hpre : forall c p, c <> "P"%char -> c <> "F"%char ->
                   strings.HasPrefix (Output e) (String c p) = false).
  { intros c p HP HF.
    destruct (strings.HasPrefix (Output e) (String c p)) eqn:E; [|reflexivity].
    apply HasPrefix_first_byte in E. destruct Hb; congruence. }
  assert (Hne : forall c p, c <> "P"%char -> c <> "F"%char ->
                  (Output e =? String c p) = false).
  { intros c p HP HF. destruct (String.eqb_spec (Output e) (String c p)) as [E|];
      [|reflexivity].
    rewrite E in Hb. simpl in Hb. destruct Hb; congruence. }
  assert (Hemp : (Output e =? "") = false).
  { destruct (String.eqb_spec (Output e) "") as [E|]; [|reflexivity].
    rewrite E in Hb. simpl in Hb. destruct Hb; discriminate. }
  repeat split.
  - unfold Discard, updates. rewrite Ho, Ha, Ht. cbn [existsb].
    rewrite !Hpre by discriminate. rewrite andb_false_r.
    destruct (strings.HasPrefix (Output e) "PASS"); reflexivity.
  - unfold LastLine. rewrite Ho, Hemp, !andb_false_r. reflexivity.
  - unfold NoTestFiles. now rewrite Ho.
  - unfold NoTestsToRun. now rewrite Ho.
  - unfold NoTestsWarn. rewrite Ho.
    change ("testing: warning: no tests to run" ++ NL)
      with (String "t" ("esting: warning: no tests to run" ++ NL)).
    rewrite Hne by discriminate. now rewrite !andb_false_r.
  - unfold IsCached. now rewrite Ho.
  - unfold IsRace. now rewrite Ho.
  - unfold IsPanic. now rewrite Ho.
  - unfold Cover. now rewrite Ho.
Qed.

(** X2: the cutting of ProcessNestedTest loses nothing.  The parts that
    strings.Split gives for the Output with its tabs replaced, joined
    again by single spaces, spell the Output with every tab replaced by a
    space; there is at least one part, and no part holds a space or a
    tab. *)
Theorem Split_Replace_round_trip (output : string) :
  let parts := strings.Split (strings.Replace output TAB " " (-1)) " " in
  String.concat " " parts = tabs_to_spaces output /\
  (1 <= List.length parts)%nat /\
  Forall (fun t => no_blank t = true) parts.
Proof.
  cbv zeta. rewrite Split_Replace_tokens. repeat split.
  - apply split_on_concat.
  - pose proof (split_on_nonempty " " (tabs_to_spaces output)) as H.
    unfold tokens. destruct (split_on " " (tabs_to_spaces output));
      [congruence | simpl; lia].
  - apply tokens_no_blank.
Qed.

(** X3: after ProcessNestedTest, Test is the Test of before or a text
    without any space or tab, and it is the Test of before whenever the
    trigger does not hold. *)
Theorem ProcessNestedTest_Test_no_blank e :
  (Test (ProcessNestedTest e) = Test e \/
   no_blank (Test (ProcessNestedTest e)) = true) /\
  (NestedTest e = false -> Test (ProcessNestedTest e) = Test e).
Proof.
  rewrite ProcessNestedTest_Test. split.
  - destruct (NestedTest e && (2 <? List.length (tokens (Output e)))%nat)
      eqn:E; [right | now left].
    apply andb_true_iff in E. destruct E as [_ E]. apply Nat.ltb_lt in E.
    pose proof (tokens_no_blank (Output e)) as H.
    rewrite Forall_forall in H. apply H. apply nth_In. exact E.
  - intros ->. reflexivity.
Qed.

(** X4: when the trigger holds and Output is made of a first field, a
    space or tab, a second field, a space or tab and a third field (the
    fields without spaces and tabs), followed by nothing or by a space or
    tab and anything, ProcessNestedTest sets Test to the third field and
    Action to pass or fail; a line feed at the end of the third field stays
    in Test. *)
Theorem ProcessNestedTest_third_field e (a b c rest : string) (x y : ascii) :
  NestedTest e = true ->
  Output e = a ++ String x (b ++ String y (c ++ rest)) ->
  no_blank a = true -> no_blank b = true -> no_blank c = true ->
  blank x = true -> blank y = true ->
  (rest = "" \/ exists z r, rest = String z r /\ blank z = true) ->
  Test (ProcessNestedTest e) = c /\
  (Action (ProcessNestedTest e) = ActionPass \/
   Action (ProcessNestedTest e) = ActionFail).
Proof.
  intros Hn Ho Ha Hb Hc Hx Hy Hrest. split.
  - rewrite ProcessNestedTest_Test, Hn, Ho.
    destruct (tokens_three_fields a b c rest x y Ha Hb Hc Hx Hy Hrest)
      as [ts ->].
    reflexivity.
  - rewrite ProcessNestedTest_Action, Hn.
    destruct (strings.HasPrefix (Output e) "PASS"); auto.
Qed.

(** X5: the predicates that look at the start of Output exclude one
    another: of NoTestFiles, NoTestsToRun or IsCached, IsRace, NestedTest,
    NoTestsWarn and LastLine, at most one holds of an event.  And an
    event of which NestedTest or NoTestsWarn holds is never discarded. *)
Theorem start_predicates_exclusive e :
  (List.length
     (filter (fun b : bool => b)
        [NoTestFiles e; NoTestsToRun e || IsCached e; IsRace e;
         NestedTest e; NoTestsWarn e; LastLine e]) <= 1)%nat /\
  (NestedTest e || NoTestsWarn e) && Discard e = false.
Proof.
  split.
  2:{ destruct (NestedTest e || NoTestsWarn e) eqn:E; [|reflexivity].
      cbn [andb].
      assert (Hb : first_byte (Output e) <> Some "="%char).
      { apply orb_true_iff in E. destruct E as [E|E].
        - destruct (NestedTest_first_byte e E) as [H|H]; rewrite H;
            discriminate.
        - rewrite (NoTestsWarn_first_byte e E). discriminate. }
      assert (Ht : (Test e =? "") = false).
      { unfold NestedTest, NoTestsWarn in E.
        destruct (Test e =? ""); [discriminate E | reflexivity]. }
      unfold Discard, updates. rewrite Ht, andb_false_r. cbn [existsb].
      repeat match goal with
             | |- context [strings.HasPrefix (Output e) ?p] =>
                 let H := fresh "H" in
                 destruct (strings.HasPrefix (Output e) p) eqn:H;
                 [apply HasPrefix_first_byte in H; congruence|]
             end.
      reflexivity. }
  pose proof (NoTestFiles_first_byte e) as H1.
  pose proof (ok_first_byte e) as H2.
  pose proof (IsRace_first_byte e) as H3.
  pose proof (NestedTest_first_byte e) as H4.
  pose proof (NoTestsWarn_first_byte e) as H5.
  pose proof (LastLine_first_byte e) as H6.
  destruct (NoTestFiles e); destruct (NoTestsToRun e || IsCached e);
    destruct (IsRace e); destruct (NestedTest e); destruct (NoTestsWarn e);
    destruct (LastLine e); simpl; try lia; exfalso;
    repeat match goal with
           | H : true = true -> _ |- _ => specialize (H eq_refl)
           | H : false = true -> _ |- _ => clear H
           end;
    try destruct H4; congruence.
Qed.

(** X6: the last line of a package is nothing else.  On an event of which
    LastLine holds, Discard, NestedTest, NoTestFiles, NoTestsToRun,
    NoTestsWarn, IsCached, IsRace and IsPanic are all false, Cover finds
    nothing, and ProcessNestedTest leaves the event as it is. *)
Theorem LastLine_excludes e :
  LastLine e = true ->
  Discard e = false /\ NestedTest e = false /\ NoTestFiles e = false /\
  NoTestsToRun e = false /\ NoTestsWarn e = false /\ IsCached e = false /\
  IsRace e = false /\ IsPanic e = false /\ Cover e = (0%float, false) /\
  ProcessNestedTest e = e.
Proof.
  rewrite LastLine_spec. destruct e as [a o t p te el]. simpl.
  intros (-> & -> & Ha).
  destruct Ha as [-> | ->]; repeat split; reflexivity.
Qed.

(** X7: Cover finds no coverage on a line of which NoTestsToRun or
    NoTestFiles holds, even when the line carries a percentage: such a
    line ends with a bracket and a line feed, while Cover only reads lines
    that end with [of statements] and a line feed. *)
Theorem Cover_not_on_no_tests_lines e :
  NoTestsToRun e = true \/ NoTestFiles e = true ->
  Cover e = (0%float, false).
Proof.
  intros H. apply Cover_needs_suffix.
  destruct (strings.HasSuffix (Output e) ("of statements" ++ NL)) eqn:Hs;
    [exfalso | reflexivity].
  destruct H as [H|H].
  - unfold NoTestsToRun in H. apply andb_true_iff in H. destruct H as [_ H].
    pose proof (HasSuffix_both _ _ _ H Hs ltac:(simpl; lia)) as E.
    discriminate E.
  - unfold NoTestFiles in H. apply andb_true_iff in H. destruct H as [_ H].
    pose proof (HasSuffix_both _ _ _ H Hs ltac:(simpl; lia)) as E.
    discriminate E.
Qed.

(** X8: a percentage that Cover finds is a finite number between 0 and
    999.9: it is never negative, infinite or not a number, and it is not
    capped at 100. *)
Theorem Cover_range e (p : float) :
  Cover e = (p, true) ->
  (0 <=? p)%float = true /\ (p <=? 999.9)%float = true.
Proof.
  intros H. apply Cover_found in H.
  destruct H as (_ & _ & m & num & (_ & _ & _ & Hm & _) & Hp).
  destruct Hm as (ds & d & -> & _ & Hl & Hds & Hd).
  rewrite (ParseFloat_numeral ds d Hl Hds Hd) in Hp. injection Hp as <-.
  assert (Hrange : (0 <= digits_value 0 (ds ++ String d "") < 10000)%Z).
  { assert (Ha : all_digits (ds ++ String d "") = true).
    { clear Hl. induction ds as [|c ds IH]; simpl in *.
      - now rewrite Hd.
      - apply andb_true_iff in Hds. destruct Hds as [-> Hds]. now apply IH. }
    pose proof (digits_value_range _ 0%Z Ha ltac:(lia)) as Hr.
    rewrite length_append, Z.add_0_l, Z.mul_1_l in Hr. cbn [length] in Hr.
    assert (Hp : (10 ^ Z.of_nat (length ds + 1) <= 10 ^ 4)%Z)
      by (apply Z.pow_le_mono_r; lia).
    change (10 ^ 4)%Z with 10000%Z in Hp. lia. }
  generalize dependent (digits_value 0 (ds ++ String d "")). intros n Hn.
  assert (Hall : forallb (fun k =>
                   let q := SF2Prim (strconv.roundDecimal false (Z.of_nat k) (-1)) in
                   (0 <=? q)%float && (q <=? 999.9)%float)
                   (seq 0 (Z.to_nat 10000)) = true) by (vm_compute; reflexivity).
  rewrite forallb_forall in Hall.
  assert (Hin : In (Z.to_nat n) (seq 0 (Z.to_nat 10000))) by (apply in_seq; lia).
  specialize (Hall _ Hin). rewrite Z2Nat.id in Hall by lia.
  cbv zeta in Hall. now apply andb_true_iff in Hall.
Qed.

End MoreEventFacts.

(** ** Further properties of the decoder *)

Section MoreDecodeFacts.

Variable time_Time : Type.
Variable tzero : time_Time.
Variable tparse : string -> option time_Time.
Implicit Type e : Event time_Time.
Implicit Type st : decodeState time_Time.
Implicit Type ms : list (string * json.Value).

(** *** What the decoder skips *)

Lemma storeValue_Null (f : Field) st :
  storeValue tparse f json.Null st = (st, None).
Proof. destruct f; reflexivity. Qed.

Lemma relevant_cons (k : string) (v : json.Value) ms :
  relevant ((k, v) :: ms) =
  match findField k with
  | Some _ => if isNull v then relevant ms else (k, v) :: relevant ms
  | None => relevant ms
  end.
Proof.
  unfold relevant. cbn [filter fst snd].
  destruct (findField k); [destruct (isNull v)|]; reflexivity.
Qed.

(** [object] only looks at the members that name a field and are not
    [null]. *)
Lemma object_relevant ms st :
  object tparse ms st = object tparse (relevant ms) st.
Proof.
  revert st. induction ms as [|[k v] ms IH]; intros st; [reflexivity|].
  rewrite relevant_cons. cbn [object].
  destruct (findField k) as [f|] eqn:Hk; [|apply IH].
  destruct (isNull v) eqn:Hv.
  - destruct v; try discriminate Hv. rewrite storeValue_Null. apply IH.
  - cbn [object]. rewrite Hk.
    destruct (storeValue tparse f v st) as [st' [err|]]; [reflexivity | apply IH].
Qed.

(** *** Errors *)

Lemma saveError_saved st (err : json.Error) :
  savedError (saveError st err) <> None.
Proof.
  unfold saveError. destruct (savedError st) eqn:E; simpl; congruence.
Qed.

Lemma saveError_keeps st (err : json.Error) :
  savedError st <> None -> saveError st err = st.
Proof.
  unfold saveError. destruct (savedError st); [reflexivity | congruence].
Qed.

(** A saved error stays. *)
Lemma storeValue_keeps_saved (f : Field) (v : json.Value) st st'
  (r : option json.Error) :
  storeValue tparse f v st = (st', r) ->
  savedError st <> None -> savedError st' <> None.
Proof.
  intros H Hs. pose proof (saveError_keeps st) as Hk.
  destruct f, v; simpl in H;
    repeat match type of H with
           | context [match ?x with _ => _ end] => destruct x
           end;
    injection H as <- _; try rewrite Hk by assumption; assumption.
Qed.

(** A value of the wrong type, when decoding goes on, leaves a saved
    error. *)
Lemma storeValue_bad (f : Field) (v : json.Value) st st' :
  field_ok tparse f v = false -> isNull v = false ->
  storeValue tparse f v st = (st', None) ->
  savedError st' <> None.
Proof.
  intros Hok Hn H.
  destruct f, v; simpl in H, Hok; try discriminate Hok; try discriminate Hn;
    repeat match type of H with
           | context [match ?x with _ => _ end] => destruct x
           end;
    try discriminate H; try discriminate Hok;
    injection H as <-; apply saveError_saved.
Qed.

Lemma object_error ms : forall st st',
  savedError st <> None \/ matches_schema tparse (relevant ms) = false ->
  object tparse ms st = (st', None) ->
  savedError st' <> None.
Proof.
  induction ms as [|[k v] ms IH]; intros st st' Hbad H.
  - cbn in H. injection H as <-. destruct Hbad as [Hb|Hb]; [exact Hb|].
    discriminate Hb.
  - rewrite relevant_cons in Hbad. cbn [object] in H.
    destruct (findField k) as [f|] eqn:Hk; [|exact (IH _ _ Hbad H)].
    destruct (isNull v) eqn:Hv.
    + destruct v; try discriminate Hv. rewrite storeValue_Null in H.
      exact (IH _ _ Hbad H).
    + destruct (storeValue tparse f v st) as [st1 [err|]] eqn:Hst;
        [discriminate H|].
      apply (IH st1 st'); [|exact H].
      destruct Hbad as [Hb|Hb].
      * left. exact (storeValue_keeps_saved _ _ _ _ _ Hst Hb).
      * cbn [matches_schema forallb fst snd] in Hb. rewrite Hk in Hb.
        apply andb_false_iff in Hb. destruct Hb as [Hb|Hb].
        -- left. exact (storeValue_bad _ _ _ _ Hb Hv Hst).
        -- right. exact Hb.
Qed.

(** *** When [NewEvent] returns an event *)

Lemma NewEvent_relevant (data : string) ms :
  json.parse data = Some (json.Object ms) ->
  matches_schema tparse (relevant ms) = true ->
  NewEvent tzero tparse data =
  inl (eventFrom tparse (zeroEvent tzero) (relevant ms)).
Proof.
  intros Hp Hs. unfold NewEvent, Unmarshal.
  rewrite Hp, object_relevant, (object_schema _ tparse _ _ Hs). reflexivity.
Qed.

Lemma NewEvent_inl_inv (data : string) e :
  NewEvent tzero tparse data = inl e ->
  (json.parse data = Some json.Null /\ e = zeroEvent tzero) \/
  (exists ms,
     json.parse data = Some (json.Object ms) /\
     matches_schema tparse (relevant ms) = true /\
     e = eventFrom tparse (zeroEvent tzero) (relevant ms)).
Proof.
  intros H.
  destruct (json.parse data) as [v|] eqn:Hp;
    [|unfold NewEvent, Unmarshal in H; rewrite Hp in H; discriminate H].
  destruct v;
    try (unfold NewEvent, Unmarshal in H; rewrite Hp in H; discriminate H).
  - left. unfold NewEvent, Unmarshal in H. rewrite Hp in H.
    injection H as <-. auto.
  - right. exists members. split; [reflexivity|].
    destruct (matches_schema tparse (relevant members)) eqn:Hs.
    + rewrite (NewEvent_relevant data members Hp Hs) in H.
      injection H as <-. auto.
    + exfalso. unfold NewEvent, Unmarshal in H. rewrite Hp in H.
      destruct (object tparse members (mkState (zeroEvent tzero) None))
        as [st' [err|]] eqn:Ho; [discriminate H|].
      pose proof (object_error members _ _ (or_intror Hs) Ho) as Hsaved.
      destruct (savedError st'); [discriminate H | congruence].
Qed.

(** X9: NewEvent returns an event in two cases only.  The line is the
    JSON value null, and the event is the zero event; or the line is a
    JSON object in which every member that names a field and is not null
    has a value of the type of that field, and the event is the one that
    these members describe, the last one winning when a field is named
    twice.  Members with an unknown key and members whose value is null
    have no effect. *)
Theorem NewEvent_succeeds_iff (data : string) e :
  NewEvent tzero tparse data = inl e <->
  (json.parse data = Some json.Null /\
   e = mkEvent "" "" tzero "" "" 0%float) \/
  (exists ms,
     json.parse data = Some (json.Object ms) /\
     matches_schema tparse (relevant ms) = true /\
     e = eventFrom tparse (mkEvent "" "" tzero "" "" 0%float) (relevant ms)).
Proof.
  split; [apply NewEvent_inl_inv|].
  intros [[Hp ->]|(ms & Hp & Hs & ->)].
  - unfold NewEvent, Unmarshal. rewrite Hp. reflexivity.
  - now apply NewEvent_relevant.
Qed.

(** X10: one value of the wrong type is enough for NewEvent to fail.  When
    a member of the object names a field and holds a value, not null,
    that is not of the type of the field, NewEvent returns an error,
    whatever the other members are: a later member that gives the same
    field a good value does not repair it. *)
Theorem NewEvent_wrong_type_fails (data : string) ms (key : string)
  (v : json.Value) (f : Field) :
  json.parse data = Some (json.Object ms) ->
  In (key, v) ms -> findField key = Some f ->
  isNull v = false -> field_ok tparse f v = false ->
  exists err, NewEvent tzero tparse data = inr err.
Proof.
  intros Hp Hin Hk Hv Hok.
  destruct (NewEvent tzero tparse data) as [e|err] eqn:H; [exfalso | eauto].
  apply NewEvent_inl_inv in H.
  destruct H as [[Hp' _]|(ms' & Hp' & Hs & _)]; [congruence|].
  assert (ms' = ms) by congruence. subst ms'.
  unfold matches_schema in Hs. rewrite forallb_forall in Hs.
  assert (Hrel : In (key, v) (relevant ms)).
  { unfold relevant. apply filter_In. split; [exact Hin|].
    cbn [fst snd]. now rewrite Hk, Hv. }
  specialize (Hs _ Hrel). cbn [fst snd] in Hs. rewrite Hk in Hs. congruence.
Qed.

(** X11: two lines that are JSON objects and have the same members, once
    the members with an unknown key and the members whose value is null
    are left out, give the same result in NewEvent: the same event, or an
    error of the same kind about the same field and the same kind of
    value. *)
Theorem NewEvent_ignores_null_and_unknown (data data' : string) ms ms' :
  json.parse data = Some (json.Object ms) ->
  json.parse data' = Some (json.Object ms') ->
  relevant ms = relevant ms' ->
  NewEvent tzero tparse data = NewEvent tzero tparse data'.
Proof.
  intros Hp Hp' Hr. unfold NewEvent, Unmarshal.
  rewrite Hp, Hp', (object_relevant ms), (object_relevant ms'), Hr.
  reflexivity.
Qed.

(** *** The order of the members *)

Lemma given_unique (f : Field) ms (key : string) (v : json.Value) :
  fields_once ms -> In (key, v) ms -> findField key = Some f ->
  given f ms = Some v.
Proof.
  unfold fields_once. induction ms as [|[k0 v0] ms IH]; [intros _ []|].
  cbn [map fst]. intros Hnd Hin Hk. inversion Hnd as [|x l Hnotin Hnd']; subst.
  rewrite given_cons. destruct Hin as [E|Hin].
  - injection E as -> ->. rewrite Hk in *.
    destruct (given f ms) as [w|] eqn:Hg.
    + exfalso. apply Hnotin. apply given_In in Hg.
      destruct Hg as (key' & Hin' & Hk').
      apply in_map_iff. exists (key', w). split; [exact Hk' | exact Hin'].
    + now rewrite (proj2 (Field_eqb_eq f f) eq_refl).
  - now rewrite (IH Hnd' Hin Hk).
Qed.

Lemma given_Permutation (f : Field) ms ms' :
  fields_once ms -> Permutation ms ms' ->
  given f ms = given f ms'.
Proof.
  intros Hnd Hperm.
  assert (Hnd' : fields_once ms').
  { unfold fields_once in *.
    eapply Permutation_NoDup; [|exact Hnd].
    now apply Permutation_map. }
  destruct (given f ms) as [v|] eqn:Hg.
  - apply given_In in Hg. destruct Hg as (key & Hin & Hk).
    symmetry. apply (given_unique f ms' key v Hnd'); [|exact Hk].
    eapply Permutation_in; eauto.
  - destruct (given f ms') as [v|] eqn:Hg'; [|reflexivity].
    apply given_In in Hg'. destruct Hg' as (key & Hin & Hk).
    rewrite <- Hg. apply (given_unique f ms key v Hnd); [|exact Hk].
    eapply Permutation_in;
      [apply Permutation_sym|]; eauto.
Qed.

(** X12: the order of the members does not matter when no field is named
    twice.  Two JSON objects whose members that count (a key that names a
    field, a value that is not null) are the same up to their order, name
    each field at most once and have values of the types of their fields,
    decode to the same event. *)
Theorem NewEvent_member_order (data data' : string) ms ms' :
  json.parse data = Some (json.Object ms) ->
  json.parse data' = Some (json.Object ms') ->
  Permutation (relevant ms) (relevant ms') ->
  fields_once (relevant ms) ->
  matches_schema tparse (relevant ms) = true ->
  NewEvent tzero tparse data = NewEvent tzero tparse data' /\
  exists e, NewEvent tzero tparse data = inl e.
Proof.
  intros Hp Hp' Hperm Hnd Hs.
  assert (Hs' : matches_schema tparse (relevant ms') = true).
  { unfold matches_schema in *. rewrite forallb_forall in *.
    intros kv Hin. apply Hs.
    eapply Permutation_in;
      [apply Permutation_sym|]; eauto. }
  rewrite (NewEvent_relevant data ms Hp Hs),
          (NewEvent_relevant data' ms' Hp' Hs').
  split; [|eauto]. f_equal.
  unfold eventFrom, given_string, given_time, given_float.
  now rewrite !(fun f => given_Permutation f _ _ Hnd Hperm).
Qed.

(** X13: an event decoded from a line in which no member gives Test a
    value is a package-level event for the rest of the code: its Test is
    empty, NestedTest and NoTestsWarn are false of it, ProcessNestedTest
    leaves it as it is, and Discard holds of it whenever its Action is
    output. *)
Theorem NewEvent_without_Test (data : string) ms e :
  json.parse data = Some (json.Object ms) ->
  absent FTest (relevant ms) ->
  NewEvent tzero tparse data = inl e ->
  Test e = "" /\ NestedTest e = false /\ NoTestsWarn e = false /\
  ProcessNestedTest e = e /\
  (Action e = ActionOutput -> Discard e = true).
Proof.
  intros Hp Ha H. apply NewEvent_inl_inv in H.
  destruct H as [[Hp' _]|(ms' & Hp' & _ & ->)]; [congruence|].
  assert (ms' = ms) by congruence. subst ms'.
  apply given_None_iff in Ha.
  assert (Ht : Test (eventFrom tparse (zeroEvent tzero) (relevant ms)) = "").
  { cbn [eventFrom Test]. unfold given_string. now rewrite Ha. }
  assert (Hn : NestedTest (eventFrom tparse (zeroEvent tzero) (relevant ms))
               = false)
    by (unfold NestedTest; now rewrite Ht).
  repeat split.
  - exact Ht.
  - exact Hn.
  - unfold NoTestsWarn. now rewrite Ht.
  - now apply ProcessNestedTest_noop.
  - intros Hact. unfold Discard. rewrite Ht, Hact. cbn [String.eqb andb].
    apply orb_true_r.
Qed.

End MoreDecodeFacts.

(** ** Keys: what the decoder matches and what a key spells *)

(** A property that holds of the 256 bytes holds of every byte. *)
Lemma forall_bytes (P : ascii -> bool) :
  forallb P all_bytes = true -> forall c, P c = true.
Proof.
  intros H c. rewrite forallb_forall in H. apply H. unfold all_bytes.
  apply in_map_iff. exists (nat_of_ascii c). split.
  - apply ascii_nat_embedding.
  - apply in_seq. pose proof (nat_ascii_bounded c).
    change (Z.to_nat 256) with 256%nat. lia.
Qed.

Lemma forall_bytes2 (P : ascii -> ascii -> bool) :
  forallb (fun c => forallb (P c) all_bytes) all_bytes = true ->
  forall c d, P c d = true.
Proof.
  intros H c d.
  apply (forall_bytes (P c)).
  apply (forall_bytes (fun c => forallb (P c) all_bytes) H).
Qed.

(** Two bytes are the same letter exactly when they are equal in upper
    case. *)
Lemma same_letter_upper (c d : ascii) :
  same_letter c d = (to_upper c =? to_upper d)%char.
Proof.
  apply eqb_prop.
  revert c d. apply forall_bytes2. vm_compute. reflexivity.
Qed.

Lemma same_letter_trans (c d x : ascii) :
  same_letter c d = true -> same_letter c x = same_letter d x.
Proof.
  rewrite !same_letter_upper. intros H. apply Ascii.eqb_eq in H. now rewrite H.
Qed.

(** A byte outside ASCII is the same letter as itself only. *)
Lemma same_letter_high (c d : ascii) :
  same_letter c d = true -> (128 <=? N_of_ascii c)%N = true -> c = d.
Proof.
  pose proof (forall_bytes2
                (fun c d => implb (same_letter c d && (128 <=? N_of_ascii c)%N)
                                  (c =? d)%char)
                ltac:(vm_compute; reflexivity) c d) as H.
  cbv beta in H. intros H1 H2. rewrite H1, H2 in H. now apply Ascii.eqb_eq.
Qed.

(** A letter in upper case is a byte of ASCII, and no other byte. *)
Lemma upper_letter (d x : ascii) :
  is_upper d || is_upper (to_upper d) = true ->
  (128 <=? N_of_ascii x)%N = true ->
  (x =? to_upper d)%char = false /\ (N_of_ascii d <? 128)%N = true.
Proof.
  pose proof (forall_bytes2
                (fun d x => implb ((is_upper d || is_upper (to_upper d))
                                   && (128 <=? N_of_ascii x)%N)
                                  (negb (x =? to_upper d)%char
                                   && (N_of_ascii d <? 128)%N))
                ltac:(vm_compute; reflexivity) d x) as H.
  cbv beta in H. intros H1 H2. rewrite H1, H2 in H. cbn [andb implb] in H.
  apply andb_true_iff in H. now rewrite negb_true_iff in H.
Qed.

Lemma byte_eqb (c x : ascii) :
  (json.byte c =? N_of_ascii x)%N = (c =? x)%char.
Proof.
  unfold json.byte. destruct (Ascii.eqb_spec c x) as [->|Hne].
  - apply N.eqb_refl.
  - apply N.eqb_neq. intros E. apply Hne.
    rewrite <- (ascii_N_embedding c), <- (ascii_N_embedding x). now rewrite E.
Qed.

(** [foldName], byte by byte. *)
Lemma foldName_long_s (s : string) :
  json.foldName (String "197" (String "191" s)) = String "S" (json.foldName s).
Proof. reflexivity. Qed.

Lemma foldName_kelvin (s : string) :
  json.foldName (String "226" (String "132" (String "170" s)))
  = String "K" (json.foldName s).
Proof. reflexivity. Qed.

Lemma foldName_byte (c : ascii) (s : string) :
  (forall s2, c = "197"%char -> s <> String "191" s2) ->
  (forall s3, c = "226"%char -> s <> String "132" (String "170" s3)) ->
  json.foldName (String c s) = String (to_upper c) (json.foldName s).
Proof.
  intros Hs Hk. cbn [json.foldName]. unfold to_upper. fold (json.byte c).
  destruct ((97 <=? json.byte c)%N && (json.byte c <=? 122)%N); [reflexivity|].
  destruct s as [|c1 s]; [reflexivity|].
  change 197%N with (N_of_ascii "197"). change 191%N with (N_of_ascii "191").
  change 226%N with (N_of_ascii "226"). change 132%N with (N_of_ascii "132").
  change 170%N with (N_of_ascii "170").
  rewrite !byte_eqb.
  destruct (Ascii.eqb_spec c "197") as [->|_].
  - destruct (Ascii.eqb_spec c1 "191") as [->|_];
      [destruct (Hs s eq_refl eq_refl)|].
    cbn [andb]. destruct s; reflexivity.
  - cbn [andb]. destruct s as [|c2 s]; [reflexivity|].
    rewrite byte_eqb.
    destruct (Ascii.eqb_spec c "226") as [->|_]; [|reflexivity].
    destruct (Ascii.eqb_spec c1 "132") as [->|_]; [|reflexivity].
    destruct (Ascii.eqb_spec c2 "170") as [->|_]; [|reflexivity].
    destruct (Hk s eq_refl eq_refl).
Qed.

Lemma foldName_ascii (c : ascii) (s : string) :
  (N_of_ascii c <? 128)%N = true ->
  json.foldName (String c s) = String (to_upper c) (json.foldName s).
Proof.
  intros H. apply foldName_byte; intros ? -> ; discriminate H.
Qed.

Lemma foldName_letters (d : ascii) (n : string) :
  all_letters (String d n) = true ->
  json.foldName (String d n) = String (to_upper d) (json.foldName n).
Proof.
  cbn [all_letters]. rewrite andb_true_iff. intros [Hd _].
  apply foldName_ascii.
  exact (proj2 (upper_letter d "128" Hd eq_refl)).
Qed.

(** A case analysis on [k] of which every branch is [false]. *)
Ltac absurd_match k :=
  let m := fresh "m" in
  let Hm := fresh "Hm" in
  set (m := match k with EmptyString => _ | String _ _ => _ end);
  assert (Hm : m = false) by (subst m; destruct k as [|? [|? ?]]; reflexivity);
  rewrite Hm; clear Hm m.

(** On a word of letters, the comparison of folded names by the decoder of folded names is
    spelling. *)
Lemma foldName_spells (name : string) :
  all_letters name = true ->
  forall key,
    json.foldName key = json.foldName name <-> spells key name = true.
Proof.
  induction name as [|d n IH]; intros Hn key.
  - destruct key as [|c k]; [simpl; tauto|].
    split; [|discriminate].
    change (json.foldName "") with "".
    cbn [json.foldName].
    repeat match goal with
           | |- context [if ?b then _ else _] => destruct b
           | |- context [match ?s with EmptyString => _ | String _ _ => _ end] =>
               destruct s
           end; discriminate.
  - rewrite (foldName_letters d n Hn).
    cbn [all_letters] in Hn. apply andb_true_iff in Hn. destruct Hn as [Hd Hn].
    specialize (IH Hn).
    destruct key as [|c k]; [split; discriminate|].
    cbn [spells]. rewrite !same_letter_upper.
    assert (Hhigh : forall x k',
              (128 <=? N_of_ascii x)%N = true ->
              (forall s2, x = "197"%char -> k' <> String "191" s2) ->
              (forall s3, x = "226"%char ->
                          k' <> String "132" (String "170" s3)) ->
              json.foldName (String x k')
              <> String (to_upper d) (json.foldName n)).
    { intros x k' Hx H1 H2. rewrite foldName_byte by assumption.
      intros [= E _].
      pose proof (proj1 (upper_letter d (to_upper x) Hd
                           ltac:(revert Hx; unfold to_upper;
                                 destruct (_ && _) eqn:B; [|tauto];
                                 apply andb_true_iff in B;
                                 rewrite !N.leb_le in *; lia))) as Hne.
      rewrite E, Ascii.eqb_refl in Hne. discriminate Hne. }
    destruct (Ascii.eqb_spec c "197") as [->|Hs].
    + (* a long s may start here *)
      change (to_upper "197") with "197"%char.
      rewrite (proj1 (upper_letter d "197" Hd eq_refl)). cbn [andb orb].
      destruct k as [|c1 k].
      { split; [intros E | discriminate].
        destruct (Hhigh "197"%char "" eq_refl
                    ltac:(discriminate) ltac:(discriminate) E). }
      destruct (Ascii.eqb_spec c1 "191") as [->|Hc1].
      * rewrite foldName_long_s. cbn [andb].
        change (to_upper "s") with "S"%char.
        absurd_match k.
        rewrite orb_false_r, andb_true_iff, <- IH, Ascii.eqb_eq.
        split; [intros [= <- E]; auto | intros [-> ->]; reflexivity].
      * cbn [andb orb].
        absurd_match k.
        split; [intros E | discriminate].
        destruct (Hhigh "197"%char (String c1 k) eq_refl
                    ltac:(congruence) ltac:(discriminate) E).
    + destruct (Ascii.eqb_spec c "226") as [->|Hk].
      * change (to_upper "226") with "226"%char.
        rewrite (proj1 (upper_letter d "226" Hd eq_refl)). cbn [andb orb].
        assert (Hno : forall k',
                  (forall s3, k' <> String "132" (String "170" s3)) ->
                  json.foldName (String "226" k')
                  <> String (to_upper d) (json.foldName n))
          by (intros k' Hk'; apply Hhigh;
              [reflexivity | discriminate | intros; apply Hk']).
        destruct k as [|c1 [|c2 k]];
          try (split; [intros E; exfalso; revert E; apply Hno; discriminate
                      | discriminate]).
        destruct (Ascii.eqb_spec c1 "132") as [->|Hc1];
          [destruct (Ascii.eqb_spec c2 "170") as [->|Hc2]|].
        -- rewrite foldName_kelvin. cbn [andb].
           change (to_upper "k") with "K"%char.
           rewrite andb_true_iff, <- IH, Ascii.eqb_eq.
           split; [intros [= <- E]; auto | intros [-> ->]; reflexivity].
        -- cbn [andb orb].
           split; [intros E; exfalso; revert E; apply Hno; congruence
                  | discriminate].
        -- cbn [andb orb].
           split; [intros E; exfalso; revert E; apply Hno; congruence
                  | discriminate].
      * rewrite foldName_byte by (intros; congruence).
        absurd_match k.
        rewrite orb_false_r, andb_true_iff, <- IH, Ascii.eqb_eq.
        split; [intros [= -> E]; auto | intros [-> ->]; reflexivity].
Qed.

(** The key that the decoder takes for a field is the key that names
    it. *)
Lemma findField_names (key : string) (f : Field) :
  findField key = Some f <-> names key f = true.
Proof.
  rewrite findField_fold. unfold names.
  apply foldName_spells. destruct f; reflexivity.
Qed.

Lemma findField_unnamed (key : string) :
  findField key = None <-> forall f, names key f = false.
Proof.
  split.
  - intros H f. destruct (names key f) eqn:E; [|reflexivity].
    apply findField_names in E. congruence.
  - intros H. destruct (findField key) as [f|] eqn:E; [|reflexivity].
    apply findField_names in E. rewrite H in E. discriminate E.
Qed.

(** A key names at most one field. *)
Lemma names_unique (key : string) (f g : Field) :
  names key f = true -> names key g = true -> f = g.
Proof. rewrite <- !findField_names. congruence. Qed.

(** *** Keys in another case *)

Lemma same_key_spells (name : string) :
  forall k k', same_key k k' = true -> spells k name = spells k' name.
Proof.
  induction name as [|d n IH]; intros k k' H.
  - destruct k, k'; simpl in H; try discriminate H; reflexivity.
  - destruct k as [|c k], k' as [|c' k']; simpl in H; try discriminate H;
      [reflexivity|].
    apply andb_true_iff in H. destruct H as [Hc Hk].
    cbn [spells].
    rewrite (same_letter_trans c c' d Hc), (IH k k' Hk).
    f_equal.
    assert (Hsame : forall x, (128 <=? N_of_ascii x)%N = true ->
                      forall a b, same_letter a b = true ->
                      (a =? x)%char = (b =? x)%char).
    { intros x Hx a b Hab.
      destruct (Ascii.eqb_spec a x) as [->|Ha].
      - rewrite <- (same_letter_high x b Hab Hx). symmetry. apply Ascii.eqb_refl.
      - destruct (Ascii.eqb_spec b x) as [->|Hb]; [|reflexivity].
        exfalso. apply Ha. symmetry. apply (same_letter_high x a); [|exact Hx].
        rewrite same_letter_upper in *. now rewrite Ascii.eqb_sym. }
    destruct k as [|c1 k], k' as [|c1' k']; simpl in Hk; try discriminate Hk;
      [reflexivity|].
    apply andb_true_iff in Hk. destruct Hk as [Hc1 Hk].
    rewrite (Hsame "197"%char eq_refl c c' Hc),
            (Hsame "191"%char eq_refl c1 c1' Hc1),
            (Hsame "226"%char eq_refl c c' Hc),
            (Hsame "132"%char eq_refl c1 c1' Hc1),
            (IH k k' Hk).
    f_equal.
    destruct k as [|c2 k], k' as [|c2' k']; simpl in Hk; try discriminate Hk;
      [reflexivity|].
    apply andb_true_iff in Hk. destruct Hk as [Hc2 Hk].
    now rewrite (Hsame "170"%char eq_refl c2 c2' Hc2), (IH k k' Hk).
Qed.

(** Keys that differ in the case of their letters name the same field. *)
Lemma same_key_findField (k k' : string) :
  same_key k k' = true -> findField k = findField k'.
Proof.
  intros H.
  assert (Hn : forall f, names k f = names k' f)
    by (intros f; apply same_key_spells; exact H).
  destruct (findField k') as [g|] eqn:E.
  - apply findField_names. rewrite Hn. now apply findField_names.
  - apply findField_unnamed. intros f. rewrite Hn.
    now apply findField_unnamed.
Qed.

(** ** String literals: what the decoder reads and what a literal denotes *)

Lemma hex_digit_hexVal (c : ascii) : hex_digit c = json.hexVal c.
Proof.
  pose proof (forall_bytes
                (fun c => match hex_digit c, json.hexVal c with
                          | Some a, Some b => (a =? b)%N
                          | None, None => true
                          | _, _ => false
                          end)
                ltac:(vm_compute; reflexivity) c) as H.
  cbv beta in H.
  destruct (hex_digit c), (json.hexVal c); try discriminate H; [|reflexivity].
  apply N.eqb_eq in H. now subst.
Qed.

Lemma getu4_hex4 (h1 h2 h3 h4 : ascii) (u : N) (rest : string) :
  hex4 h1 h2 h3 h4 = Some u ->
  json.getu4 (String "\" (String "u" (String h1 (String h2 (String h3
                (String h4 rest)))))) = Some (u, rest).
Proof.
  unfold hex4, json.getu4. rewrite !hex_digit_hexVal.
  destruct (json.hexVal h1) as [a|]; [|discriminate].
  destruct (json.hexVal h2) as [b|]; [|discriminate].
  destruct (json.hexVal h3) as [c|]; [|discriminate].
  destruct (json.hexVal h4) as [d|]; [|discriminate].
  intros [= <-]. f_equal. f_equal. lia.
Qed.

(** *** The steps of [unquote] *)

Lemma unquote_byte (c : ascii) (raw : string) :
  (32 <=? N_of_ascii c)%N && (N_of_ascii c <? 128)%N = true ->
  c <> "034"%char -> c <> "\"%char ->
  json.unquote (String c raw) = json.prepend (String c "") (json.unquote raw).
Proof.
  intros Hr Hq Hb. apply andb_true_iff in Hr. destruct Hr as [Hlo Hhi].
  cbn [json.unquote]. unfold json.byte.
  rewrite (proj2 (Ascii.eqb_neq _ _) Hb), (proj2 (Ascii.eqb_neq _ _) Hq), Hhi.
  apply N.leb_le in Hlo.
  destruct (N.ltb_spec (N_of_ascii c) 32); [lia | reflexivity].
Qed.

Lemma unquote_escape (e c : ascii) (raw : string) :
  escape_char e = Some c ->
  json.unquote (String "\" (String e raw))
  = json.prepend (String c "") (json.unquote raw).
Proof.
  unfold escape_char, escapes. cbn [find fst snd option_map].
  repeat match goal with
         | |- context [(?x =? e)%char] =>
             destruct (Ascii.eqb_spec x e) as [<-|_];
             [intros [= <-]; reflexivity|]
         end.
  discriminate.
Qed.

Lemma unquote_unicode (h1 h2 h3 h4 : ascii) (u : N) (raw : string) :
  hex4 h1 h2 h3 h4 = Some u ->
  json.surrogate_hi u || json.surrogate_lo u = false ->
  json.unquote (String "\" (String "u" (String h1 (String h2 (String h3
                  (String h4 raw))))))
  = json.prepend (json.EncodeRune u) (json.unquote raw).
Proof.
  intros Hu Hs.
  change (json.unquote (String "\" (String "u" (String h1 (String h2
                          (String h3 (String h4 raw)))))))
    with (match json.getu4 (String "\" (String "u" (String h1 (String h2
                                (String h3 (String h4 raw)))))) with
          | Some (rr, _) =>
              if json.surrogate_hi rr || json.surrogate_lo rr then
                match raw with
                | String _ (String _ (String _ (String _
                    (String _ (String _ rest2))))) =>
                    match json.getu4 raw with
                    | Some (rr1, _) =>
                        if json.surrogate_hi rr && json.surrogate_lo rr1 then
                          json.prepend
                            (json.EncodeRune ((rr - 55296) * 1024
                                              + (rr1 - 56320) + 65536)%N)
                            (json.unquote rest2)
                        else json.prepend (json.EncodeRune 65533)
                                          (json.unquote raw)
                    | None => json.prepend (json.EncodeRune 65533)
                                           (json.unquote raw)
                    end
                | _ => json.prepend (json.EncodeRune 65533) (json.unquote raw)
                end
              else json.prepend (json.EncodeRune rr) (json.unquote raw)
          | None => None
          end).
  rewrite (getu4_hex4 _ _ _ _ _ raw Hu), Hs. reflexivity.
Qed.

Lemma unquote_pair (h1 h2 h3 h4 l1 l2 l3 l4 : ascii) (hi lo : N)
  (raw : string) :
  hex4 h1 h2 h3 h4 = Some hi -> hex4 l1 l2 l3 l4 = Some lo ->
  json.surrogate_hi hi = true -> json.surrogate_lo lo = true ->
  json.unquote (String "\" (String "u" (String h1 (String h2 (String h3
                  (String h4
               (String "\" (String "u" (String l1 (String l2 (String l3
                  (String l4 raw))))))))))))
  = json.prepend
      (json.EncodeRune ((hi - 55296) * 1024 + (lo - 56320) + 65536)%N)
      (json.unquote raw).
Proof.
  intros Hhi Hlo Hh Hl.
  set (low := String "\" (String "u" (String l1 (String l2 (String l3
                 (String l4 raw)))))).
  change (json.unquote (String "\" (String "u" (String h1 (String h2
                          (String h3 (String h4 low)))))))
    with (match json.getu4 (String "\" (String "u" (String h1 (String h2
                                (String h3 (String h4 low)))))) with
          | Some (rr, _) =>
              if json.surrogate_hi rr || json.surrogate_lo rr then
                match json.getu4 low with
                | Some (rr1, _) =>
                    if json.surrogate_hi rr && json.surrogate_lo rr1 then
                      json.prepend
                        (json.EncodeRune ((rr - 55296) * 1024
                                          + (rr1 - 56320) + 65536)%N)
                        (json.unquote raw)
                    else json.prepend (json.EncodeRune 65533)
                                      (json.unquote low)
                | None => json.prepend (json.EncodeRune 65533)
                                       (json.unquote low)
                end
              else json.prepend (json.EncodeRune rr) (json.unquote low)
          | None => None
          end).
  rewrite (getu4_hex4 _ _ _ _ _ low Hhi). subst low.
  rewrite (getu4_hex4 _ _ _ _ _ raw Hlo), Hh, Hl. reflexivity.
Qed.

(** *** UTF-8 *)

(** Arithmetic with division by a constant. *)
Ltac div_lia := zify; Z.to_euclidean_division_equations; lia.

(** Comparisons of numbers, decided by arithmetic. *)
Ltac decide_tests :=
  repeat match goal with
         | |- context [(?a <=? ?b)%N] =>
             destruct (N.leb_spec a b); try (exfalso; div_lia)
         | |- context [(?a <? ?b)%N] =>
             destruct (N.ltb_spec a b); try (exfalso; div_lia)
         | |- context [(?a =? ?b)%N] =>
             destruct (N.eqb_spec a b); try (exfalso; div_lia)
         end.

Lemma byte_chr (n : N) : (n < 256)%N -> json.byte (ascii_of_N n) = n.
Proof. apply N_ascii_embedding. Qed.

Lemma high_byte (c : ascii) :
  (128 <= json.byte c)%N ->
  (c =? "\")%char = false /\ (c =? "034")%char = false /\
  (json.byte c <? 32)%N = false /\ (json.byte c <? 128)%N = false.
Proof.
  intros H.
  pose proof (forall_bytes
                (fun c => implb (128 <=? json.byte c)%N
                            (negb (c =? "\")%char && negb (c =? "034")%char
                             && negb (json.byte c <? 32)%N
                             && negb (json.byte c <? 128)%N))
                ltac:(vm_compute; reflexivity) c) as F.
  cbv beta in F. rewrite (proj2 (N.leb_le _ _) H) in F. cbn [implb] in F.
  rewrite !andb_true_iff, !negb_true_iff in F. tauto.
Qed.

Lemma unquote_high (c : ascii) (s' : string) :
  (128 <= json.byte c)%N ->
  json.unquote (String c s') =
  match json.utf8_size (String c s'), s' with
  | 2%nat, String c1 r =>
      json.prepend (String c (String c1 "")) (json.unquote r)
  | 3%nat, String c1 (String c2 r) =>
      json.prepend (String c (String c1 (String c2 ""))) (json.unquote r)
  | 4%nat, String c1 (String c2 (String c3 r)) =>
      json.prepend (String c (String c1 (String c2 (String c3 ""))))
                   (json.unquote r)
  | _, _ => json.prepend (json.EncodeRune 65533) (json.unquote s')
  end.
Proof.
  intros H. destruct (high_byte c H) as (E1 & E2 & E3 & E4).
  cbn [json.unquote]. rewrite E1, E2, E3, E4. reflexivity.
Qed.

(** A comparison that holds, as a test. *)
Ltac test_true :=
  match goal with
  | |- (_ <=? _)%N = true => apply N.leb_le; lia
  | |- (_ <=? _)%N = false => apply N.leb_gt; lia
  | |- (_ <? _)%N = true => apply N.ltb_lt; lia
  | |- (_ <? _)%N = false => apply N.ltb_ge; lia
  end.

Lemma unquote_utf8_2 (a b : ascii) (raw : string) :
  (194 <= json.byte a <= 223)%N -> json.isCont b = true ->
  json.unquote (String a (String b raw))
  = json.prepend (String a (String b "")) (json.unquote raw).
Proof.
  intros Ha Hb. rewrite unquote_high by lia.
  unfold json.utf8_size. cbv zeta.
  replace (194 <=? json.byte a)%N with true by (symmetry; test_true).
  replace (json.byte a <=? 223)%N with true by (symmetry; test_true).
  rewrite Hb. reflexivity.
Qed.

Lemma unquote_utf8_3 (a b c : ascii) (raw : string) :
  (224 <= json.byte a <= 239)%N ->
  json.second_ok (json.byte a) b = true -> json.isCont c = true ->
  json.unquote (String a (String b (String c raw)))
  = json.prepend (String a (String b (String c ""))) (json.unquote raw).
Proof.
  intros Ha Hb Hc. rewrite unquote_high by lia.
  unfold json.utf8_size. cbv zeta.
  replace (json.byte a <=? 223)%N with false by (symmetry; test_true).
  replace (224 <=? json.byte a)%N with true by (symmetry; test_true).
  replace (json.byte a <=? 239)%N with true by (symmetry; test_true).
  rewrite Hb, Hc, andb_false_r. reflexivity.
Qed.

Lemma unquote_utf8_4 (a b c d : ascii) (raw : string) :
  (240 <= json.byte a <= 244)%N ->
  json.second_ok (json.byte a) b = true -> json.isCont c = true ->
  json.isCont d = true ->
  json.unquote (String a (String b (String c (String d raw))))
  = json.prepend (String a (String b (String c (String d ""))))
                 (json.unquote raw).
Proof.
  intros Ha Hb Hc Hd. rewrite unquote_high by lia.
  unfold json.utf8_size. cbv zeta.
  replace (json.byte a <=? 223)%N with false by (symmetry; test_true).
  replace (json.byte a <=? 239)%N with false by (symmetry; test_true).
  replace (240 <=? json.byte a)%N with true by (symmetry; test_true).
  replace (json.byte a <=? 244)%N with true by (symmetry; test_true).
  rewrite Hb, Hc, Hd, !andb_false_r. reflexivity.
Qed.

(** A property that holds of the numbers below 64 holds of each. *)
Lemma forall_below_64 (P : N -> bool) :
  forallb P (map N.of_nat (seq 0 64)) = true ->
  forall x, (x < 64)%N -> P x = true.
Proof.
  intros H x Hx. rewrite forallb_forall in H. apply H.
  apply in_map_iff. exists (N.to_nat x). split; [lia|].
  apply in_seq. lia.
Qed.

(** Under a mark whose low bits are free, or is addition. *)
Lemma lor_mark (x : N) :
  (x < 64 -> N.lor 128 x = 128 + x)%N /\
  (x < 32 -> N.lor 192 x = 192 + x)%N /\
  (x < 16 -> N.lor 224 x = 224 + x)%N /\
  (x < 8 -> N.lor 240 x = 240 + x)%N.
Proof.
  assert (H : (x < 64)%N ->
              (N.lor 128 x =? 128 + x)%N
              && implb (x <? 32)%N (N.lor 192 x =? 192 + x)%N
              && implb (x <? 16)%N (N.lor 224 x =? 224 + x)%N
              && implb (x <? 8)%N (N.lor 240 x =? 240 + x)%N = true).
  { revert x.
    apply (forall_below_64
             (fun x => (N.lor 128 x =? 128 + x)%N
                       && implb (x <? 32)%N (N.lor 192 x =? 192 + x)%N
                       && implb (x <? 16)%N (N.lor 224 x =? 224 + x)%N
                       && implb (x <? 8)%N (N.lor 240 x =? 240 + x)%N)).
    vm_compute. reflexivity. }
  repeat split; intros Hx; specialize (H ltac:(lia));
    rewrite !andb_true_iff in H; destruct H as [[[H1 H2] H3] H4];
    try (apply N.eqb_eq; assumption).
  - apply N.eqb_eq. rewrite (proj2 (N.ltb_lt _ _) Hx) in H2. exact H2.
  - apply N.eqb_eq. rewrite (proj2 (N.ltb_lt _ _) Hx) in H3. exact H3.
  - apply N.eqb_eq. rewrite (proj2 (N.ltb_lt _ _) Hx) in H4. exact H4.
Qed.

Lemma follow_byte (r k : N) :
  N.lor 128 (N.land (N.shiftr r k) 63) = (128 + (r / 2 ^ k) mod 64)%N.
Proof.
  rewrite N.shiftr_div_pow2. change 63%N with (N.ones 6).
  rewrite N.land_ones. change (2 ^ 6)%N with 64%N.
  apply (proj1 (lor_mark _)). apply N.mod_lt. discriminate.
Qed.

(** The UTF-8 text of a scalar value is what [utf8.EncodeRune] writes. *)
Lemma utf8_EncodeRune (r : N) :
  scalar r = true -> utf8 r = json.EncodeRune r.
Proof.
  unfold scalar, utf8, json.EncodeRune.
  rewrite andb_true_iff, negb_true_iff. intros [Hmax Hsur].
  apply N.leb_le in Hmax.
  rewrite Hsur. replace (1114111 <? r)%N with false by (symmetry; test_true).
  cbn [orb]. cbv zeta.
  rewrite !follow_byte, !N.shiftr_div_pow2.
  change (2 ^ 0)%N with 1%N. change (2 ^ 6)%N with 64%N.
  change (2 ^ 12)%N with 4096%N. change (2 ^ 18)%N with 262144%N.
  rewrite N.div_1_r.
  destruct (N.ltb_spec r 128); [reflexivity|].
  destruct (N.ltb_spec r 2048).
  { rewrite (proj1 (proj2 (lor_mark _))) by div_lia. reflexivity. }
  destruct (N.ltb_spec r 65536).
  { rewrite (proj1 (proj2 (proj2 (lor_mark _)))) by div_lia. reflexivity. }
  rewrite (proj2 (proj2 (proj2 (lor_mark _)))) by div_lia. reflexivity.
Qed.

Lemma isCont_chr (x : N) : json.isCont (ascii_of_N (128 + x mod 64)) = true.
Proof.
  unfold json.isCont. rewrite byte_chr by div_lia.
  apply andb_true_iff. split; apply N.leb_le; div_lia.
Qed.

(** The decoder keeps the UTF-8 text of a scalar value outside ASCII. *)
Lemma unquote_EncodeRune (r : N) (raw : string) :
  (128 <= r)%N -> scalar r = true ->
  json.unquote (json.EncodeRune r ++ raw)
  = json.prepend (json.EncodeRune r) (json.unquote raw).
Proof.
  unfold scalar, json.EncodeRune.
  rewrite andb_true_iff, negb_true_iff. intros Hlo [Hmax Hsur].
  apply N.leb_le in Hmax.
  rewrite Hsur. replace (1114111 <? r)%N with false by (symmetry; test_true).
  cbn [orb]. cbv zeta. unfold json.chr.
  apply andb_false_iff in Hsur.
  destruct (N.ltb_spec r 128); [lia|].
  destruct (N.ltb_spec r 2048); [|destruct (N.ltb_spec r 65536)]; cbn [append].
  - apply unquote_utf8_2; [|apply isCont_chr].
    rewrite byte_chr by div_lia. div_lia.
  - apply unquote_utf8_3; [| |apply isCont_chr].
    + rewrite byte_chr by div_lia. div_lia.
    + unfold json.second_ok. rewrite !byte_chr by div_lia. cbv zeta.
      destruct Hsur as [Hsur|Hsur];
        [apply N.leb_gt in Hsur | apply N.leb_gt in Hsur];
        repeat (match goal with
                | |- context [(?a =? ?b)%N] => destruct (N.eqb_spec a b)
                end; cbv iota);
        decide_tests; reflexivity.
  - apply unquote_utf8_4; [| |apply isCont_chr|apply isCont_chr].
    + rewrite byte_chr by div_lia. div_lia.
    + unfold json.second_ok. rewrite !byte_chr by div_lia. cbv zeta.
      repeat (match goal with
              | |- context [(?a =? ?b)%N] => destruct (N.eqb_spec a b)
              end; cbv iota);
      decide_tests; reflexivity.
Qed.

(** *** The decoder reads what a literal denotes *)

Lemma scalar_not_surrogate (u : N) :
  scalar u = true -> json.surrogate_hi u || json.surrogate_lo u = false.
Proof.
  unfold scalar, json.surrogate_hi, json.surrogate_lo.
  rewrite andb_true_iff, negb_true_iff, andb_false_iff, !N.leb_gt.
  intros [_ H]. decide_tests; reflexivity.
Qed.

Lemma denotes_unquote (raw s : string) :
  denotes raw s -> json.unquote raw = Some s.
Proof.
  induction 1 as [ | c raw s Hr Hq Hb _ IH | e c raw s He _ IH
                 | h1 h2 h3 h4 u raw s Hu Hs _ IH
                 | h1 h2 h3 h4 l1 l2 l3 l4 hi lo raw s Hhi Hlo Hh Hl _ IH
                 | r raw s Hr _ IH ].
  - reflexivity.
  - rewrite (unquote_byte c raw Hr Hq Hb), IH. reflexivity.
  - rewrite (unquote_escape e c raw He), IH. reflexivity.
  - rewrite (unquote_unicode _ _ _ _ u raw Hu (scalar_not_surrogate u Hs)), IH.
    rewrite (utf8_EncodeRune u Hs). reflexivity.
  - rewrite (unquote_pair _ _ _ _ _ _ _ _ hi lo raw Hhi Hlo Hh Hl), IH.
    apply andb_true_iff in Hh, Hl. rewrite !N.leb_le in Hh, Hl.
    rewrite utf8_EncodeRune
      by (unfold scalar; apply andb_true_iff; split;
          [apply N.leb_le; lia
          | apply negb_true_iff, andb_false_iff; right; apply N.leb_gt; lia]).
    replace ((hi - 55296) * 1024 + (lo - 56320) + 65536)%N
      with (65536 + (hi - 55296) * 1024 + (lo - 56320))%N by lia.
    reflexivity.
  - apply andb_true_iff in Hr. destruct Hr as [Hlo Hs].
    apply N.leb_le in Hlo.
    rewrite (utf8_EncodeRune r Hs), (unquote_EncodeRune r raw Hlo Hs), IH.
    reflexivity.
Qed.

(** A literal of printable bytes of ASCII, without a quote or a
    backslash, denotes itself. *)
Lemma plain_denotes (raw : string) : plain raw = true -> denotes raw raw.
Proof.
  induction raw as [|c raw IH]; [constructor|].
  cbn [plain]. rewrite !andb_true_iff, !negb_true_iff.
  intros [[[[Hlo Hhi] Hq] Hb] Hr].
  apply denotes_byte.
  - unfold json.byte in *. now rewrite Hlo, Hhi.
  - intros ->. discriminate Hq.
  - intros ->. discriminate Hb.
  - now apply IH.
Qed.

(** ** Members: what the decoder stores and what the line says *)

(** *** The string of a string value is what [unquote] reads *)

Lemma parseValue_Str (fuel : nat) (d : N) (s raw v rest : string) :
  json.parseValue fuel d s = Some (json.Str raw v, rest) ->
  json.unquote raw = Some v.
Proof.
  destruct fuel as [|fuel]; [discriminate|]. simpl.
  repeat (break_lhs; try discriminate); intros [= <- <- _]; assumption.
Qed.

Lemma parseMembers_Str (fuel : nat) :
  forall d s ms rest,
    json.parseMembers fuel d s = Some (ms, rest) ->
    forall key raw v,
      In (key, json.Str raw v) ms -> json.unquote raw = Some v.
Proof.
  induction fuel as [|fuel IH]; intros d s ms rest; [discriminate|]. simpl.
  repeat (break_lhs; try discriminate); intros [= <- _] key' raw' w Hin.
  - destruct Hin as [[= -> ->]|[]]. eapply parseValue_Str; eauto.
  - destruct Hin as [[= -> ->]|Hin]; [eapply parseValue_Str; eauto|].
    eapply IH; eauto.
Qed.

Lemma parse_Str (data : string) ms (key raw v : string) :
  json.parse data = Some (json.Object ms) ->
  In (key, json.Str raw v) ms -> json.unquote raw = Some v.
Proof.
  unfold json.parse.
  destruct (json.parseValue (S (2 * length data)) 0 (json.skipSpace data))
    as [[x rest]|] eqn:E; [|discriminate].
  destruct (json.skipSpace rest); [|discriminate]. intros [= ->].
  revert E. simpl.
  repeat (break_lhs; try discriminate); intros [= <- _]; [intros []|].
  eapply parseMembers_Str; eauto.
Qed.

(** *** The last member that names a field *)

Lemma find_last {A : Type} (p : A -> bool) (l : list A) (x : A) :
  find p (l ++ [x]) =
  match find p l with
  | Some y => Some y
  | None => if p x then Some x else None
  end.
Proof.
  induction l as [|a l IH]; simpl; [reflexivity|].
  destruct (p a); [reflexivity | exact IH].
Qed.

Lemma names_findField (key : string) (f : Field) :
  names key f =
  match findField key with
  | Some g => Field_eqb g f
  | None => false
  end.
Proof.
  destruct (findField key) as [g|] eqn:E.
  - destruct (Field_eqb g f) eqn:Hgf.
    + apply Field_eqb_eq in Hgf. subst g. now apply findField_names.
    + destruct (names key f) eqn:Hn; [|reflexivity].
      apply findField_names in Hn.
      assert (g = f) by congruence. subst g.
      rewrite (proj2 (Field_eqb_eq f f) eq_refl) in Hgf. discriminate Hgf.
  - now apply findField_unnamed.
Qed.

(** What the decoder leaves in a field is what the last member that names
    the field gives. *)
Lemma given_last_named (f : Field) (ms : list (string * json.Value)) :
  given f ms = last_named f ms.
Proof.
  unfold last_named. induction ms as [|[k v] ms IH]; [reflexivity|].
  rewrite given_cons, IH. cbn [rev]. rewrite find_last. cbn [fst].
  rewrite <- names_findField.
  destruct (find (fun kv => names (fst kv) f) (rev ms)); [reflexivity|].
  destruct (names k f); reflexivity.
Qed.

Lemma unnamed_given (f : Field) (ms : list (string * json.Value)) :
  unnamed f ms = true -> given f ms = None.
Proof.
  intros H. apply given_None_iff. intros key v Hin E.
  unfold unnamed in H. rewrite forallb_forall in H.
  specialize (H _ Hin). cbn [fst] in H.
  apply findField_names in E. rewrite E in H. discriminate H.
Qed.

Section SchemaFacts.

Variable time_Time : Type.
Variable tparse : string -> option time_Time.

Lemma schema_ok_matches (ms : list (string * json.Value)) :
  schema_ok tparse ms = true -> matches_schema tparse ms = true.
Proof.
  unfold schema_ok, matches_schema. rewrite !forallb_forall.
  intros H kv Hin. specialize (H kv Hin). rewrite forallb_forall in H.
  destruct (findField (fst kv)) as [f|] eqn:E; [|reflexivity].
  assert (Hf : In f fields) by (destruct f; simpl; tauto).
  specialize (H f Hf). apply findField_names in E. now rewrite E in H.
Qed.

End SchemaFacts.

(** ** What [NewEvent] returns on a line of the schema *)

Section ValueFacts.

Variable time_Time : Type.
Variable tzero : time_Time.
Variable tparse : string -> option time_Time.
Implicit Type e : Event time_Time.
Implicit Type ms : list (string * json.Value).

(** C8, amended: on a JSON object in which every member whose key names a
    field (the name of the field, letter case ignored) has a value of the
    type of that field, [NewEvent] returns an event, whichever of the
    fields are missing.  A field that no key names has the zero value of
    its type: the empty string, the zero time, the zero float.  A field
    that a key names follows the last member that names it: a string
    field holds exactly the string that the literal denotes, Time holds the
    time that package [time] reads between the quotes, and Elapsed holds
    the [float64] that [strconv.ParseFloat] reads in the number, which is
    the nearest one and not always the number written. *)
Theorem NewEvent_defaults_and_values (data : string) ms :
  json.parse data = Some (json.Object ms) ->
  schema_ok tparse ms = true ->
  exists e,
    NewEvent tzero tparse data = inl e /\
    forall f,
      (unnamed f ms = true ->
       fieldValue f e = fieldValue f (mkEvent "" "" tzero "" "" 0%float)) /\
      (forall v, last_named f ms = Some v -> holds tparse v (fieldValue f e)).
Proof.
  intros Hp Hok. pose proof (schema_ok_matches _ tparse ms Hok) as Hs.
  exists (eventFrom tparse (zeroEvent tzero) ms).
  split; [now apply NewEvent_schema|].
  intros f. split.
  - intros Hu. apply unnamed_given in Hu.
    destruct f; simpl; unfold given_string, given_time, given_float;
      rewrite Hu; reflexivity.
  - intros v Hl. rewrite <- given_last_named in Hl.
    pose proof (given_schema _ tparse f ms v Hs Hl) as Hv.
    destruct (given_In f ms v Hl) as (key & Hin & _).
    destruct f, v; try discriminate Hv; simpl in Hv |- *;
      unfold given_string, given_time, given_float; rewrite Hl;
      try (intros s' Hd; apply denotes_unquote in Hd;
           pose proof (parse_Str data ms key raw s Hp Hin); congruence).
    + destruct (tparse raw); [reflexivity | discriminate Hv].
    + destruct (strconv.ParseFloat lit) as [x [err|]];
        [discriminate Hv | reflexivity].
Qed.

(** *** Keys in another case *)

Lemma object_same_members ms ms' :
  same_members ms ms' ->
  forall st, object tparse ms st = object tparse ms' st.
Proof.
  induction 1 as [|[k v] [k' v'] ms ms' [Hk Hv] _ IH]; intros st;
    [reflexivity|].
  cbn [fst snd] in Hk, Hv. subst v'. cbn [object].
  rewrite (same_key_findField k k' Hk).
  destruct (findField k') as [f|]; [|apply IH].
  destruct (storeValue tparse f v st) as [st' [err|]]; [reflexivity | apply IH].
Qed.

(** X14: the case of the letters of the keys does not matter.  Two lines
    that are JSON objects with the same values in the same order, and
    whose keys differ in the case of their letters only, give the same
    event in NewEvent, or both fail. *)
Theorem NewEvent_ignores_key_case (data data' : string) ms ms' :
  json.parse data = Some (json.Object ms) ->
  json.parse data' = Some (json.Object ms') ->
  same_members ms ms' ->
  forall e,
    NewEvent tzero tparse data = inl e <->
    NewEvent tzero tparse data' = inl e.
Proof.
  intros Hp Hp' Hm e. unfold NewEvent, Unmarshal.
  rewrite Hp, Hp', (object_same_members ms ms' Hm). reflexivity.
Qed.

End ValueFacts.

(** ** The decoder on concrete lines *)



(** The event that [NewEvent] returns at the line of a package that
    passed. *)
Example NewEvent_package_pass :
  NewEvent "" (fun s : string => Some s)
    ("{" ++ DQUOTE ++ "Time" ++ DQUOTE ++ ":"
         ++ DQUOTE ++ "2018-10-14T11:45:03Z" ++ DQUOTE ++ ","
         ++ DQUOTE ++ "Action" ++ DQUOTE ++ ":" ++ DQUOTE ++ "pass" ++ DQUOTE ++ ","
         ++ DQUOTE ++ "Package" ++ DQUOTE ++ ":" ++ DQUOTE ++ "p" ++ DQUOTE ++ ","
         ++ DQUOTE ++ "Elapsed" ++ DQUOTE ++ ":0.584}")
  = inl (mkEvent "pass" "" "2018-10-14T11:45:03Z" "p" "" 0.584%float).
Proof. vm_compute. reflexivity. Qed.

(** The line of a package without test files decodes to the event on which
    [NoTestFiles] and [Discard] agree. *)
Example NewEvent_no_test_files :
  NewEvent tt (fun _ : string => @None unit)
    ("{" ++ DQUOTE ++ "Action" ++ DQUOTE ++ ":" ++ DQUOTE ++ "output" ++ DQUOTE ++ ","
         ++ DQUOTE ++ "Package" ++ DQUOTE ++ ":" ++ DQUOTE ++ "p" ++ DQUOTE ++ ","
         ++ DQUOTE ++ "Output" ++ DQUOTE ++ ":"
         ++ DQUOTE ++ "?   \tp\t[no test files]\n" ++ DQUOTE ++ "}")
  = inl (mkEvent ActionOutput
                 ("?   " ++ TAB ++ "p" ++ TAB ++ "[no test files]" ++ NL)
                 tt "p" "" 0%float).
Proof. vm_compute. reflexivity. Qed.

(** The three lines of the nested-test scenario of the spec: the middle
    event, normalized, has Action pass and Test [Suite.TestBar]. *)
Example nested_test_scenario :
  match NewEvent tt (fun _ : string => @None unit)
          ("{" ++ DQUOTE ++ "Action" ++ DQUOTE ++ ":" ++ DQUOTE ++ "output" ++ DQUOTE ++ ","
               ++ DQUOTE ++ "Test" ++ DQUOTE ++ ":" ++ DQUOTE ++ "TestFoo" ++ DQUOTE ++ ","
               ++ DQUOTE ++ "Output" ++ DQUOTE ++ ":"
               ++ DQUOTE ++ "PASS: sub_test.go:10: Suite.TestBar\t0.001s\n"
               ++ DQUOTE ++ "}") with
  | inl e => Action (ProcessNestedTest e) = ActionPass /\
             Test (ProcessNestedTest e) = "Suite.TestBar"
  | inr _ => False
  end.
Proof. vm_compute. split; reflexivity. Qed.

(** ** Lines of the schema, and lines that the spec reads otherwise *)

(** Literals and what they denote: an escape of two bytes, an escape of
    a less-than sign as the encoder of Go writes it, a letter outside
    ASCII as an escape and as its two bytes of UTF-8, and a pair of
    surrogates. *)
Example denotes_examples :
  denotes "ok\n" ("ok" ++ NL) /\
  denotes "a\u003cb" "a<b" /\
  denotes "caf\u00e9" (String "c" (String "a" (String "f"
                         (String "195" (String "169" ""))))) /\
  denotes (String "195" (String "169" "")) (String "195" (String "169" "")) /\
  denotes "\ud83d\ude00"
          (String "240" (String "159" (String "152" (String "128" "")))).
Proof.
  repeat split.
  - apply denotes_byte; [reflexivity | discriminate | discriminate |].
    apply denotes_byte; [reflexivity | discriminate | discriminate |].
    exact (denotes_escape "n" "010" "" "" eq_refl denotes_end).
  - apply denotes_byte; [reflexivity | discriminate | discriminate |].
    refine (denotes_unicode "0" "0" "3" "c" 60 "b" "b" eq_refl eq_refl _).
    apply denotes_byte; [reflexivity | discriminate | discriminate |].
    exact denotes_end.
  - do 3 (apply denotes_byte; [reflexivity | discriminate | discriminate |]).
    exact (denotes_unicode "0" "0" "e" "9" 233 "" "" eq_refl eq_refl
             denotes_end).
  - exact (denotes_utf8 233 "" "" eq_refl denotes_end).
  - exact (denotes_pair "d" "8" "3" "d" "d" "e" "0" "0" 55357 56832 "" ""
             eq_refl eq_refl eq_refl eq_refl denotes_end).
Qed.

(** C8: two lines that the spec counts as valid and that [NewEvent] does
    not read as the claim says.  In the first no member has the key Test,
    with the case of letters that the spec requires, and yet Test is not
    the zero value: the key in lower case sets it.  In the second Elapsed
    is a number, and the event holds another number: 9007199254740992,
    which is 4503599627370496 times 2, where 9007199254740993 is
    written. *)
Lemma NewEvent_folds_keys_and_rounds :
  (json.parse ("{" ++ quoted "Action" ++ ":" ++ quoted "run" ++ ","
                   ++ quoted "test" ++ ":" ++ quoted "x" ++ "}")
   = Some (json.Object [("Action", json.Str "run" "run");
                        ("test", json.Str "x" "x")]) /\
   ~ In "Test" (map fst [("Action", json.Str "run" "run");
                         ("test", json.Str "x" "x")]) /\
   NewEvent tt (fun _ : string => @None unit)
     ("{" ++ quoted "Action" ++ ":" ++ quoted "run" ++ ","
          ++ quoted "test" ++ ":" ++ quoted "x" ++ "}")
   = inl (mkEvent "run" "" tt "" "x" 0%float)) /\
  (json.parse ("{" ++ quoted "Elapsed" ++ ":9007199254740993}")
   = Some (json.Object [("Elapsed", json.Number "9007199254740993")]) /\
   NewEvent tt (fun _ : string => @None unit)
     ("{" ++ quoted "Elapsed" ++ ":9007199254740993}")
   = inl (mkEvent "" "" tt "" "" 9007199254740992%float) /\
   Prim2SF 9007199254740992%float
   = S754_finite false 4503599627370496 1 /\
   (4503599627370496 * 2 ^ 1 <> 9007199254740993)%Z).
Proof.
  split; [split; [|split] | split; [|split; [|split]]].
  - vm_compute. reflexivity.
  - simpl. intros [H|[H|[]]]; discriminate H.
  - vm_compute. reflexivity.
  - vm_compute. reflexivity.
  - vm_compute. reflexivity.
  - vm_compute. reflexivity.
  - discriminate.
Qed.

(** The amended C8 at a line with Time, Action, Package and Elapsed, and
    with Output under a key in lower case and with an escape; Test is
    missing.  The time is kept as its text here.  The theorem fixes the
    fields of the event: Output is what the literal denotes, Test is
    empty, Elapsed is the number read. *)
Lemma NewEvent_defaults_and_values_witness :
  exists e : Event string,
    NewEvent "" (fun s : string => Some s)
      ("{" ++ quoted "Time" ++ ":" ++ quoted "2018-10-14T11:45:03Z" ++ ","
           ++ quoted "Action" ++ ":" ++ quoted "output" ++ ","
           ++ quoted "Package" ++ ":" ++ quoted "p" ++ ","
           ++ quoted "output" ++ ":" ++ quoted "ok\n" ++ ","
           ++ quoted "Elapsed" ++ ":0.584}") = inl e /\
    Output e = "ok" ++ NL /\ Test e = "" /\
    Time e = "2018-10-14T11:45:03Z" /\ Elapsed e = 0.584%float.
Proof.
  destruct (NewEvent_defaults_and_values string "" (fun s => Some s)
              ("{" ++ quoted "Time" ++ ":" ++ quoted "2018-10-14T11:45:03Z"
                   ++ "," ++ quoted "Action" ++ ":" ++ quoted "output" ++ ","
                   ++ quoted "Package" ++ ":" ++ quoted "p" ++ ","
                   ++ quoted "output" ++ ":" ++ quoted "ok\n" ++ ","
                   ++ quoted "Elapsed" ++ ":0.584}")
              [("Time", json.Str "2018-10-14T11:45:03Z" "2018-10-14T11:45:03Z");
               ("Action", json.Str "output" "output");
               ("Package", json.Str "p" "p");
               ("output", json.Str "ok\n" ("ok" ++ NL));
               ("Elapsed", json.Number "0.584")]
              ltac:(vm_compute; reflexivity) ltac:(vm_compute; reflexivity))
    as (e & He & Hf).
  exists e. split; [exact He|]. repeat split.
  - destruct (Hf FOutput) as [_ H].
    apply (H (json.Str "ok\n" ("ok" ++ NL)) eq_refl).
    apply denotes_byte; [reflexivity | discriminate | discriminate |].
    apply denotes_byte; [reflexivity | discriminate | discriminate |].
    exact (denotes_escape "n" "010" "" "" eq_refl denotes_end).
  - destruct (Hf FTest) as [H _]. specialize (H eq_refl).
    now injection H.
  - destruct (Hf FTime) as [_ H].
    specialize (H (json.Str "2018-10-14T11:45:03Z" "2018-10-14T11:45:03Z")
                  eq_refl).
    cbn in H. now injection H.
  - destruct (Hf FElapsed) as [_ H].
    specialize (H (json.Number "0.584") eq_refl). cbn [holds fieldValue] in H.
    assert (E : strconv.ParseFloat "0.584" = (0.584%float, None))
      by (vm_compute; reflexivity).
    rewrite E in H. now injection H.
Defined.

(** The event that [NewEvent] returns at that line. *)
Example NewEvent_output_line :
  NewEvent "" (fun s : string => Some s)
    ("{" ++ quoted "Time" ++ ":" ++ quoted "2018-10-14T11:45:03Z" ++ ","
         ++ quoted "Action" ++ ":" ++ quoted "output" ++ ","
         ++ quoted "Package" ++ ":" ++ quoted "p" ++ ","
         ++ quoted "output" ++ ":" ++ quoted "ok\n" ++ ","
         ++ quoted "Elapsed" ++ ":0.584}")
  = inl (mkEvent "output" ("ok" ++ NL) "2018-10-14T11:45:03Z" "p" ""
                 0.584%float).
Proof. vm_compute. reflexivity. Qed.

(** X14 at a line with its keys in capitals and in lower case. *)
Lemma NewEvent_ignores_key_case_witness :
  exists e : Event unit,
    NewEvent tt (fun _ : string => @None unit)
      ("{" ++ quoted "ACTION" ++ ":" ++ quoted "run" ++ ","
           ++ quoted "test" ++ ":" ++ quoted "TestOne" ++ "}") = inl e /\
    NewEvent tt (fun _ : string => @None unit)
      ("{" ++ quoted "Action" ++ ":" ++ quoted "run" ++ ","
           ++ quoted "Test" ++ ":" ++ quoted "TestOne" ++ "}") = inl e.
Proof.
  exists (mkEvent "run" "" tt "" "TestOne" 0%float).
  split; [vm_compute; reflexivity|].
  apply (NewEvent_ignores_key_case unit tt (fun _ => None)
           ("{" ++ quoted "ACTION" ++ ":" ++ quoted "run" ++ ","
                ++ quoted "test" ++ ":" ++ quoted "TestOne" ++ "}")
           ("{" ++ quoted "Action" ++ ":" ++ quoted "run" ++ ","
                ++ quoted "Test" ++ ":" ++ quoted "TestOne" ++ "}")
           [("ACTION", json.Str "run" "run");
            ("test", json.Str "TestOne" "TestOne")]
           [("Action", json.Str "run" "run");
            ("Test", json.Str "TestOne" "TestOne")]).
  - vm_compute. reflexivity.
  - vm_compute. reflexivity.
  - repeat constructor.
  - vm_compute. reflexivity.
Defined.

(** ** The further properties on concrete lines *)

(** X4 at a line of a nested suite: the third field is the name of the
    test, and what follows the tab is left out. *)
Lemma ProcessNestedTest_third_field_witness :
  Test (ProcessNestedTest
          (mkEvent ActionOutput
             ("PASS: suite_test.go:21: MySuite.TestOne" ++ TAB ++ "0.00s" ++ NL)
             tt "pkg" "Test" 0%float)) = "MySuite.TestOne" /\
  (Action (ProcessNestedTest
             (mkEvent ActionOutput
                ("PASS: suite_test.go:21: MySuite.TestOne" ++ TAB ++ "0.00s" ++ NL)
                tt "pkg" "Test" 0%float)) = ActionPass \/
   Action (ProcessNestedTest
             (mkEvent ActionOutput
                ("PASS: suite_test.go:21: MySuite.TestOne" ++ TAB ++ "0.00s" ++ NL)
                tt "pkg" "Test" 0%float)) = ActionFail).
Proof.
  apply (ProcessNestedTest_third_field unit _
           "PASS:" "suite_test.go:21:" "MySuite.TestOne" (TAB ++ "0.00s" ++ NL)
           " "%char " "%char).
  - reflexivity.
  - reflexivity.
  - reflexivity.
  - reflexivity.
  - reflexivity.
  - reflexivity.
  - reflexivity.
  - right. exists "009"%char, ("0.00s" ++ NL). split; reflexivity.
Defined.

(** X6 at the last line of a package that passed. *)
Lemma LastLine_excludes_witness :
  let e := mkEvent ActionPass "" tt "pkg" "" 0.5%float in
  LastLine e = true /\
  Discard e = false /\ NestedTest e = false /\ NoTestFiles e = false /\
  NoTestsToRun e = false /\ NoTestsWarn e = false /\ IsCached e = false /\
  IsRace e = false /\ IsPanic e = false /\ Cover e = (0%float, false) /\
  ProcessNestedTest e = e.
Proof.
  split; [reflexivity|].
  apply (LastLine_excludes unit (mkEvent ActionPass "" tt "pkg" "" 0.5%float)).
  reflexivity.
Defined.

(** X7 at the line that go test prints, under -cover, for a package whose
    test files hold no test. *)
Lemma Cover_not_on_no_tests_lines_witness :
  NoTestsToRun (mkEvent ActionOutput
           ("ok  " ++ TAB ++ "pkg" ++ TAB ++ "0.005s" ++ TAB
            ++ "coverage: 0.0% of statements [no tests to run]" ++ NL)
           tt "pkg" "" 0%float) = true /\
  Cover (mkEvent ActionOutput
           ("ok  " ++ TAB ++ "pkg" ++ TAB ++ "0.005s" ++ TAB
            ++ "coverage: 0.0% of statements [no tests to run]" ++ NL)
           tt "pkg" "" 0%float) = (0%float, false).
Proof.
  split; [reflexivity|].
  apply (Cover_not_on_no_tests_lines unit).
  left. reflexivity.
Defined.

(** X8 at the largest percentage that the pattern of [Cover] can read. *)
Lemma Cover_range_witness :
  Cover (mkEvent ActionOutput ("coverage: 999.9% of statements" ++ NL)
                 tt "pkg" "" 0%float) = (999.9%float, true) /\
  (0 <=? 999.9)%float = true /\ (999.9 <=? 999.9)%float = true.
Proof.
  split; [vm_compute; reflexivity|].
  apply (Cover_range unit
           (mkEvent ActionOutput ("coverage: 999.9% of statements" ++ NL)
                    tt "pkg" "" 0%float) 999.9%float).
  vm_compute. reflexivity.
Defined.

(** X10 at a line that gives Action a number and then a string. *)
Lemma NewEvent_wrong_type_fails_witness :
  exists err,
    NewEvent tt (fun _ : string => @None unit)
      ("{" ++ quoted "Action" ++ ":5," ++ quoted "Action" ++ ":"
           ++ quoted "run" ++ "}") = inr err.
Proof.
  apply (NewEvent_wrong_type_fails unit tt (fun _ => None)
           ("{" ++ quoted "Action" ++ ":5," ++ quoted "Action" ++ ":"
                ++ quoted "run" ++ "}")
           [("Action", json.Number "5"); ("Action", json.Str "run" "run")]
           "Action" (json.Number "5") FAction).
  - reflexivity.
  - left. reflexivity.
  - reflexivity.
  - reflexivity.
  - reflexivity.
Defined.

(** X11 at a line with a null Test and an unknown key. *)
Lemma NewEvent_ignores_null_and_unknown_witness :
  NewEvent tt (fun _ : string => @None unit)
    ("{" ++ quoted "Action" ++ ":" ++ quoted "run" ++ ","
         ++ quoted "Test" ++ ":null," ++ quoted "Foo" ++ ":[1]}")
  = NewEvent tt (fun _ : string => @None unit)
      ("{" ++ quoted "Action" ++ ":" ++ quoted "run" ++ "}").
Proof.
  apply (NewEvent_ignores_null_and_unknown unit tt (fun _ => None) _ _
           [("Action", json.Str "run" "run"); ("Test", json.Null);
            ("Foo", json.Array [json.Number "1"])]
           [("Action", json.Str "run" "run")]).
  - reflexivity.
  - reflexivity.
  - reflexivity.
Defined.

(** X12 at two lines that give Action and Test in the two orders. *)
Lemma NewEvent_member_order_witness :
  NewEvent tt (fun _ : string => @None unit)
    ("{" ++ quoted "Action" ++ ":" ++ quoted "run" ++ ","
         ++ quoted "Test" ++ ":" ++ quoted "TestOne" ++ "}")
  = NewEvent tt (fun _ : string => @None unit)
      ("{" ++ quoted "Test" ++ ":" ++ quoted "TestOne" ++ ","
           ++ quoted "Action" ++ ":" ++ quoted "run" ++ "}") /\
  exists e : Event unit,
    NewEvent tt (fun _ : string => @None unit)
      ("{" ++ quoted "Action" ++ ":" ++ quoted "run" ++ ","
           ++ quoted "Test" ++ ":" ++ quoted "TestOne" ++ "}") = inl e.
Proof.
  apply (NewEvent_member_order unit tt (fun _ => None) _ _
           [("Action", json.Str "run" "run");
            ("Test", json.Str "TestOne" "TestOne")]
           [("Test", json.Str "TestOne" "TestOne");
            ("Action", json.Str "run" "run")]).
  - reflexivity.
  - reflexivity.
  - apply perm_swap.
  - unfold fields_once. simpl.
    repeat constructor; simpl; intuition discriminate.
  - reflexivity.
Defined.

(** X13 at a line of package-level output. *)
Lemma NewEvent_without_Test_witness :
  let e := mkEvent ActionOutput ("ok" ++ NL) tt "pkg" "" 0%float in
  Test e = "" /\ NestedTest e = false /\ NoTestsWarn e = false /\
  ProcessNestedTest e = e /\
  (Action e = ActionOutput -> Discard e = true).
Proof.
  apply (NewEvent_without_Test unit tt (fun _ => None)
           ("{" ++ quoted "Action" ++ ":" ++ quoted "output" ++ ","
                ++ quoted "Package" ++ ":" ++ quoted "pkg" ++ ","
                ++ quoted "Output" ++ ":" ++ quoted "ok\n" ++ "}")
           [("Action", json.Str "output" "output");
            ("Package", json.Str "pkg" "pkg");
            ("Output", json.Str "ok\n" ("ok" ++ NL))]).
  - reflexivity.
  - intros key v [E|[E|[E|[]]]]; injection E as <- <-; discriminate.
  - reflexivity.
Defined.
